(* ===== verification/_CoqProject ===== *)
-Q . S2P
Prelude.v
Schema.v
Store.v
Binary64.v
Status.v
Router.v
Layout.v
Views.v
Lifecycle.v
Aggregator.v
App.v
