(* ===== verification/Prelude.v ===== *)
(** * Pulse: a verification development of the uptime-monitoring service

    The repository is a small monitoring service written in TypeScript:

    - [src/drizzle/schema.ts] declares four MySQL tables: monitoring
      targets, monitoring checks (probe results), uptime-history buckets
      and incidents;
    - [src/server/db.ts] is the data layer: a lazily created database
      handle ([getDb]) and one async function per query or write, with
      the status and uptime computations ([getTargetStatus],
      [calculateTargetUptime]);
    - [src/server/routers.ts] is the tRPC API: each procedure validates
      its input with zod and calls one or two functions of db.ts;
    - [src/client/src] is the React dashboard: the pages Home, Targets
      and Incidents read the API and derive what they show from the
      answers; [DashboardLayout] holds a resizable sidebar whose width is
      kept in localStorage; [App.tsx] routes the location with wouter;
      Settings, [useAuth] and the server's OAuth callback are stubs.

    Data flows one way: probe results arrive through [checks.create],
    status and uptime are computed from the check table on demand, and
    incidents and history buckets are written only by explicit API
    calls.  The code has no incident state machine and no aggregator,
    although the specification describes both (spec.md 4.2 and 4.3);
    the theorems of [Router] show what the code does instead, and the
    files [Lifecycle] and [Aggregator] model both from the
    specification on top of the code's store, so that the spec's
    contracts are proved of a machine that uses the code's writes.

    ** Files, and what each models

    - [Prelude] (this file): the [Result] of an async call (a value or
      a thrown error); the state-and-error monad [Op] in which every
      server function is written, with its notation in [pulse_scope];
      [op_mapM] for [Promise.all]; the 32-bit MySQL [int] range;
      ORDER BY ... DESC as stdpp's merge sort ([order_desc]) and its
      LIMIT lemma [top_k_spec]; the hint databases [pulse], [pulse_rw].
    - [Schema]: one Module per table of schema.ts (row Record, insert
      Record, column defaults, patch Records for [update]), and the
      checks MySQL applies in strict mode on a write: varchar lengths,
      the [int] range, the TIMESTAMP range with rounding to seconds,
      and the conversion of a string to DECIMAL(5,2).
    - [Store]: the server state [Server] (DATABASE_URL, the cached
      handle [_db], the clock of [Date.now()], the four tables and their
      auto-increment counters) and every function of db.ts as an [Op],
      composed as db.ts composes them: [getDb], the early return or the
      throw without a handle, then the statement.  A statement is
      [filter] (WHERE), [order_desc] (ORDER BY) and [take] (LIMIT), or
      [insert_row]/[update_rows] with the column checks.  The step
      relation [store_step] (every writing call, or the clock moving)
      with its invariant [Db_wf].
    - [Binary64]: the JavaScript doubles of [calculateTargetUptime],
      as exact values rounded to nearest even ([fadd], [fmul], [fdiv]),
      with [toFixed(2)], [parseFloat] and [Math.round]; its Section
      [RoundingError] bounds the error of a rounded quotient and of the
      product by 100, in integers only.
    - [Status]: [getTargetStatus] and [calculateTargetUptime].
    - [Router]: every procedure of routers.ts, in a Section whose
      parameter [is_url] stands for zod's [url()] check.
    - [Layout]: DashboardLayout's sidebar: JavaScript numbers as [NaN]
      or an integer ([JsNum]), [parseInt] and [toString] written out
      over ASCII strings, the mount from localStorage and the
      mousedown/mousemove/mouseup listeners as a [step] function.
    - [Views]: the pages as functions from their queries' state
      ([Query]: pending, failed, answered) to what they show, and the
      Targets page's dialog and form with [handleSubmit].
    - [Lifecycle] (from spec 4.2, 5, 6): the incident state machine.
      The persistence operations it needs are the typeclass
      [IncidentStore] (a view of the incidents, open, resolve, and
      their laws); the machine is written against it in a Section: the
      atomic transition [record_probe], the read it makes
      ([decide_probe]), the step relation [lc_step] (probes and manual
      resolutions), [run_probes], and the restart reconstruction of
      spec 4.2's failure semantics ([rows_of], [reconstruct]).  The abstract specification is [spec_transition] on
      a list of (id, incident); [code_store] discharges the interface
      with db.ts's [createIncident] and [updateIncident].
    - [Aggregator] (from spec 4.3): [rollup] as an [Op] over the code's
      tables: calendar-aligned buckets in UTC, the bucket totals
      [bucket_of] with half-up rounding to hundredths, and the upsert
      through the code's [insert_row]/[update_rows]; [code_pct] is the
      percentage calculateTargetUptime computes with doubles, and
      [is_midpoint] tells the windows whose exact percentage lies
      halfway between two hundredths.
    - [App]: App.tsx's [Router] and [DashboardWrapper] with wouter 3's
      matching: regexparam's [parse] of a route's path ([parse_seg],
      [compile]) and the test of the RegExp it builds, flag [i] and
      optional trailing slash, as a backtracking matcher ([mat]);
      the frame DashboardLayout draws ([dashboard_view]); the Settings
      page (static tabs, handler-less buttons, the tab as its only
      state); [useAuth]; the OAuth callback.

    ** What the theorems show

    The properties of the manifest are preceded by doc comments naming
    their claims.  [Store]: each query returns exactly the rows its
    WHERE clause selects, ordered by its key and cut at its limit;
    writes respect the column constraints and the auto-increment
    discipline, and every reachable state keeps ids distinct and below
    the counters; without a database handle reads answer empty and
    writes throw.  [Status]: the status is that of the latest check, an
    uptime is computed from exactly the checks of the window (with the
    double rounding on a worked example), and the spec's divergences
    (average over checks without a response time) are proved.
    [Router]: [stats.getAllStatus] drops targets with no check; a
    second ongoing incident can be created; recording a check triggers
    no incident transition; [history.create] is not idempotent;
    resolving rewrites [endTime].  [Layout]: the width stays in
    [[200, 480]] under any event sequence, a reload restores it, a
    non-numeric saved width stays NaN forever, and the saved width is
    not clamped at mount.  [Views]: the Home counts agree with the
    cards, an unprobed target is shown Offline and Home reads "No
    services configured yet" while targets exist, the form creates the
    target with the numbers [parseInt] reads, and the Incidents page
    lists at most ten incidents.  [Lifecycle]: for every store
    satisfying the interface, every run of atomic transitions and
    manual resolutions keeps at most one ongoing incident per target
    (by induction on [rtc lc_step]); a successful run refines the
    specification ([run_probes_refines]: the table is the image of
    [spec_run] with the ids the store handed out); the health of a
    target follows spec 4.2's table after each probe; a manual
    resolution lets the next failure open a new incident; spec 8's
    fail-then-succeed scenario; and every run keeps the tracked health
    equal to the one reconstructed after a restart from the most
    recent incident row ([lifecycle_restart]).
    [Aggregator]: a successful rollup is idempotent, every outcome
    keeps [Db_wf] and the uniqueness of bucket keys, bucket totals are
    in range, and on every window of fewer than 2^31 checks whose exact
    percentage is not a midpoint the code's double rounding equals the
    spec's half-up rounding ([uptime_rounding_equiv], from the error
    bounds of [Binary64]); at the midpoint 23 of 160 they differ.
    [App]: the router renders nothing exactly at the locations that
    are not one segment ([router_blank_iff]), so ["/"] and every card
    link [/targets/<id>] render nothing.

    ** Modelling choices, bounds and what is not modelled

    - Integers the code handles (ids, limits, timestamps in
      milliseconds, counts, pixels) are [Z]; MySQL [int] columns keep
      their 32-bit range, checked on every write, and the counters'
      exhaustion is an error path.  Doubles appear only where the code
      divides ([Binary64]).
    - Fuel: [digits_of] takes [log2 n + 1] steps, which bounds the
      number of decimal digits of [n] ([digit_fuel_enough]); no other
      definition uses fuel, all recursion is structural (the matcher
      [mat] recurses on the pattern and tries the finitely many lengths
      a segment can take).
    - Bound of the rounding comparison: the total is below 2^31, the
      range of the [int] count MySQL returns; under it the quotient's
      relative error (2^-53) and the product's cannot carry a
      non-midpoint across a rounding boundary.  At midpoints the
      comparison depends on the bits of the quotient and is not stated.
    - [JsNum] is an exact integer or NaN: JavaScript numbers above
      2^53 lose precision, so the Layout claims about saved widths are
      stated for magnitudes up to 2^53; a fractional width cannot arise
      since [parseInt] yields integers.  zod's [z.number()] inputs
      ([checkInterval], [timeout]) are modelled as integers: a
      fractional value reaching the MySQL [int] column is rounded by
      the server, which the model does not represent.
    - Column checks ([valid] of each Schema Module) cover varchar
      lengths, TEXT lengths ([fits_text], 65535 bytes of ASCII), the
      [int] range and the TIMESTAMP range of the times the code writes
      ([startTime], [endTime], [timestamp]).  [createdAt]/[updatedAt]
      come from MySQL's own clock ([defaultNow], [onUpdateNow]); their
      overflow after 2038-01-19 is a property of the server's clock and
      is not checked.
    - [insert_row] advances the auto-increment counter only when the
      insert succeeds; MySQL (InnoDB) may also consume a value on a
      failed insert.  Theorems speak of the ids handed out, never of
      gaps, so either choice proves them.
    - zod's [url()] check is one Section parameter [is_url] shared by
      the server's schema and the form; the theorems hold for every
      such predicate.
    - wouter's version is not pinned in the repository (package.json is
      absent); [App] models wouter 3, whose matcher is regexparam's.
      Literal route segments are matched as text, which is what they
      are in App.tsx.
    - Rows with equal sort keys come back in an order MySQL leaves
      unspecified; the model uses the stable merge sort over insertion
      order, and no theorem depends on it.
    - Not modelled: a failure of the MySQL server during a statement
      (as opposed to a missing handle); the tRPC transport; the
      prober and scheduler, which are outside the repository (the
      specification treats them as external, and [Lifecycle] takes
      their probe results as input); the values typed into Settings'
      uncontrolled inputs, which no code reads; the React providers
      of App (theme, tooltips, toaster, error boundary), which render
      their children unchanged; non-ASCII white space in [parseInt].  The Resolve
      button of the Incidents page has an empty handler and is modelled
      as making no call. *)

From stdpp Require Export base numbers list strings sorting relations.
From Stdlib Require Export ZArith.

(** ** Results of async functions *)

(** An async function of the server either resolves with a value or
    rejects with an [Error] whose message is kept. *)
Inductive Result (A : Type) : Type :=
| Ok (a : A)
| Throw (msg : string).
Arguments Ok {A} a.
Arguments Throw {A} msg.

(** ** The state-and-error monad of the server *)

(** [Op S A] is an async function over a server state [S]: it reads and
    changes the state and resolves or throws.  The state reached before
    a throw is kept, as in the code, where a write that completed stays
    written when a later step throws. *)
Definition Op (S A : Type) : Type := S -> Result A * S.

Definition op_ret {S A} (a : A) : Op S A := fun s => (Ok a, s).

Definition op_bind {S A B} (c : Op S A) (k : A -> Op S B) : Op S B :=
  fun s =>
    match c s with
    | (Ok a, s') => k a s'
    | (Throw m, s') => (Throw m, s')
    end.

Definition op_throw {S A} (msg : string) : Op S A := fun s => (Throw msg, s).

Definition op_get {S} : Op S S := fun s => (Ok s, s).

Definition op_put {S} (s : S) : Op S unit := fun _ => (Ok tt, s).

(** Run an operation and keep only its answer, or only its final state. *)
Definition answer {S A} (c : Op S A) (s : S) : Result A := fst (c s).
Definition final {S A} (c : Op S A) (s : S) : S := snd (c s).

Declare Scope pulse_scope.
Delimit Scope pulse_scope with pulse.
Notation "x <- c ;; k" := (op_bind c (fun x => k))
  (at level 100, c at next level, right associativity) : pulse_scope.
Notation "c ;;; k" := (op_bind c (fun _ => k))
  (at level 100, right associativity) : pulse_scope.
Open Scope pulse_scope.

(** [Promise.all (xs.map f)] over calls that only read: the calls are
    independent, so running them in order gives the same answers. *)
Fixpoint op_mapM {S A B} (f : A -> Op S B) (xs : list A) : Op S (list B) :=
  match xs with
  | [] => op_ret []
  | x :: xs' => y <- f x ;; ys <- op_mapM f xs' ;; op_ret (y :: ys)
  end.

Lemma op_bind_ret {S A B} (a : A) (k : A -> Op S B) (s : S) :
  op_bind (op_ret a) k s = k a s.
Proof. reflexivity. Qed.

Lemma op_bind_ok {S A B} (c : Op S A) (k : A -> Op S B) s a s' :
  c s = (Ok a, s') -> op_bind c k s = k a s'.
Proof. intros H. unfold op_bind. by rewrite H. Qed.

Lemma op_bind_throw {S A B} (c : Op S A) (k : A -> Op S B) s m s' :
  c s = (Throw m, s') -> op_bind c k s = (Throw m, s').
Proof. intros H. unfold op_bind. by rewrite H. Qed.

(** An operation that leaves the state alone, whatever it answers. *)
Definition read_only {S A} (c : Op S A) : Prop := forall s, snd (c s) = s.

Lemma read_only_ret {S A} (a : A) : read_only (S:=S) (op_ret a).
Proof. intros s. reflexivity. Qed.

Lemma read_only_bind {S A B} (c : Op S A) (k : A -> Op S B) :
  read_only c -> (forall a, read_only (k a)) -> read_only (op_bind c k).
Proof.
  intros Hc Hk s. unfold op_bind. specialize (Hc s).
  destruct (c s) as [[a|m] s']; simpl in *; subst; [apply Hk | done].
Qed.

Lemma read_only_mapM {S A B} (f : A -> Op S B) xs :
  (forall x, read_only (f x)) -> read_only (op_mapM f xs).
Proof.
  intros Hf. induction xs as [|x xs IH]; simpl.
  - apply read_only_ret.
  - apply read_only_bind; [done|]. intros y.
    apply read_only_bind; [done|]. intros ys. apply read_only_ret.
Qed.

(** ** MySQL integers *)

(** A MySQL [int] column holds a signed 32-bit integer; in strict mode a
    write of a value outside the range is rejected. *)
Definition INT_MIN : Z := (- 2 ^ 31)%Z.
Definition INT_MAX : Z := (2 ^ 31 - 1)%Z.
Definition in_int32 (z : Z) : bool := (INT_MIN <=? z)%Z && (z <=? INT_MAX)%Z.

Lemma in_int32_spec z : in_int32 z = true <-> (INT_MIN <= z <= INT_MAX)%Z.
Proof. unfold in_int32. rewrite andb_true_iff, !Z.leb_le. done. Qed.

(** ** Lists: WHERE, ORDER BY ... DESC, LIMIT *)

(** [key_ge key a b]: [a] comes before [b] in [ORDER BY key DESC]. *)
Definition key_ge {A} (key : A -> Z) : relation A := fun a b => (key b <= key a)%Z.

#[export] Instance key_ge_dec {A} (key : A -> Z) : RelDecision (key_ge key) :=
  fun a b => Z.le_dec (key b) (key a).

(** [ORDER BY key DESC]: a stable sort on a decreasing key. *)
Definition order_desc {A} (key : A -> Z) (l : list A) : list A :=
  merge_sort (key_ge key) l.

Section OrderDesc.
Context {A : Type} (key : A -> Z).

Lemma order_desc_perm (l : list A) : order_desc key l ≡ₚ l.
Proof. apply merge_sort_Permutation. Qed.

Lemma order_desc_sorted (l : list A) :
  StronglySorted (key_ge key) (order_desc key l).
Proof.
  apply StronglySorted_merge_sort; unfold key_ge.
  - intros a b c Hab Hbc. lia.
  - intros a b. destruct (Z.le_ge_cases (key a) (key b)); [right|left]; lia.
Qed.

Lemma elem_of_order_desc x (l : list A) : x ∈ order_desc key l <-> x ∈ l.
Proof. by rewrite order_desc_perm. Qed.

Lemma length_order_desc (l : list A) : length (order_desc key l) = length l.
Proof. by rewrite order_desc_perm. Qed.

(** The head of a descending order carries the largest key. *)
Lemma order_desc_head_max (l : list A) x rest :
  order_desc key l = x :: rest -> forall y, y ∈ l -> (key y <= key x)%Z.
Proof.
  intros Hl y Hy. rewrite <- elem_of_order_desc, Hl in Hy.
  pose proof (order_desc_sorted l) as Hs. rewrite Hl in Hs.
  apply StronglySorted_inv in Hs as [_ Hall].
  apply elem_of_cons in Hy as [->|Hy]; [lia|].
  rewrite Forall_forall in Hall. exact (Hall y Hy).
Qed.
End OrderDesc.

(** A WHERE clause written as a boolean test. *)
Lemma elem_of_filter_bool {A} (f : A -> bool) (l : list A) x :
  x ∈ filter f l <-> f x = true /\ x ∈ l.
Proof. rewrite list_elem_of_filter. by rewrite Is_true_true. Qed.

(** A DELETE removes the rows its WHERE clause selects, and no other. *)
Lemma length_filter_negb {A} (f : A -> bool) (l : list A) :
  length l = length (filter f l) + length (filter (fun x => negb (f x)) l).
Proof.
  induction l as [|x l IH]; [done|]. rewrite !filter_cons.
  destruct (f x) eqn:E; simpl; repeat case_decide; simpl in *; try rewrite E in *; simpl in *;
    try done; lia.
Qed.

(** A prefix ([LIMIT]) of a strongly sorted list is strongly sorted. *)
Lemma StronglySorted_take {A} (R : relation A) n (l : list A) :
  StronglySorted R l -> StronglySorted R (take n l).
Proof.
  revert n. induction l as [|x l IH]; intros [|n] Hs; simpl; [constructor..|].
  apply StronglySorted_inv in Hs as [Hs Hall]. constructor; [by apply IH|].
  apply Forall_take. done.
Qed.

(** [ORDER BY key DESC LIMIT n] returns the [n] rows with the largest
    keys: its rows are rows of [l], in descending order, as many as the
    limit allows, and no row left out is newer than a row returned. *)
Lemma top_k_spec {A} (key : A -> Z) (n : nat) (l : list A) :
  let r := take n (order_desc key l) in
  (forall x, x ∈ r -> x ∈ l)
  /\ StronglySorted (key_ge key) r
  /\ length r = min n (length l)
  /\ (forall x y, x ∈ l -> x ∉ r -> y ∈ r -> (key x <= key y)%Z).
Proof.
  simpl. pose proof (order_desc_sorted key l) as Hs.
  rewrite <- (take_drop n (order_desc key l)) in Hs.
  split_and!.
  - intros x Hx. apply elem_of_take in Hx as [i [Hi _]].
    apply (elem_of_order_desc key). apply list_elem_of_lookup. eauto.
  - by eapply StronglySorted_app_1_l.
  - by rewrite length_take, length_order_desc.
  - intros x y Hx Hnx Hy.
    rewrite <- (elem_of_order_desc key), <- (take_drop n (order_desc key l)) in Hx.
    apply elem_of_app in Hx as [Hx|Hx]; [done|].
    exact (StronglySorted_app_1_elem_of _ _ _ _ _ Hs Hy Hx).
Qed.

Create HintDb pulse.
Create Rewrite HintDb pulse_rw.
#[export] Hint Resolve read_only_ret read_only_bind read_only_mapM : pulse.
#[export] Hint Rewrite @op_bind_ret : pulse_rw.

(** Unfold one monadic step whose first operation is a known [Op]. *)
Ltac op_step :=
  unfold op_bind, op_ret, op_get, op_put, op_throw, answer, final; simpl.
