(* ===== verification/Schema.v ===== *)
(** * Schema: the four tables of [src/drizzle/schema.ts]

    One Module per table: the row as a Record with the columns of the
    table (same names, same nullability), the insert Record (the
    [$inferInsert] type: columns with a default are optional), the
    defaults of the table, and the column checks MySQL applies to a
    write in strict mode.  Timestamps are milliseconds since the epoch;
    a [timestamp] column stores whole seconds. *)

From S2P Require Import Prelude.
From Stdlib Require Import Ascii.

(** ** Column types *)

(** A [varchar(n)] column rejects a longer string. *)
Definition fits_varchar (n : nat) (s : string) : bool := String.length s <=? n.

(** A [text] column holds at most 65535 bytes; the model's strings are
    ASCII, one byte per character. *)
Definition fits_text (s : string) : bool := (Z.of_nat (String.length s) <=? 65535)%Z.

(** A [timestamp] column holds 1970-01-01 00:00:01 to 2038-01-19
    03:14:07 UTC, that is whole seconds in [1, 2^31 - 1]. *)
Definition TIMESTAMP_MAX_S : Z := 2147483647%Z.

(** A JavaScript [Date] written to a [timestamp] column is rounded to
    the nearest second (MySQL rounds fractional seconds, half up). *)
Definition ts_round (ms : Z) : Z := ((ms + 500) / 1000 * 1000)%Z.

(** MySQL's [now()], the value of [defaultNow()]: the current second. *)
Definition ts_now (ms : Z) : Z := (ms / 1000 * 1000)%Z.

Definition in_timestamp (ms : Z) : bool :=
  (1 <=? ms / 1000)%Z && (ms / 1000 <=? TIMESTAMP_MAX_S)%Z.

Definition opt_ok {A} (p : A -> bool) (o : option A) : bool :=
  match o with Some a => p a | None => true end.

(** ** Strings written to a [decimal(5,2)] column *)

(** MySQL reads a string as a number: optional spaces, an optional sign,
    digits with an optional fraction, an optional exponent, optional
    spaces.  Anything else, or no digit at all, is an incorrect decimal
    value, which strict mode rejects.  The number is [m * 10 ^ k]. *)
Definition is_digit (c : Ascii.ascii) : bool :=
  (48 <=? Ascii.nat_of_ascii c) && (Ascii.nat_of_ascii c <=? 57).

Fixpoint take_digits (l : list Ascii.ascii) : list Ascii.ascii * list Ascii.ascii :=
  match l with
  | c :: r => if is_digit c then let '(d, rest) := take_digits r in (c :: d, rest) else ([], l)
  | [] => ([], [])
  end.

Definition digits_value (ds : list Ascii.ascii) : Z :=
  fold_left (fun acc c => acc * 10 + Z.of_nat (Ascii.nat_of_ascii c - 48))%Z ds 0%Z.

Fixpoint skip_spaces (l : list Ascii.ascii) : list Ascii.ascii :=
  match l with
  | " "%char :: r => skip_spaces r
  | _ => l
  end.

Definition take_sign (l : list Ascii.ascii) : Z * list Ascii.ascii :=
  match l with
  | "-"%char :: r => (-1, r)%Z
  | "+"%char :: r => (1, r)%Z
  | _ => (1%Z, l)
  end.

Definition parse_decimal (s : string) : option (Z * Z) :=
  let '(sg, l1) := take_sign (skip_spaces (String.list_ascii_of_string s)) in
  let '(ip, l2) := take_digits l1 in
  let '(fp, l3) := match l2 with "."%char :: r => take_digits r | _ => ([], l2) end in
  if (length ip + length fp =? 0)%nat then None else
  let ex := match l3 with
            | c :: r => if Ascii.eqb c "e" || Ascii.eqb c "E" then
                          let '(esg, r1) := take_sign r in
                          let '(ed, r2) := take_digits r1 in
                          if (length ed =? 0)%nat then None else Some (esg * digits_value ed, r2)%Z
                        else Some (0%Z, l3)
            | [] => Some (0%Z, [])
            end in
  match ex with
  | Some (e, rest) =>
      if bool_decide (skip_spaces rest = []) then
        Some (sg * digits_value (ip ++ fp), e - Z.of_nat (length fp))%Z
      else None
  | None => None
  end.

(** [m * 10 ^ k] in hundredths, rounded half away from zero. *)
Definition to_hundredths (m k : Z) : Z :=
  if (0 <=? k + 2)%Z then (m * 10 ^ (k + 2))%Z
  else (Z.sgn m * ((2 * Z.abs m + 10 ^ (- (k + 2))) / (2 * 10 ^ (- (k + 2)))))%Z.

(** The value a [decimal(5,2)] column stores for a string, or the error
    strict mode raises. *)
Definition decimal_5_2 (s : string) : Result Z :=
  match parse_decimal s with
  | None => Throw "Incorrect decimal value"
  | Some (m, k) =>
      if (m =? 0)%Z then Ok 0%Z
      else if (4 <=? k)%Z then Throw "Out of range value"
      else let h := to_hundredths m k in
           if (Z.abs h <=? 99999)%Z then Ok h else Throw "Out of range value"
  end.

(** ** monitoring_targets *)
Module MonitoringTarget.
Record t := mk {
  id : Z;
  name : string;
  url : string;
  description : option string;
  method : string;
  checkInterval : Z;
  timeout : Z;
  expectedStatusCode : Z;
  isActive : Z;
  createdAt : Z;
  updatedAt : Z
}.

(** [InsertMonitoringTarget] as [createTarget] receives it. *)
Record insert := mkInsert {
  ins_name : string;
  ins_url : string;
  ins_description : option string;
  ins_method : option string;
  ins_checkInterval : option Z;
  ins_timeout : option Z;
  ins_expectedStatusCode : option Z;
  ins_isActive : option Z
}.

(** [Partial<InsertMonitoringTarget>]: [None] is an absent key. *)
Record patch := mkPatch {
  p_name : option string;
  p_url : option string;
  p_description : option string;
  p_method : option string;
  p_checkInterval : option Z;
  p_timeout : option Z;
  p_expectedStatusCode : option Z;
  p_isActive : option Z
}.

(** The row an insert creates: the defaults of schema.ts lines 11-18. *)
Definition of_insert (newId now : Z) (i : insert) : t := {|
  id := newId;
  name := ins_name i;
  url := ins_url i;
  description := ins_description i;
  method := default "GET" (ins_method i);
  checkInterval := default 300%Z (ins_checkInterval i);
  timeout := default 10%Z (ins_timeout i);
  expectedStatusCode := default 200%Z (ins_expectedStatusCode i);
  isActive := default 1%Z (ins_isActive i);
  createdAt := ts_now now;
  updatedAt := ts_now now
|}.

(** [SET] of the given columns; [updatedAt] is [ON UPDATE
    CURRENT_TIMESTAMP], which MySQL applies only when the row changes. *)
Definition apply_patch (p : patch) (r : t) : t := {|
  id := id r;
  name := default (name r) (p_name p);
  url := default (url r) (p_url p);
  description := match p_description p with Some d => Some d | None => description r end;
  method := default (method r) (p_method p);
  checkInterval := default (checkInterval r) (p_checkInterval p);
  timeout := default (timeout r) (p_timeout p);
  expectedStatusCode := default (expectedStatusCode r) (p_expectedStatusCode p);
  isActive := default (isActive r) (p_isActive p);
  createdAt := createdAt r;
  updatedAt := updatedAt r
|}.

Definition patch_empty (p : patch) : bool :=
  match p with
  | mkPatch None None None None None None None None => true
  | _ => false
  end.

(** The column checks of a write: varchar lengths and int range. *)
Definition valid (r : t) : bool :=
  fits_varchar 255 (name r) && fits_varchar 2048 (url r) && fits_varchar 10 (method r)
  && in_int32 (checkInterval r) && in_int32 (timeout r)
  && in_int32 (expectedStatusCode r) && in_int32 (isActive r)
  && opt_ok fits_text (description r).
End MonitoringTarget.

(** ** monitoring_checks *)
Module MonitoringCheck.
Record t := mk {
  id : Z;
  targetId : Z;
  statusCode : option Z;
  responseTime : option Z;
  isSuccess : Z;
  errorMessage : option string;
  checkedAt : Z
}.

(** [InsertMonitoringCheck] as [createCheck] receives it. *)
Record insert := mkInsert {
  ins_targetId : Z;
  ins_statusCode : option Z;
  ins_responseTime : option Z;
  ins_isSuccess : Z;
  ins_errorMessage : option string
}.

(** [checkedAt] takes its default, the database's [now()]. *)
Definition of_insert (newId now : Z) (i : insert) : t := {|
  id := newId;
  targetId := ins_targetId i;
  statusCode := ins_statusCode i;
  responseTime := ins_responseTime i;
  isSuccess := ins_isSuccess i;
  errorMessage := ins_errorMessage i;
  checkedAt := ts_now now
|}.

Definition valid (r : t) : bool :=
  in_int32 (targetId r) && opt_ok in_int32 (statusCode r)
  && opt_ok in_int32 (responseTime r) && in_int32 (isSuccess r)
  && opt_ok fits_text (errorMessage r).
End MonitoringCheck.

(** ** uptime_history *)
Module UptimeHistory.
(** [uptimePercentage] is a [decimal(5,2)]: it is kept as the integer
    number of hundredths, in [-99999, 99999]. *)
Record t := mk {
  id : Z;
  targetId : Z;
  period : string;
  timestamp : Z;
  totalChecks : Z;
  successfulChecks : Z;
  uptimePercentage : Z;
  averageResponseTime : option Z;
  createdAt : Z
}.

Record insert := mkInsert {
  ins_targetId : Z;
  ins_period : string;
  ins_timestamp : Z;
  ins_totalChecks : option Z;
  ins_successfulChecks : option Z;
  ins_uptimePercentage : option string;
  ins_averageResponseTime : option Z
}.

(** Defaults: counts 0, percentage "100.00"; [pct] is the percentage
    the column stores for the string given, if any. *)
Definition of_insert (newId now pct : Z) (i : insert) : t := {|
  id := newId;
  targetId := ins_targetId i;
  period := ins_period i;
  timestamp := ts_round (ins_timestamp i);
  totalChecks := default 0%Z (ins_totalChecks i);
  successfulChecks := default 0%Z (ins_successfulChecks i);
  uptimePercentage := pct;
  averageResponseTime := ins_averageResponseTime i;
  createdAt := ts_now now
|}.

Definition valid (r : t) : bool :=
  in_int32 (targetId r) && fits_varchar 20 (period r) && in_timestamp (timestamp r)
  && in_int32 (totalChecks r) && in_int32 (successfulChecks r)
  && (Z.abs (uptimePercentage r) <=? 99999)%Z && opt_ok in_int32 (averageResponseTime r).
End UptimeHistory.

(** ** incidents *)

(** [mysqlEnum("status", ["ongoing", "resolved"])]. *)
Inductive IncidentStatus := ongoing | resolved.

#[export] Instance IncidentStatus_eq_dec : EqDecision IncidentStatus.
Proof. solve_decision. Defined.

Module Incident.
Record t := mk {
  id : Z;
  targetId : Z;
  startTime : Z;
  endTime : option Z;
  status : IncidentStatus;
  reason : option string;
  createdAt : Z;
  updatedAt : Z
}.

Record insert := mkInsert {
  ins_targetId : Z;
  ins_startTime : Z;
  ins_reason : option string;
  ins_status : option IncidentStatus
}.

(** [Partial<InsertIncident>] as [updateIncident] receives it. *)
Record patch := mkPatch {
  p_status : option IncidentStatus;
  p_endTime : option Z
}.

(** Defaults: status "ongoing", no end time. *)
Definition of_insert (newId now : Z) (i : insert) : t := {|
  id := newId;
  targetId := ins_targetId i;
  startTime := ts_round (ins_startTime i);
  endTime := None;
  status := default ongoing (ins_status i);
  reason := ins_reason i;
  createdAt := ts_now now;
  updatedAt := ts_now now
|}.

Definition apply_patch (p : patch) (r : t) : t := {|
  id := id r;
  targetId := targetId r;
  startTime := startTime r;
  endTime := match p_endTime p with Some e => Some (ts_round e) | None => endTime r end;
  status := default (status r) (p_status p);
  reason := reason r;
  createdAt := createdAt r;
  updatedAt := updatedAt r
|}.

Definition valid (r : t) : bool :=
  in_int32 (targetId r) && in_timestamp (startTime r) && opt_ok in_timestamp (endTime r)
  && opt_ok fits_text (reason r).
End Incident.

(** Decidable equality of rows, used for [ON UPDATE CURRENT_TIMESTAMP]. *)
#[export] Instance MonitoringTarget_eq_dec : EqDecision MonitoringTarget.t.
Proof. solve_decision. Defined.
#[export] Instance Incident_eq_dec : EqDecision Incident.t.
Proof. solve_decision. Defined.


Example decimal_66_67 : decimal_5_2 "66.67" = Ok 6667%Z.
Proof. reflexivity. Qed.
Example decimal_round : decimal_5_2 " 66.666" = Ok 6667%Z.
Proof. reflexivity. Qed.
Example decimal_exp : decimal_5_2 "1e2" = Ok 10000%Z.
Proof. reflexivity. Qed.
Example decimal_bad : decimal_5_2 "abc" = Throw "Incorrect decimal value".
Proof. reflexivity. Qed.
Example decimal_range : decimal_5_2 "1000" = Throw "Out of range value".
Proof. reflexivity. Qed.
