(* ===== verification/Store.v ===== *)
(** * Store: the data layer of [src/server/db.ts]

    The server state holds what db.ts reads and writes: the environment
    variable [DATABASE_URL], whether the drizzle constructor accepts it,
    the cached handle [_db], the clock behind [Date.now()], and the
    database (four tables in insertion order, each with its
    auto-increment counter).  Every exported function of db.ts is an
    [Op Server _] composed as in the code: [getDb], then the early
    return (reads) or the throw (writes) when there is no handle, then
    the query or the write. *)

From S2P Require Import Prelude Schema.

(** ** State *)

Record Db := mkDb {
  targets : list MonitoringTarget.t;
  checks : list MonitoringCheck.t;
  uptime : list UptimeHistory.t;
  incidents : list Incident.t;
  next_target_id : Z;
  next_check_id : Z;
  next_uptime_id : Z;
  next_incident_id : Z
}.

Record Server := mkServer {
  database_url : option string;  (** [process.env.DATABASE_URL] *)
  connect_ok : bool;             (** [drizzle(DATABASE_URL)] does not throw *)
  _db : bool;                    (** the module-level handle is set *)
  clock : Z;                     (** [Date.now()], in milliseconds *)
  db : Db
}.

Definition set_handle (s : Server) (h : bool) : Server :=
  mkServer (database_url s) (connect_ok s) h (clock s) (db s).

Definition set_db (s : Server) (d : Db) : Server :=
  mkServer (database_url s) (connect_ok s) (_db s) (clock s) d.

Definition empty_db : Db := mkDb [] [] [] [] 1 1 1 1.

(** What MySQL answers to an INSERT, UPDATE or DELETE. *)
Record ResultSetHeader := mkHeader { affectedRows : Z; insertId : Z }.

(** ** The handle: [getDb] (db.ts lines 17-27) *)

(** The handle is created once, when [DATABASE_URL] is a non-empty
    string; a constructor that throws leaves it unset, so the next call
    tries again. *)
Definition getDb : Op Server bool := fun s =>
  if _db s then (Ok true, s) else
  match database_url s with
  | Some u =>
      if String.eqb u "" then (Ok false, s)
      else if connect_ok s then (Ok true, set_handle s true) else (Ok false, s)
  | None => (Ok false, s)
  end.

(** [const db = await getDb(); if (!db) <absent>; <k>]. *)
Definition with_db {A} (absent : Op Server A) (k : Op Server A) : Op Server A :=
  h <- getDb ;; if h then k else absent.

Definition not_available {A} : Op Server A := op_throw "Database not available".

Definition read_db : Op Server Db := fun s => (Ok (db s), s).
Definition write_db (d : Db) : Op Server unit := fun s => (Ok tt, set_db s d).
Definition now : Op Server Z := fun s => (Ok (clock s), s).

(** ** Generic statements *)

(** [INSERT]: the row takes the counter as its id; the counter must
    still fit the [int] id column, and the row must pass the checks of
    its columns. *)
Definition insert_row {R} (valid : R -> bool) (next : Z) (rows : list R) (row : R)
  : Result (list R * Z) :=
  if negb (next <=? INT_MAX)%Z then Throw "Failed to read auto-increment value from storage engine"
  else if valid row then Ok (rows ++ [row], (next + 1)%Z)
  else Throw "Data too long or out of range value".

(** [UPDATE ... WHERE]: the matching rows are rewritten; the statement
    fails as a whole when one rewritten row fails its checks. *)
Definition update_rows {R} (valid : R -> bool) (sel : R -> bool) (f : R -> R) (rows : list R)
  : Result (list R * Z) :=
  let rows' := map (fun r => if sel r then f r else r) rows in
  if forallb (fun r => negb (sel r) || valid (f r)) rows
  then Ok (rows', Z.of_nat (length (filter sel rows)))
  else Throw "Data too long or out of range value".

(** [LIMIT n]: a negative limit is refused by MySQL. *)
Definition limit_rows {R} (n : Z) (rows : list R) : Result (list R) :=
  if (n <? 0)%Z then Throw "Incorrect arguments to LIMIT" else Ok (take (Z.to_nat n) rows).

Definition lift {A} (r : Result A) : Op Server A := fun s => (r, s).

(** ** monitoring_targets (db.ts lines 32-62) *)

Definition getAllTargets : Op Server (list MonitoringTarget.t) :=
  with_db (op_ret [])
    (d <- read_db ;;
     op_ret (filter (fun t => MonitoringTarget.isActive t =? 1)%Z (targets d))).

Definition getTargetById (tid : Z) : Op Server (option MonitoringTarget.t) :=
  with_db (op_ret None)
    (d <- read_db ;;
     result <- lift (limit_rows 1 (filter (fun t => MonitoringTarget.id t =? tid)%Z (targets d))) ;;
     op_ret (head result)).

Definition createTarget (i : MonitoringTarget.insert) : Op Server ResultSetHeader :=
  with_db not_available
    (d <- read_db ;; t <- now ;;
     let newId := next_target_id d in
     ins <- lift (insert_row MonitoringTarget.valid newId (targets d)
                              (MonitoringTarget.of_insert newId t i)) ;;
     let '(rows, next) := ins in
     write_db (mkDb rows (checks d) (uptime d) (incidents d)
                 next (next_check_id d) (next_uptime_id d) (next_incident_id d)) ;;;
     op_ret (mkHeader 1 newId)).

(** [ON UPDATE CURRENT_TIMESTAMP]: [updatedAt] moves only when a column
    changes. *)
Definition touch_target (t : Z) (p : MonitoringTarget.patch) (r : MonitoringTarget.t)
  : MonitoringTarget.t :=
  let r' := MonitoringTarget.apply_patch p r in
  if decide (r' = r) then r
  else MonitoringTarget.mk (MonitoringTarget.id r') (MonitoringTarget.name r')
         (MonitoringTarget.url r') (MonitoringTarget.description r')
         (MonitoringTarget.method r') (MonitoringTarget.checkInterval r')
         (MonitoringTarget.timeout r') (MonitoringTarget.expectedStatusCode r')
         (MonitoringTarget.isActive r') (MonitoringTarget.createdAt r') (ts_now t).

(** drizzle's [set] throws on an object with no defined value. *)
Definition updateTarget (tid : Z) (p : MonitoringTarget.patch) : Op Server ResultSetHeader :=
  with_db not_available
    (if MonitoringTarget.patch_empty p then op_throw "No values to set" else
     d <- read_db ;; t <- now ;;
     upd <- lift (update_rows MonitoringTarget.valid
                           (fun r => MonitoringTarget.id r =? tid)%Z (touch_target t p) (targets d)) ;;
     let '(rows, n) := upd in
     write_db (mkDb rows (checks d) (uptime d) (incidents d) (next_target_id d)
                 (next_check_id d) (next_uptime_id d) (next_incident_id d)) ;;;
     op_ret (mkHeader n 0)).

Definition deleteTarget (tid : Z) : Op Server ResultSetHeader :=
  with_db not_available
    (d <- read_db ;;
     let keep := filter (fun r => negb (MonitoringTarget.id r =? tid)%Z) (targets d) in
     write_db (mkDb keep (checks d) (uptime d) (incidents d) (next_target_id d)
                 (next_check_id d) (next_uptime_id d) (next_incident_id d)) ;;;
     op_ret (mkHeader (Z.of_nat (length (targets d) - length keep)) 0)).

(** ** Dates *)

(** [new Date(ms)] is a valid date when [|ms| <= 8.64e15]; drizzle
    serialises a query parameter with [toISOString], which throws on an
    invalid date. *)
Definition MAX_DATE_MS : Z := 8640000000000000%Z.

Definition js_date (ms : Z) : Result Z :=
  if (Z.abs ms <=? MAX_DATE_MS)%Z then Ok ms else Throw "Invalid time value".

(** ** monitoring_checks (db.ts lines 67-96) *)

Definition checks_of (targetId : Z) (cs : list MonitoringCheck.t) : list MonitoringCheck.t :=
  filter (fun c => MonitoringCheck.targetId c =? targetId)%Z cs.

Definition createCheck (i : MonitoringCheck.insert) : Op Server ResultSetHeader :=
  with_db not_available
    (d <- read_db ;; t <- now ;;
     let newId := next_check_id d in
     ins <- lift (insert_row MonitoringCheck.valid newId (checks d)
                   (MonitoringCheck.of_insert newId t i)) ;;
     let '(rows, next) := ins in
     write_db (mkDb (targets d) rows (uptime d) (incidents d)
                 (next_target_id d) next (next_uptime_id d) (next_incident_id d)) ;;;
     op_ret (mkHeader 1 newId)).

Definition getChecksByTargetId (targetId limit : Z) : Op Server (list MonitoringCheck.t) :=
  with_db (op_ret [])
    (d <- read_db ;;
     lift (limit_rows limit (order_desc MonitoringCheck.checkedAt (checks_of targetId (checks d))))).

(** [since = new Date(Date.now() - hoursBack * 60 * 60 * 1000)]. *)
Definition hours_ago (t hoursBack : Z) : Z := (t - hoursBack * 60 * 60 * 1000)%Z.

Definition checks_since (targetId since : Z) (cs : list MonitoringCheck.t)
  : list MonitoringCheck.t :=
  filter (fun c => since <=? MonitoringCheck.checkedAt c)%Z (checks_of targetId cs).

Definition getRecentChecksByTargetId (targetId hoursBack : Z)
  : Op Server (list MonitoringCheck.t) :=
  with_db (op_ret [])
    (t <- now ;;
     since <- lift (js_date (hours_ago t hoursBack)) ;;
     d <- read_db ;;
     op_ret (order_desc MonitoringCheck.checkedAt (checks_since targetId since (checks d)))).

(** ** uptime_history (db.ts lines 101-120) *)

(** The [decimal(5,2)] column converts the percentage string. *)
Definition createUptimeRecord (i : UptimeHistory.insert) : Op Server ResultSetHeader :=
  with_db not_available
    (d <- read_db ;; t <- now ;;
     pct <- lift (match UptimeHistory.ins_uptimePercentage i with
                  | Some str => decimal_5_2 str
                  | None => Ok 10000%Z
                  end) ;;
     let newId := next_uptime_id d in
     ins <- lift (insert_row UptimeHistory.valid newId (uptime d)
                   (UptimeHistory.of_insert newId t pct i)) ;;
     let '(rows, next) := ins in
     write_db (mkDb (targets d) (checks d) rows (incidents d)
                 (next_target_id d) (next_check_id d) next (next_incident_id d)) ;;;
     op_ret (mkHeader 1 newId)).

(** [since = new Date(Date.now() - daysBack * 24 * 60 * 60 * 1000)]. *)
Definition days_ago (t daysBack : Z) : Z := (t - daysBack * 24 * 60 * 60 * 1000)%Z.

Definition getUptimeHistoryByTargetId (targetId : Z) (period : string) (daysBack : Z)
  : Op Server (list UptimeHistory.t) :=
  with_db (op_ret [])
    (t <- now ;;
     since <- lift (js_date (days_ago t daysBack)) ;;
     d <- read_db ;;
     op_ret (order_desc UptimeHistory.timestamp
               (filter (fun h => (UptimeHistory.targetId h =? targetId)%Z
                                 && String.eqb (UptimeHistory.period h) period
                                 && (since <=? UptimeHistory.timestamp h)%Z) (uptime d)))).

(** ** incidents (db.ts lines 125-146) *)

Definition createIncident (i : Incident.insert) : Op Server ResultSetHeader :=
  with_db not_available
    (d <- read_db ;; t <- now ;;
     _ <- lift (js_date (Incident.ins_startTime i)) ;;
     let newId := next_incident_id d in
     ins <- lift (insert_row Incident.valid newId (incidents d)
                   (Incident.of_insert newId t i)) ;;
     let '(rows, next) := ins in
     write_db (mkDb (targets d) (checks d) (uptime d) rows
                 (next_target_id d) (next_check_id d) (next_uptime_id d) next) ;;;
     op_ret (mkHeader 1 newId)).

Definition incidents_of (targetId : Z) (rows : list Incident.t) : list Incident.t :=
  filter (fun r => Incident.targetId r =? targetId)%Z rows.

Definition getIncidentsByTargetId (targetId limit : Z) : Op Server (list Incident.t) :=
  with_db (op_ret [])
    (d <- read_db ;;
     lift (limit_rows limit (order_desc Incident.startTime (incidents_of targetId (incidents d))))).

Definition touch_incident (t : Z) (p : Incident.patch) (r : Incident.t) : Incident.t :=
  let r' := Incident.apply_patch p r in
  if decide (r' = r) then r
  else Incident.mk (Incident.id r') (Incident.targetId r') (Incident.startTime r')
         (Incident.endTime r') (Incident.status r') (Incident.reason r')
         (Incident.createdAt r') (ts_now t).

Definition incident_patch_empty (p : Incident.patch) : bool :=
  match p with Incident.mkPatch None None => true | _ => false end.

Definition updateIncident (iid : Z) (p : Incident.patch) : Op Server ResultSetHeader :=
  with_db not_available
    (if incident_patch_empty p then op_throw "No values to set" else
     _ <- lift (match Incident.p_endTime p with Some e => js_date e | None => Ok 0%Z end) ;;
     d <- read_db ;; t <- now ;;
     upd <- lift (update_rows Incident.valid (fun r => Incident.id r =? iid)%Z
                   (touch_incident t p) (incidents d)) ;;
     let '(rows, n) := upd in
     write_db (mkDb (targets d) (checks d) (uptime d) rows (next_target_id d)
                 (next_check_id d) (next_uptime_id d) (next_incident_id d)) ;;;
     op_ret (mkHeader n 0)).

(** ** The handle, as a function of the state *)

(** Whether [getDb] hands out a handle in state [s]. *)
Definition db_available (s : Server) : bool :=
  _db s || match database_url s with
           | Some u => negb (String.eqb u "") && connect_ok s
           | None => false
           end.

(** ** Well-formed tables *)

(** A table is well formed when its ids are distinct, positive and below
    its auto-increment counter, and every row passes its column checks. *)
Definition table_wf {R} (id : R -> Z) (valid : R -> bool) (rows : list R) (next : Z) : Prop :=
  NoDup (map id rows) /\ Forall (fun r => (1 <= id r < next)%Z /\ valid r = true) rows
  /\ (1 <= next)%Z.

Definition Db_wf (d : Db) : Prop :=
  table_wf MonitoringTarget.id MonitoringTarget.valid (targets d) (next_target_id d)
  /\ table_wf MonitoringCheck.id MonitoringCheck.valid (checks d) (next_check_id d)
  /\ table_wf UptimeHistory.id UptimeHistory.valid (uptime d) (next_uptime_id d)
  /\ table_wf Incident.id Incident.valid (incidents d) (next_incident_id d).

(** ** The store as a state machine *)

(** The calls of db.ts that write. *)
Inductive StoreCall :=
| CreateTarget (i : MonitoringTarget.insert)
| UpdateTarget (tid : Z) (p : MonitoringTarget.patch)
| DeleteTarget (tid : Z)
| CreateCheck (i : MonitoringCheck.insert)
| CreateUptimeRecord (i : UptimeHistory.insert)
| CreateIncident (i : Incident.insert)
| UpdateIncident (iid : Z) (p : Incident.patch).

Definition run_call (c : StoreCall) : Op Server ResultSetHeader :=
  match c with
  | CreateTarget i => createTarget i
  | UpdateTarget tid p => updateTarget tid p
  | DeleteTarget tid => deleteTarget tid
  | CreateCheck i => createCheck i
  | CreateUptimeRecord i => createUptimeRecord i
  | CreateIncident i => createIncident i
  | UpdateIncident iid p => updateIncident iid p
  end.

Definition set_clock (s : Server) (t : Z) : Server :=
  mkServer (database_url s) (connect_ok s) (_db s) t (db s).

(** One step of the server: a write call (which may throw), or time
    passing. *)
Inductive store_step : Server -> Server -> Prop :=
| step_call c s : store_step s (final (run_call c) s)
| step_tick s dt : (0 <= dt)%Z -> store_step s (set_clock s (clock s + dt)).

(** ** A concrete server, for the witnesses *)

(** 2023-11-14 22:13:20 UTC. *)
Definition T0 : Z := 1700000000000%Z.

Definition demo_check (cid tid : Z) (ok : bool) (rt : option Z) (at_ : Z) : MonitoringCheck.t :=
  MonitoringCheck.mk cid tid (if ok then Some 200%Z else None) rt (if ok then 1 else 0)%Z
    (if ok then None else Some "timeout") at_.

(** Target 1 with the three probes of the specification's example:
    success in 120 ms, a timeout, success in 95 ms, five minutes apart. *)
Definition demo_db : Db :=
  mkDb [MonitoringTarget.mk 1 "api" "https://example.com" None "GET" 300 10 200 1 T0 T0]
       [demo_check 1 1 true (Some 120%Z) T0; demo_check 2 1 false None (T0 + 300000);
        demo_check 3 1 true (Some 95%Z) (T0 + 600000)]
       [] [] 2 4 1 1.

Definition demo_server : Server :=
  mkServer (Some "mysql://localhost/pulse") true false (T0 + 900000) demo_db.

(** The same data with no DATABASE_URL in the environment. *)
Definition offline_server : Server := mkServer None true false (T0 + 900000) demo_db.

Definition demo_target_insert : MonitoringTarget.insert :=
  MonitoringTarget.mkInsert "web" "https://example.org" None (Some "GET") (Some 300%Z)
    (Some 10%Z) (Some 200%Z) None.
Definition demo_check_insert : MonitoringCheck.insert :=
  MonitoringCheck.mkInsert 1 (Some 200%Z) (Some 80%Z) 1 None.
Definition demo_history_insert : UptimeHistory.insert :=
  UptimeHistory.mkInsert 1 "daily" T0 (Some 3%Z) (Some 2%Z) (Some "66.67") (Some 107%Z).
Definition demo_incident_insert : Incident.insert :=
  Incident.mkInsert 1 (T0 + 300000) (Some "timeout") (Some ongoing).
Definition resolve_patch (t : Z) : Incident.patch := Incident.mkPatch (Some resolved) (Some t).

(** ** Lemmas: the handle *)

Lemma getDb_spec s : getDb s = (Ok (db_available s), set_handle s (db_available s)).
Proof.
  destruct s as [url ok h c d]; unfold getDb, db_available, set_handle; simpl.
  destruct h; [done|]. destruct url as [u|]; [|done].
  destruct (String.eqb u ""), ok; done.
Qed.

Lemma with_db_spec {A} (absent k : Op Server A) s :
  with_db absent k s =
  if db_available s then k (set_handle s true) else absent s.
Proof.
  unfold with_db. erewrite op_bind_ok by apply getDb_spec.
  destruct (db_available s) eqn:E; [done|].
  destruct s; unfold db_available in E; simpl in *.
  apply orb_false_iff in E as [-> _]. done.
Qed.

Lemma set_handle_db s h : db (set_handle s h) = db s.
Proof. reflexivity. Qed.

Lemma set_handle_clock s h : clock (set_handle s h) = clock s.
Proof. reflexivity. Qed.

#[export] Hint Rewrite @with_db_spec set_handle_db set_handle_clock : pulse_rw.

(** Unfold a db.ts function down to its query, in a state with a handle. *)
Ltac run_db :=
  unfold answer, final in *;
  repeat (rewrite ?with_db_spec, ?set_handle_db, ?set_handle_clock in * );
  repeat match goal with H : db_available ?s = true |- _ => rewrite H in * end;
  unfold read_db, now, lift, write_db, op_bind, op_ret, op_throw, answer, final in *;
  simpl in *.

Section TableLemmas.
Context {R : Type} (id : R -> Z) (valid : R -> bool).

Lemma insert_row_wf rows next row rows' next' :
  table_wf id valid rows next -> id row = next ->
  insert_row valid next rows row = Ok (rows', next') ->
  table_wf id valid rows' next'.
Proof.
  intros (Hnd & Hall & Hn) Hid. unfold insert_row.
  destruct (next <=? INT_MAX)%Z; simpl; [|done].
  destruct (valid row) eqn:Hv; [|done]. intros [= <- <-].
  split_and!.
  - rewrite map_app. apply NoDup_app. split_and!; [done| |apply NoDup_singleton].
    intros x Hx. apply list_elem_of_In, in_map_iff in Hx as [r [<- Hr]].
    rewrite Forall_forall in Hall. destruct (Hall r (proj2 (list_elem_of_In _ _) Hr)) as [? _].
    simpl. rewrite list_elem_of_singleton. lia.
  - apply Forall_app. split; [|constructor; [split; [lia|done]|constructor]].
    eapply Forall_impl; [done|]. intros r [? ?]. split; [lia|done].
  - lia.
Qed.

Lemma update_rows_wf sel f rows next rows' n :
  (forall r, id (f r) = id r) -> table_wf id valid rows next ->
  update_rows valid sel f rows = Ok (rows', n) -> table_wf id valid rows' next.
Proof.
  intros Hf (Hnd & Hall & Hn). unfold update_rows.
  destruct (forallb _ rows) eqn:Hok; [|done]. intros [= <- _].
  rewrite forallb_forall in Hok.
  assert (Hmap : map id (map (fun r => if sel r then f r else r) rows) = map id rows).
  { rewrite map_map. apply map_ext. intros r. by destruct (sel r). }
  split_and!; [by rewrite Hmap| |done].
  rewrite Forall_map. rewrite Forall_forall in Hall |- *. intros r Hr.
  destruct (Hall r Hr) as [Hb Hv]. specialize (Hok r (proj1 (list_elem_of_In _ _) Hr)).
  apply orb_true_iff in Hok.
  destruct (sel r); simpl in *; [rewrite Hf; destruct Hok as [?|?]|]; done.
Qed.

Lemma filter_wf (P : R -> bool) rows next :
  table_wf id valid rows next -> table_wf id valid (filter P rows) next.
Proof.
  intros (Hnd & Hall & Hn). split_and!; [| |done].
  2: { rewrite Forall_forall in Hall |- *. intros r Hr.
       apply list_elem_of_filter in Hr as [_ Hr]. by apply Hall. }
  induction rows as [|r rows IH]; [done|].
  simpl in Hnd. apply NoDup_cons in Hnd as [Hnin Hnd]. apply Forall_cons in Hall as [_ Hall].
  rewrite filter_cons. case_decide; [|by apply IH].
  simpl. apply NoDup_cons. split; [|by apply IH].
  intros Hin. apply Hnin. apply list_elem_of_In, in_map_iff in Hin as [x [Hx Hin]].
  apply list_elem_of_In, in_map_iff. exists x. split; [done|].
  apply list_elem_of_In in Hin. apply list_elem_of_In.
  by apply list_elem_of_filter in Hin as [_ ?].
Qed.
End TableLemmas.

Lemma touch_target_id t p r : MonitoringTarget.id (touch_target t p r) = MonitoringTarget.id r.
Proof. unfold touch_target. by case_decide. Qed.

Lemma touch_incident_id t p r : Incident.id (touch_incident t p r) = Incident.id r.
Proof. unfold touch_incident. by case_decide. Qed.

Lemma Db_wf_empty : Db_wf empty_db.
Proof. unfold Db_wf, table_wf; simpl. split_and!; try constructor; lia. Qed.

(** Close a preservation goal for one table after the write is unfolded. *)
Ltac wf_table :=
  match goal with
  | H : insert_row _ _ _ _ = Ok (_, _) |- _ => eapply insert_row_wf; [ | | exact H]; [done|reflexivity]
  | H : update_rows _ _ _ _ = Ok (_, _) |- _ =>
      eapply update_rows_wf; [ | | exact H]; [intros; apply touch_target_id || apply touch_incident_id|done]
  | |- table_wf _ _ (filter _ _) _ => by apply filter_wf
  | _ => done
  end.

Lemma run_call_wf c s : Db_wf (db s) -> Db_wf (db (final (run_call c) s)).
Proof.
  intros Hwf. destruct c; simpl; unfold final, createTarget, updateTarget, deleteTarget,
    createCheck, createUptimeRecord, createIncident, updateIncident; rewrite with_db_spec.
  all: destruct (db_available s); [|done].
  all: run_db; repeat case_match; simplify_eq; simpl; try done.
  all: destruct Hwf as (W1 & W2 & W3 & W4); split_and!; cbn [targets checks uptime incidents next_target_id next_check_id next_uptime_id next_incident_id]; wf_table.
Qed.

(** In a well-formed table, selecting a row's id selects that row only. *)
(** A write of db.ts that throws leaves the tables and counters as they
    were: every statement checks before it writes. *)
Lemma run_call_throw_db c s e s' : run_call c s = (Throw e, s') -> db s' = db s.
Proof.
  destruct c; simpl; unfold createTarget, updateTarget, deleteTarget, createCheck,
    createUptimeRecord, createIncident, updateIncident; rewrite with_db_spec.
  all: destruct (db_available s) eqn:Ha; [|intros [= _ <-]; done].
  all: run_db; repeat case_match; simplify_eq; try done.
  all: intros [= _ <-]; apply set_handle_db.
Qed.

Lemma createIncident_ok i s h s' :
  createIncident i s = (Ok h, s') ->
  incidents (db s') = incidents (db s) ++ [Incident.of_insert (next_incident_id (db s)) (clock s) i]
  /\ insertId h = next_incident_id (db s).
Proof.
  unfold createIncident. rewrite with_db_spec.
  destruct (db_available s) eqn:Ha; [|unfold not_available, op_throw; congruence].
  run_db. intros Heq. unfold insert_row in *. repeat case_match; simplify_eq; done.
Qed.

Lemma updateIncident_ok j p s h s' :
  updateIncident j p s = (Ok h, s') ->
  incidents (db s') = map (fun r => if (Incident.id r =? j)%Z then touch_incident (clock s) p r else r)
                        (incidents (db s)).
Proof.
  unfold updateIncident. rewrite with_db_spec.
  destruct (db_available s) eqn:Ha; [|unfold not_available, op_throw; congruence].
  run_db. intros Heq. unfold update_rows in *. repeat case_match; simplify_eq; done.
Qed.

Lemma table_wf_select_id {R} (id : R -> Z) valid rows next r :
  table_wf id valid rows next -> r ∈ rows -> filter (fun x => id x =? id r)%Z rows = [r].
Proof.
  intros [Hnd [Hall _]] Hr. clear Hall. induction rows as [|x rest IH]; [by apply not_elem_of_nil in Hr|].
  simpl in Hnd. apply NoDup_cons in Hnd as [Hx Hnd]. rewrite filter_cons.
  apply elem_of_cons in Hr as [->|Hr].
  - rewrite decide_True by (apply Is_true_true, Z.eqb_refl). f_equal.
    destruct (filter _ rest) as [|y ys] eqn:E; [done|]. exfalso. apply Hx.
    assert (Hy : y ∈ filter (fun x0 => id x0 =? id x)%Z rest) by (rewrite E; left).
    apply elem_of_filter_bool in Hy as [Hy1 Hy2]. apply Z.eqb_eq in Hy1.
    apply list_elem_of_In, in_map_iff. exists y. split; [done|]. by apply list_elem_of_In.
  - rewrite decide_False; [by apply IH|]. rewrite Is_true_true, Z.eqb_eq. intros Heq.
    apply Hx. rewrite Heq. apply list_elem_of_In, in_map_iff. exists r. split; [done|].
    by apply list_elem_of_In.
Qed.

(** ** Properties of the store *)

Lemma store_step_wf s s' : store_step s s' -> Db_wf (db s) -> Db_wf (db s').
Proof. intros []; [apply run_call_wf | done]. Qed.

(** C12: every state reached from a well-formed database by
    writes (successful or not) and the passing of time has well-formed
    tables: ids unique, positive and below their counter, every row
    within the limits of its columns. *)
Theorem store_reachable_wf s s' :
  Db_wf (db s) -> rtc store_step s s' -> Db_wf (db s').
Proof. intros Hwf Hr. induction Hr; eauto using store_step_wf. Qed.

(** C29: without a database handle the read functions answer with
    no data and the write functions throw "Database not available";
    neither changes the state. *)
Theorem no_db_behaviour s tid limit hours days period i_t p_t i_c i_h i_i iid p_i :
  db_available s = false ->
  getAllTargets s = (Ok [], s) /\ getTargetById tid s = (Ok None, s)
  /\ getChecksByTargetId tid limit s = (Ok [], s)
  /\ getRecentChecksByTargetId tid hours s = (Ok [], s)
  /\ getUptimeHistoryByTargetId tid period days s = (Ok [], s)
  /\ getIncidentsByTargetId tid limit s = (Ok [], s)
  /\ createTarget i_t s = (Throw "Database not available", s)
  /\ updateTarget tid p_t s = (Throw "Database not available", s)
  /\ deleteTarget tid s = (Throw "Database not available", s)
  /\ createCheck i_c s = (Throw "Database not available", s)
  /\ createUptimeRecord i_h s = (Throw "Database not available", s)
  /\ createIncident i_i s = (Throw "Database not available", s)
  /\ updateIncident iid p_i s = (Throw "Database not available", s).
Proof.
  intros H. unfold getAllTargets, getTargetById, getChecksByTargetId, getRecentChecksByTargetId,
    getUptimeHistoryByTargetId, getIncidentsByTargetId, createTarget, updateTarget, deleteTarget,
    createCheck, createUptimeRecord, createIncident, updateIncident.
  rewrite !with_db_spec, H. done.
Qed.

(** C26: with a handle and a non-negative limit,
    [getChecksByTargetId] answers with the [limit] most recent checks of
    the target: rows of the check table for that target, newest first,
    [min limit n] of them for [n] checks of the target, and no check of
    the target left out is newer than one returned.  The database is
    unchanged. *)
Theorem getChecksByTargetId_spec s tid limit :
  db_available s = true -> (0 <= limit)%Z ->
  exists l, getChecksByTargetId tid limit s = (Ok l, set_handle s true)
  /\ (forall c, c ∈ l -> c ∈ checks (db s) /\ MonitoringCheck.targetId c = tid)
  /\ StronglySorted (key_ge MonitoringCheck.checkedAt) l
  /\ length l = min (Z.to_nat limit) (length (checks_of tid (checks (db s))))
  /\ (forall c c', c ∈ checks_of tid (checks (db s)) -> c ∉ l -> c' ∈ l ->
        (MonitoringCheck.checkedAt c <= MonitoringCheck.checkedAt c')%Z).
Proof.
  intros Ha Hl. unfold getChecksByTargetId, limit_rows. run_db.
  destruct (limit <? 0)%Z eqn:E; [lia|].
  destruct (top_k_spec MonitoringCheck.checkedAt (Z.to_nat limit) (checks_of tid (checks (db s))))
    as (Hin & Hsort & Hlen & Htop).
  eexists. split_and!; [reflexivity| |done|done|done].
  intros c Hc. apply Hin, elem_of_filter_bool in Hc as [Ht Hc]. split; [done|]. by apply Z.eqb_eq.
Qed.

(** In a well-formed table, the row with a given id is unique. *)
Lemma table_wf_unique {R} (id : R -> Z) valid rows next r r' :
  table_wf id valid rows next -> r ∈ rows -> r' ∈ rows -> id r = id r' -> r = r'.
Proof.
  intros [Hnd _] Hr Hr' Heq. apply list_elem_of_lookup in Hr as [i Hi], Hr' as [j Hj].
  assert (i = j) as ->.
  { eapply NoDup_lookup; [exact Hnd| |]; rewrite list_lookup_fmap; [rewrite Hi|rewrite Hj]; simpl;
      [reflexivity|by rewrite Heq]. }
  congruence.
Qed.

(** In a well-formed database with a handle,
    [getTargetById tid] answers with the target whose id is [tid] when
    there is one, and with [null] otherwise. *)
Theorem getTargetById_spec s tid :
  Db_wf (db s) -> db_available s = true ->
  exists o, getTargetById tid s = (Ok o, set_handle s true)
  /\ (forall r, o = Some r <-> r ∈ targets (db s) /\ MonitoringTarget.id r = tid).
Proof.
  intros [Hwf _] Ha. unfold getTargetById, limit_rows. run_db.
  eexists. split; [reflexivity|]. intros r.
  set (sel := filter _ (targets (db s))).
  assert (Hsel : forall x, x ∈ sel <-> x ∈ targets (db s) /\ MonitoringTarget.id x = tid).
  { intros x. unfold sel. rewrite elem_of_filter_bool, Z.eqb_eq. tauto. }
  destruct sel as [|x rest] eqn:E; simpl.
  - split; [done|]. intros Hr. apply Hsel in Hr. by apply not_elem_of_nil in Hr.
  - assert (Hx : x ∈ targets (db s) /\ MonitoringTarget.id x = tid) by (apply Hsel; left).
    split; [intros [= <-]; done|]. intros [Hr Hid]. f_equal.
    eapply table_wf_unique; [exact Hwf|apply Hx|exact Hr|]. lia.
Qed.

(** [createCheck] with a handle, a counter still in the
    [int] range and a row that passes its column checks appends exactly
    one row, whose id is the counter and whose [checkedAt] is the
    database's current second, and advances the counter; the other
    tables do not change. *)
Theorem createCheck_spec s i :
  db_available s = true -> (next_check_id (db s) <= INT_MAX)%Z ->
  MonitoringCheck.valid (MonitoringCheck.of_insert (next_check_id (db s)) (clock s) i) = true ->
  let row := MonitoringCheck.of_insert (next_check_id (db s)) (clock s) i in
  answer (createCheck i) s = Ok (mkHeader 1 (next_check_id (db s)))
  /\ checks (db (final (createCheck i) s)) = checks (db s) ++ [row]
  /\ next_check_id (db (final (createCheck i) s)) = (next_check_id (db s) + 1)%Z
  /\ MonitoringCheck.checkedAt row = ts_now (clock s)
  /\ targets (db (final (createCheck i) s)) = targets (db s)
  /\ incidents (db (final (createCheck i) s)) = incidents (db s).
Proof.
  intros Ha Hmax Hv. unfold createCheck, insert_row. run_db.
  rewrite (proj2 (Z.leb_le _ _) Hmax), Hv. simpl. done.
Qed.

(** C31: once the check counter has passed the largest [int],
    [createCheck] throws and the database is unchanged: ids never wrap
    around. *)
Theorem createCheck_exhausted s i :
  db_available s = true -> (INT_MAX < next_check_id (db s))%Z ->
  createCheck i s = (Throw "Failed to read auto-increment value from storage engine",
                     set_handle s true).
Proof.
  intros Ha Hmax. unfold createCheck, insert_row. run_db.
  destruct (next_check_id (db s) <=? INT_MAX)%Z eqn:E; [lia|]. done.
Qed.

(** C32: [deleteTarget] is a hard delete: with a handle,
    the rows with that id leave the target table and [affectedRows]
    counts them, while the checks, history rows and incidents that refer
    to the target stay. *)
Theorem deleteTarget_spec s tid :
  db_available s = true ->
  answer (deleteTarget tid) s
    = Ok (mkHeader (Z.of_nat (length (filter (fun r => MonitoringTarget.id r =? tid)%Z
                                               (targets (db s))))) 0)
  /\ (forall r, r ∈ targets (db (final (deleteTarget tid) s))
                <-> r ∈ targets (db s) /\ MonitoringTarget.id r <> tid)
  /\ checks (db (final (deleteTarget tid) s)) = checks (db s)
  /\ uptime (db (final (deleteTarget tid) s)) = uptime (db s)
  /\ incidents (db (final (deleteTarget tid) s)) = incidents (db s).
Proof.
  intros Ha. unfold deleteTarget. run_db. split_and!; try done.
  - do 3 f_equal. rewrite (length_filter_negb (fun r => MonitoringTarget.id r =? tid)%Z). lia.
  - intros r. rewrite elem_of_filter_bool, negb_true_iff, Z.eqb_neq. tauto.
Qed.

(** C34: [updateIncident] on an id that no incident has
    resolves normally with [affectedRows = 0] and leaves the database
    as it was; it reports no "not found" error. *)
Theorem updateIncident_missing s iid p :
  db_available s = true -> incident_patch_empty p = false ->
  (forall e, Incident.p_endTime p = Some e -> (Z.abs e <= MAX_DATE_MS)%Z) ->
  (forall r, r ∈ incidents (db s) -> Incident.id r <> iid) ->
  updateIncident iid p s = (Ok (mkHeader 0 0), set_handle s true).
Proof.
  intros Ha Hp He Hnone. unfold updateIncident, update_rows. run_db. rewrite Hp.
  assert (Hdate : exists z, match Incident.p_endTime p with Some e => js_date e | None => Ok 0%Z end = Ok z).
  { destruct (Incident.p_endTime p) as [e|]; [|by eexists]. unfold js_date.
    rewrite (proj2 (Z.leb_le _ _) (He e eq_refl)). by eexists. }
  destruct Hdate as [z ->].
  assert (Hsel : forall r, r ∈ incidents (db s) -> (Incident.id r =? iid)%Z = false).
  { intros r Hr. apply Z.eqb_neq. by apply Hnone. }
  rewrite (proj2 (forallb_forall _ _)).
  2: { intros r Hr. apply list_elem_of_In in Hr. by rewrite Hsel. }
  destruct (filter (fun r => (Incident.id r =? iid)%Z) (incidents (db s))) as [|x rest] eqn:Ef.
  2: { exfalso.
       assert (Hx : x ∈ filter (fun r => (Incident.id r =? iid)%Z) (incidents (db s)))
         by (rewrite Ef; left).
       apply elem_of_filter_bool in Hx as [Hx1 Hx2]. by rewrite Hsel in Hx1. }
  rewrite (map_ext_in _ (fun r => r)).
  2: { intros r Hr. apply list_elem_of_In in Hr. by rewrite Hsel. }
  rewrite !set_handle_db, Ef, map_id. by destruct s as [? ? ? ? []].
Qed.


(** ** Witnesses *)

Lemma demo_db_wf : Db_wf demo_db.
Proof.
  unfold Db_wf, table_wf; simpl.
  split_and!; apply (bool_decide_unpack _); vm_compute; exact I.
Qed.

Lemma store_reachable_wf_witness :
  Db_wf (db (final (createCheck demo_check_insert) demo_server)).
Proof.
  apply (store_reachable_wf demo_server).
  - exact demo_db_wf.
  - eapply rtc_l; [apply (step_call (CreateCheck demo_check_insert))|]. apply rtc_refl.
Defined.

Lemma no_db_behaviour_witness :
  getAllTargets offline_server = (Ok [], offline_server)
  /\ createCheck demo_check_insert offline_server
     = (Throw "Database not available", offline_server).
Proof.
  destruct (no_db_behaviour offline_server 1 10 24 30 "daily" demo_target_insert
              (MonitoringTarget.mkPatch None None None None None None None (Some 0%Z)) demo_check_insert
              demo_history_insert demo_incident_insert 1 (resolve_patch T0) eq_refl)
    as (H1 & _ & _ & _ & _ & _ & _ & _ & _ & H2 & _).
  split; [exact H1 | exact H2].
Defined.

Lemma getChecksByTargetId_spec_witness :
  exists l, getChecksByTargetId 1 2 demo_server = (Ok l, set_handle demo_server true)
  /\ length l = 2.
Proof.
  destruct (getChecksByTargetId_spec demo_server 1 2 eq_refl ltac:(lia))
    as (l & Hl & _ & _ & Hlen & _).
  exists l. split; [exact Hl|]. rewrite Hlen. reflexivity.
Defined.

Lemma getTargetById_spec_witness :
  exists o, getTargetById 1 demo_server = (Ok o, set_handle demo_server true) /\ is_Some o.
Proof.
  destruct (getTargetById_spec demo_server 1 demo_db_wf eq_refl) as (o & Ho & Hspec).
  exists o. split; [exact Ho|].
  destruct o as [r|]; [by eexists|]. exfalso.
  assert (Hx : @None MonitoringTarget.t
               = Some (MonitoringTarget.mk 1 "api" "https://example.com" None "GET" 300 10 200 1 T0 T0))
    by (apply Hspec; split; [left | reflexivity]).
  discriminate.
Defined.

Lemma createCheck_spec_witness :
  answer (createCheck demo_check_insert) demo_server = Ok (mkHeader 1 4).
Proof.
  apply (createCheck_spec demo_server demo_check_insert eq_refl); vm_compute; [intros ?; discriminate|reflexivity].
Defined.

Lemma createCheck_exhausted_witness :
  createCheck demo_check_insert (set_db demo_server (mkDb [] [] [] [] 1 (INT_MAX + 1) 1 1))
  = (Throw "Failed to read auto-increment value from storage engine",
     set_handle (set_db demo_server (mkDb [] [] [] [] 1 (INT_MAX + 1) 1 1)) true).
Proof. apply createCheck_exhausted; [reflexivity | simpl; lia]. Defined.

Lemma deleteTarget_spec_witness :
  answer (deleteTarget 1) demo_server = Ok (mkHeader 1 0)
  /\ checks (db (final (deleteTarget 1) demo_server)) = checks demo_db.
Proof.
  destruct (deleteTarget_spec demo_server 1 eq_refl) as (Ha & _ & Hc & _ & _).
  split; [exact Ha | exact Hc].
Defined.

Lemma updateIncident_missing_witness :
  updateIncident 7 (resolve_patch T0) demo_server = (Ok (mkHeader 0 0), set_handle demo_server true).
Proof.
  apply updateIncident_missing; [reflexivity|reflexivity| |].
  - intros e He. injection He as <-. unfold MAX_DATE_MS, T0. lia.
  - intros r Hr. simpl in Hr. by apply not_elem_of_nil in Hr.
Defined.
