(* ===== verification/Binary64.v ===== *)
(** * Binary64: the JavaScript number arithmetic of [calculateTargetUptime]

    A finite double is kept as its exact value [mant * 2 ^ expo].  Every
    arithmetic operation computes the exact result and rounds it to the
    nearest binary64 value, ties to even (IEEE 754, which ECMAScript
    prescribes for [+], [*] and [/]); subnormals are handled by clamping
    the exponent at -1074.  [toFixed(2)], [parseFloat] and [Math.round]
    follow their ECMAScript definitions on the exact value.  Infinities
    and NaN are not represented: the uptime code divides only by a
    positive count, and its sums stay below 2^62 (at most 2^31 rows of
    at most 2^31 milliseconds), far below the overflow threshold 2^1024. *)

From S2P Require Import Prelude.

Record double := D { mant : Z; expo : Z }.

(** The exact value of a double as a fraction [num / den], [den > 0]. *)
Definition dnum (x : double) : Z := (mant x * 2 ^ Z.max (expo x) 0)%Z.
Definition dden (x : double) : Z := (2 ^ Z.max (- expo x) 0)%Z.

(** [a / b] rounded to the nearest integer, ties to even ([b > 0]). *)
Definition rne_div (a b : Z) : Z :=
  let q := (a / b)%Z in
  let r := (a mod b)%Z in
  if (2 * r <? b)%Z then q
  else if (b <? 2 * r)%Z then (q + 1)%Z
  else if Z.even q then q else (q + 1)%Z.

(** [a / (b * 2 ^ k)] as a fraction with a positive denominator. *)
Definition scale_num (a k : Z) : Z := (a * 2 ^ Z.max (- k) 0)%Z.
Definition scale_den (b k : Z) : Z := (b * 2 ^ Z.max k 0)%Z.

(** The exponent of the binary64 nearest to [a / b] ([a, b > 0]): the
    [e] with [2^52 <= a / (b 2^e) < 2^53], or -1074 below the normal
    range. *)
Definition round_expo (a b : Z) : Z :=
  let e0 := (Z.log2 a - Z.log2 b - 52)%Z in
  let e1 := if (scale_num a e0 <? scale_den b e0 * 2 ^ 52)%Z then (e0 - 1)%Z else e0 in
  Z.max e1 (-1074).

(** The binary64 nearest to [a / b], [b > 0], ties to even. *)
Definition round_frac (a b : Z) : double :=
  if (a =? 0)%Z then D 0 0 else
  let e := round_expo (Z.abs a) b in
  D (Z.sgn a * rne_div (scale_num (Z.abs a) e) (scale_den b e)) e.

(** An integer as a double, as a MySQL [int] arrives in JavaScript. *)
Definition of_Z (z : Z) : double := round_frac z 1.

(** [x + y], [x * y] and [x / y] ([y] not zero). *)
Definition fadd (x y : double) : double :=
  round_frac (dnum x * dden y + dnum y * dden x) (dden x * dden y).
Definition fmul (x y : double) : double :=
  round_frac (dnum x * dnum y) (dden x * dden y).
Definition fdiv (x y : double) : double :=
  round_frac (Z.sgn (dnum y) * dnum x * dden y) (Z.abs (dnum y) * dden x).

(** [x.toFixed(2)]: the integer [n] with [n / 100] nearest to [x], the
    larger one on a tie, for [x >= 0]; a negative [x] prints as "-"
    followed by [(-x).toFixed(2)].  The result is the number of
    hundredths the string denotes. *)
Definition toFixed2 (x : double) : Z :=
  if (0 <=? dnum x)%Z then ((200 * dnum x + dden x) / (2 * dden x))%Z
  else (- ((200 * (- dnum x) + dden x) / (2 * dden x)))%Z.

(** [parseFloat] of the string with [n] hundredths. *)
Definition parseFloat_hundredths (n : Z) : double := round_frac n 100.

(** [Math.round(x)]: the integer nearest to [x], ties toward +infinity. *)
Definition math_round (x : double) : Z := ((2 * dnum x + dden x) / (2 * dden x))%Z.

(** Comparison of values. *)
Definition deqb (x y : double) : bool := (dnum x * dden y =? dnum y * dden x)%Z.
Definition dleb (x y : double) : bool := (dnum x * dden y <=? dnum y * dden x)%Z.

Example of_Z_third : toFixed2 (fmul (fdiv (of_Z 2) (of_Z 3)) (of_Z 100)) = 6667%Z.
Proof. reflexivity. Qed.

(** The double nearest to 0.1 is 0x3FB999999999999A. *)
Example round_tenth : round_frac 1 10 = D 7205759403792794 (-56).
Proof. reflexivity. Qed.

(** The classic [1.005.toFixed(2) = "1.00"]: 1.005 has no exact double. *)
Example toFixed_1005 : toFixed2 (round_frac 1005 1000) = 100%Z.
Proof. reflexivity. Qed.

(** ** Rounding error

    In the normal range, and for quotients below [2^52], [round_frac]
    returns [m * 2^-k] with [a 2^k / b] in [[2^52, 2^53)) and [m] within
    one half of it: the relative error is at most [2^-53].  Integers
    below [2^52] are exact.  From these, the percentage
    [calculateTargetUptime] prints is the exact one rounded half up,
    except at midpoints. *)

Section RoundingError.
Local Open Scope Z_scope.

Lemma rne_div_spec a b : (0 < b)%Z -> (Z.abs (rne_div a b * b - a) * 2 <= b)%Z.
Proof.
  intros Hb. unfold rne_div. pose proof (Z.div_mod a b ltac:(lia)) as Ha. pose proof (Z.mod_pos_bound a b Hb).
  set (q := (a / b)%Z) in *. set (r := (a mod b)%Z) in *.
  destruct (Z.ltb_spec (2 * r) b); [|destruct (Z.ltb_spec b (2 * r)); [|destruct (Z.even q)]]; lia.
Qed.

Lemma round_expo_spec a b :
  (0 < a)%Z -> (0 < b)%Z -> (a < 2 ^ 52 * b)%Z -> (b <= 2 ^ 1020 * a)%Z ->
  (round_expo a b <= 0)%Z /\ (2 ^ 52 * b <= a * 2 ^ (- round_expo a b) < 2 ^ 53 * b)%Z.
Proof.
  intros Ha Hb Hlo Hhi. unfold round_expo.
  pose proof (Z.log2_spec a Ha) as [Ha1 Ha2]. pose proof (Z.log2_spec b Hb) as [Hb1 Hb2].
  pose proof (Z.log2_nonneg a). pose proof (Z.log2_nonneg b).
  set (la := Z.log2 a) in *. set (lb := Z.log2 b) in *.
  rewrite Z.pow_succ_r in Ha2, Hb2 by lia.
  assert (Hla : (la < lb + 53)%Z).
  { apply (Z.pow_lt_mono_r_iff 2); [lia|lia|]. rewrite Z.pow_add_r by lia. lia. }
  assert (Hlb : (lb < la + 1021)%Z).
  { apply (Z.pow_lt_mono_r_iff 2); [lia|lia|]. rewrite Z.pow_add_r by lia. lia. }
  set (p := (lb + 52 - la)%Z).
  assert (Hp : (2 ^ la * 2 ^ p = 2 ^ lb * 2 ^ 52)%Z).
  { rewrite <- !Z.pow_add_r by lia. f_equal. lia. }
  assert (Hpp : (0 < 2 ^ p)%Z) by (apply Z.pow_pos_nonneg; lia).
  assert (HN1 : (2 ^ 51 * b < a * 2 ^ p)%Z) by nia.
  assert (HN2 : (a * 2 ^ p < 2 ^ 53 * b)%Z) by nia.
  unfold scale_num, scale_den.
  replace (Z.max (- (la - lb - 52)) 0) with p by lia.
  replace (Z.max (la - lb - 52) 0) with 0%Z by lia. rewrite Z.pow_0_r, Z.mul_1_r.
  destruct (Z.ltb_spec (a * 2 ^ p) (b * 2 ^ 52)).
  - rewrite Z.max_l by lia. split; [lia|].
    replace (- (la - lb - 52 - 1))%Z with (p + 1)%Z by lia. rewrite Z.pow_add_r by lia. lia.
  - rewrite Z.max_l by lia. split; [lia|]. replace (- (la - lb - 52))%Z with p by lia. lia.
Qed.

(** In the normal range, [round_frac a b] is [m * 2 ^ -k] with [a 2^k / b]
    in [[2^52, 2^53)) and [m] within one half of it. *)
Lemma round_frac_spec a b :
  (0 < a)%Z -> (0 < b)%Z -> (a < 2 ^ 52 * b)%Z -> (b <= 2 ^ 1020 * a)%Z ->
  exists m k, round_frac a b = D m (- k) /\ (0 <= k)%Z
    /\ (2 ^ 52 * b <= a * 2 ^ k < 2 ^ 53 * b)%Z /\ (Z.abs (m * b - a * 2 ^ k) * 2 <= b)%Z.
Proof.
  intros Ha Hb Hlo Hhi. destruct (round_expo_spec a b Ha Hb Hlo Hhi) as [He Hn].
  unfold round_frac. rewrite (proj2 (Z.eqb_neq a 0)) by lia. rewrite Z.abs_eq, Z.sgn_pos, Z.mul_1_l by lia.
  set (e := round_expo a b) in *. exists (rne_div (scale_num a e) (scale_den b e)), (- e).
  rewrite Z.opp_involutive. split_and!; [done|lia|lia|lia|].
  unfold scale_num, scale_den. rewrite (Z.max_l (- e)), (Z.max_r e 0), Z.pow_0_r, Z.mul_1_r by lia.
  apply rne_div_spec. lia.
Qed.

Lemma dnum_D m k : (0 <= k)%Z -> dnum (D m (- k)) = m.
Proof. intros Hk. unfold dnum. cbn. rewrite Z.max_r, Z.pow_0_r by lia. lia. Qed.

Lemma dden_D m k : (0 <= k)%Z -> dden (D m (- k)) = (2 ^ k)%Z.
Proof. intros Hk. unfold dden. cbn. by rewrite Z.opp_involutive, Z.max_l by lia. Qed.

(** Integers below [2^52] are doubles. *)
Lemma of_Z_exact z : (0 < z < 2 ^ 52)%Z -> exists k, (0 <= k)%Z /\ of_Z z = D (z * 2 ^ k) (- k).
Proof.
  intros Hz. destruct (round_frac_spec z 1 ltac:(lia) ltac:(lia) ltac:(lia) ltac:(lia))
    as (m & k & E & Hk & _ & Hm). exists k. split; [done|]. unfold of_Z. rewrite E. f_equal. lia.
Qed.

Lemma fdiv_of_Z_spec s n :
  0 < s <= n -> n < 2 ^ 31 ->
  exists m k, fdiv (of_Z s) (of_Z n) = D m (- k) /\ 0 <= k
    /\ 2 ^ 52 * n <= s * 2 ^ k < 2 ^ 53 * n /\ Z.abs (m * n - s * 2 ^ k) * 2 <= n.
Proof.
  intros Hs Hn. destruct (of_Z_exact s ltac:(lia)) as (ks & Hks & Es).
  destruct (of_Z_exact n ltac:(lia)) as (kn & Hkn & En).
  unfold fdiv. rewrite Es, En, !dnum_D, !dden_D by done.
  assert (Hc : 0 < 2 ^ ks * 2 ^ kn) by (apply Z.mul_pos_pos; apply Z.pow_pos_nonneg; lia).
  set (c := 2 ^ ks * 2 ^ kn) in *.
  assert (Hpn : 0 < 2 ^ kn) by (apply Z.pow_pos_nonneg; lia).
  rewrite Z.sgn_pos, Z.abs_eq by nia.
  replace (1 * (s * 2 ^ ks) * 2 ^ kn) with (s * c) by (unfold c; ring).
  replace (n * 2 ^ kn * 2 ^ ks) with (n * c) by (unfold c; ring).
  destruct (round_frac_spec (s * c) (n * c) ltac:(nia) ltac:(nia) ltac:(nia) ltac:(nia))
    as (m & k & E & Hk & [H1 H2] & H3).
  exists m, k. split_and!; [done|done|nia|nia|].
  replace (m * (n * c) - s * c * 2 ^ k) with ((m * n - s * 2 ^ k) * c) in H3 by ring.
  rewrite Z.abs_mul, (Z.abs_eq c) in H3 by lia. nia.
Qed.

Lemma fmul_100_spec m1 k1 :
  0 <= k1 -> 0 < m1 -> 100 * m1 < 2 ^ 52 * 2 ^ k1 -> 2 ^ k1 <= 2 ^ 1020 * (100 * m1) ->
  exists m k, fmul (D m1 (- k1)) (of_Z 100) = D m (- k) /\ 0 <= k
    /\ 2 ^ 52 * 2 ^ k1 <= 100 * m1 * 2 ^ k < 2 ^ 53 * 2 ^ k1
    /\ Z.abs (m * 2 ^ k1 - 100 * m1 * 2 ^ k) * 2 <= 2 ^ k1.
Proof.
  intros Hk1 Hm1 Hlo Hhi. destruct (of_Z_exact 100 ltac:(lia)) as (kh & Hkh & Eh).
  unfold fmul. rewrite Eh, !dnum_D, !dden_D by done.
  assert (Hc : 0 < 2 ^ kh) by (apply Z.pow_pos_nonneg; lia).
  set (c := 2 ^ kh) in *. set (K1 := 2 ^ k1) in *.
  replace (m1 * (100 * c)) with (100 * m1 * c) by ring.
  destruct (round_frac_spec (100 * m1 * c) (K1 * c) ltac:(nia) ltac:(nia) ltac:(nia) ltac:(nia))
    as (m & k & E & Hk & [H1 H2] & H3).
  exists m, k. split_and!; [done|done|nia|nia|].
  replace (m * (K1 * c) - 100 * m1 * c * 2 ^ k) with ((m * K1 - 100 * m1 * 2 ^ k) * c) in H3 by ring.
  rewrite Z.abs_mul, (Z.abs_eq c) in H3 by lia. nia.
Qed.

(** The two rounding errors, scaled to the common denominator, stay
    below one unit of it. *)
Lemma scaled_error n K1 K2 e1 e2 :
  1 <= n < 2 ^ 31 -> 2 ^ 52 <= K1 -> 2 ^ 44 <= K2 ->
  Z.abs e1 * 2 <= n -> Z.abs e2 * 2 <= K1 ->
  Z.abs (200 * n * e2 + 20000 * K2 * e1) < K1 * K2.
Proof.
  intros Hn HK1 HK2 H1 H2.
  assert (A : Z.abs (200 * n * e2) <= 100 * n * K1).
  { rewrite Z.abs_mul, (Z.abs_eq (200 * n)) by lia.
    replace (100 * n * K1) with ((100 * n) * K1) by ring.
    replace (200 * n * Z.abs e2) with ((100 * n) * (Z.abs e2 * 2)) by ring.
    apply Z.mul_le_mono_nonneg_l; lia. }
  assert (B : Z.abs (20000 * K2 * e1) <= 10000 * K2 * n).
  { rewrite Z.abs_mul, (Z.abs_eq (20000 * K2)) by lia.
    replace (10000 * K2 * n) with ((10000 * K2) * n) by ring.
    replace (20000 * K2 * Z.abs e1) with ((10000 * K2) * (Z.abs e1 * 2)) by ring.
    apply Z.mul_le_mono_nonneg_l; lia. }
  assert (C : 2 * (100 * n * K1) < K1 * K2).
  { replace (2 * (100 * n * K1)) with (K1 * (200 * n)) by ring. apply Z.mul_lt_mono_pos_l; lia. }
  assert (D' : 2 * (10000 * K2 * n) < K1 * K2).
  { replace (2 * (10000 * K2 * n)) with ((20000 * n) * K2) by ring. apply Z.mul_lt_mono_pos_r; lia. }
  pose proof (Z.abs_triangle (200 * n * e2) (20000 * K2 * e1)). lia.
Qed.

(** The percentage [calculateTargetUptime] prints, in hundredths:
    [toFixed(2)] of [(s / n) * 100] is [round(100 * s / n, 2)] rounded
    half up, whenever the exact value is not half-way between two
    hundredths.  Each of the two roundings moves the value by at most
    [2^-53] of it, and a value that is not a midpoint lies at least
    [1 / (2 n)] from one. *)
Lemma toFixed2_percentage s n :
  0 <= s <= n -> 1 <= n < 2 ^ 31 -> (20000 * s + n) mod (2 * n) <> 0 ->
  toFixed2 (fmul (fdiv (of_Z s) (of_Z n)) (of_Z 100)) = (20000 * s + n) / (2 * n).
Proof.
  intros Hs Hn Htie. destruct (Z.eq_dec s 0) as [->|Hs0].
  { assert (R0 : forall b, round_frac 0 b = D 0 0) by reflexivity.
    rewrite Z.div_small by lia. unfold fdiv, fmul. change (dnum (of_Z 0)) with 0.
    rewrite Z.mul_0_r, Z.mul_0_l, R0. reflexivity. }
  destruct (fdiv_of_Z_spec s n ltac:(lia) ltac:(lia)) as (m1 & k1 & E1 & Hk1 & [A1 B1] & C1).
  assert (HK1 : 0 < 2 ^ k1) by (apply Z.pow_pos_nonneg; lia). set (K1 := 2 ^ k1) in *.
  assert (HK1b : 2 ^ 52 <= K1) by nia.
  assert (Hm1 : 0 < m1 <= 2 * K1) by nia.
  assert (HK1c : K1 < 2 ^ 84) by nia.
  destruct (fmul_100_spec m1 k1 Hk1 ltac:(lia) ltac:(nia) ltac:(nia)) as (m2 & k2 & E2 & Hk2 & [A2 B2] & C2).
  fold K1 in A2, B2, C2.
  assert (HK2 : 0 < 2 ^ k2) by (apply Z.pow_pos_nonneg; lia). set (K2 := 2 ^ k2) in *.
  assert (HK2b : 2 ^ 44 <= K2) by nia.
  assert (Hm2 : 0 < m2) by nia.
  rewrite E1, E2. unfold toFixed2. rewrite dnum_D, dden_D by done. fold K2.
  rewrite (proj2 (Z.leb_le 0 m2)) by lia.
  pose proof (Z.div_mod (20000 * s + n) (2 * n) ltac:(lia)) as Hdm.
  pose proof (Z.mod_pos_bound (20000 * s + n) (2 * n) ltac:(lia)) as Hmb.
  set (k := (20000 * s + n) / (2 * n)) in *. set (T := (20000 * s + n) mod (2 * n)) in *.
  assert (HT : 1 <= T <= 2 * n - 1) by lia.
  assert (Hid : (200 * m2 + K2 - 2 * K2 * k) * (K1 * n)
                = K1 * K2 * T + 200 * n * (m2 * K1 - 100 * m1 * K2) + 20000 * K2 * (m1 * n - s * K1)) by lia.
  assert (Herr : Z.abs (200 * n * (m2 * K1 - 100 * m1 * K2) + 20000 * K2 * (m1 * n - s * K1)) < K1 * K2)
    by (apply scaled_error; lia).
  symmetry. apply (Z.div_unique_pos _ _ _ (200 * m2 + K2 - 2 * K2 * k)); [|lia].
  set (r := 200 * m2 + K2 - 2 * K2 * k) in *.
  set (E := 200 * n * (m2 * K1 - 100 * m1 * K2) + 20000 * K2 * (m1 * n - s * K1)) in *.
  assert (HX : 0 < K1 * n) by lia. assert (HP : 0 < K1 * K2) by lia.
  set (X := K1 * n) in *. set (P := K1 * K2) in *.
  assert (HPT1 : P * 1 <= P * T) by (apply Z.mul_le_mono_nonneg_l; lia).
  assert (HPT2 : P * T <= P * (2 * n - 1)) by (apply Z.mul_le_mono_nonneg_l; lia).
  assert (HrX : 0 < r * X < 2 * K2 * X).
  { replace (2 * K2 * X) with (P * (2 * n)) by (unfold P, X; ring). lia. }
  split; [apply Z.lt_le_incl, (Z.mul_pos_cancel_r _ X)|apply (Z.mul_lt_mono_pos_r X)]; lia.
Qed.

End RoundingError.
