(* ===== verification/Status.v ===== *)
(** * Status: the status deriver of [src/server/db.ts]

    [getTargetStatus] (db.ts lines 180-201) reports the most recent check
    of a target; [calculateTargetUptime] (lines 151-178) aggregates the
    checks of the last [hoursBack] hours with JavaScript number
    arithmetic ([Binary64]).  Both are read-only [Op]s over the store. *)

From S2P Require Import Prelude Schema Store Binary64.

(** The object [getTargetStatus] returns. *)
Record TargetStatus := mkStatus {
  st_targetId : Z;
  isOnline : bool;
  lastCheckTime : Z;
  statusCode : option Z;
  responseTime : option Z;
  errorMessage : option string
}.

(** The object [calculateTargetUptime] returns. *)
Record UptimeStats := mkStats {
  up_targetId : Z;
  totalChecks : Z;
  successfulChecks : Z;
  uptimePercentage : double;
  averageResponseTime : Z
}.

Definition status_of (targetId : Z) (c : MonitoringCheck.t) : TargetStatus := {|
  st_targetId := targetId;
  isOnline := (MonitoringCheck.isSuccess c =? 1)%Z;
  lastCheckTime := MonitoringCheck.checkedAt c;
  statusCode := MonitoringCheck.statusCode c;
  responseTime := MonitoringCheck.responseTime c;
  errorMessage := MonitoringCheck.errorMessage c
|}.

Definition getTargetStatus (targetId : Z) : Op Server (option TargetStatus) :=
  with_db (op_ret None)
    (d <- read_db ;;
     lastCheck <- lift (limit_rows 1 (order_desc MonitoringCheck.checkedAt
                                       (checks_of targetId (checks d)))) ;;
     match lastCheck with
     | [] => op_ret None
     | c :: _ => op_ret (Some (status_of targetId c))
     end).

(** [checks.reduce((sum, c) => sum + (c.responseTime || 0), 0)]. *)
Definition sum_response (cs : list MonitoringCheck.t) : double :=
  fold_left (fun sum c => fadd sum (of_Z (default 0%Z (MonitoringCheck.responseTime c)))) cs (of_Z 0).

Definition is_successful (c : MonitoringCheck.t) : bool := (MonitoringCheck.isSuccess c =? 1)%Z.

(** The statistics of a non-empty selection of checks. *)
Definition uptime_stats (targetId : Z) (cs : list MonitoringCheck.t) : UptimeStats :=
  let successful := Z.of_nat (length (filter is_successful cs)) in
  let total := Z.of_nat (length cs) in
  let uptimePercentage := fmul (fdiv (of_Z successful) (of_Z total)) (of_Z 100) in
  let avgResponseTime := fdiv (sum_response cs) (of_Z total) in
  {| up_targetId := targetId;
     totalChecks := total;
     successfulChecks := successful;
     uptimePercentage := parseFloat_hundredths (toFixed2 uptimePercentage);
     averageResponseTime := math_round avgResponseTime |}.

(** The query has no ORDER BY: the checks come in table order. *)
Definition calculateTargetUptime (targetId hoursBack : Z) : Op Server (option UptimeStats) :=
  with_db (op_ret None)
    (t <- now ;;
     since <- lift (js_date (hours_ago t hoursBack)) ;;
     d <- read_db ;;
     let cs := checks_since targetId since (checks d) in
     if (length cs =? 0)%nat then op_ret None
     else op_ret (Some (uptime_stats targetId cs))).

(** One failed probe without a response time, in a fresh table. *)
Definition timeout_server : Server :=
  set_db demo_server (mkDb [] [demo_check 1 1 false None (T0 + 600000)] [] [] 1 2 1 1).

(** ** Lemmas *)

Lemma status_query s tid :
  db_available s = true ->
  getTargetStatus tid s
  = (Ok (match order_desc MonitoringCheck.checkedAt (checks_of tid (checks (db s))) with
         | [] => None
         | c :: _ => Some (status_of tid c)
         end), set_handle s true).
Proof.
  intros Ha. unfold getTargetStatus, limit_rows. run_db.
  by destruct (order_desc _ _).
Qed.

(** C5: with a handle, [getTargetStatus] answers [null] exactly
    when the target has no check, and otherwise reports a check of the
    target with the latest [checkedAt]: online iff its [isSuccess] is 1,
    with that check's time, status code, response time and error. *)
Theorem getTargetStatus_spec s tid :
  db_available s = true ->
  exists o, getTargetStatus tid s = (Ok o, set_handle s true)
  /\ (o = None <-> checks_of tid (checks (db s)) = [])
  /\ (forall st, o = Some st ->
        exists c, c ∈ checks_of tid (checks (db s)) /\ st = status_of tid c
        /\ forall c', c' ∈ checks_of tid (checks (db s)) ->
             (MonitoringCheck.checkedAt c' <= MonitoringCheck.checkedAt c)%Z).
Proof.
  intros Ha. rewrite status_query by done. eexists. split; [reflexivity|].
  destruct (order_desc _ _) as [|c rest] eqn:E; split.
  - split; [|by intros]. intros _. apply length_zero_iff_nil.
    by rewrite <- (length_order_desc MonitoringCheck.checkedAt), E.
  - by intros st.
  - split; [by intros|]. intros Hnil. rewrite Hnil in E. discriminate.
  - intros st [= <-]. exists c. split_and!; [|done|].
    + apply (elem_of_order_desc MonitoringCheck.checkedAt). rewrite E. left.
    + intros c' Hc'. by eapply order_desc_head_max.
Qed.

Lemma uptime_query s tid hoursBack :
  db_available s = true -> (Z.abs (hours_ago (clock s) hoursBack) <= MAX_DATE_MS)%Z ->
  calculateTargetUptime tid hoursBack s
  = (Ok (let cs := checks_since tid (hours_ago (clock s) hoursBack) (checks (db s)) in
         if (length cs =? 0)%nat then None else Some (uptime_stats tid cs)), set_handle s true).
Proof.
  intros Ha Hd. unfold calculateTargetUptime, js_date. run_db.
  rewrite (proj2 (Z.leb_le _ _) Hd). simpl. by destruct (length _ =? 0)%nat.
Qed.

(** C6: with a handle and a window start that is a valid
    date, [calculateTargetUptime] answers [null] exactly when the target
    has no check at or after the start of the window, and otherwise
    counts the checks of the window and, among them, those with
    [isSuccess = 1]; the successful count is at most the total. *)
Theorem calculateTargetUptime_spec s tid hoursBack :
  db_available s = true -> (Z.abs (hours_ago (clock s) hoursBack) <= MAX_DATE_MS)%Z ->
  let cs := checks_since tid (hours_ago (clock s) hoursBack) (checks (db s)) in
  exists o, calculateTargetUptime tid hoursBack s = (Ok o, set_handle s true)
  /\ (o = None <-> cs = [])
  /\ (forall u, o = Some u ->
        totalChecks u = Z.of_nat (length cs)
        /\ successfulChecks u = Z.of_nat (length (filter is_successful cs))
        /\ (0 <= successfulChecks u <= totalChecks u)%Z).
Proof.
  intros Ha Hd cs. rewrite uptime_query by done. eexists. split; [reflexivity|].
  fold cs. cbn zeta. destruct (length cs =? 0)%nat eqn:E; split.
  - split; [|by intros]. intros _. apply length_zero_iff_nil. by apply Nat.eqb_eq.
  - by intros u.
  - split; [by intros|]. intros Hnil. by rewrite Hnil in E.
  - intros u [= <-]. simpl. split_and!; [done|done|lia|].
    pose proof (length_filter_negb is_successful cs). lia.
Qed.

(** C36: a window so long that its start is not a valid
    JavaScript date ([hoursBack] beyond about 2.4 billion hours) makes
    [calculateTargetUptime] throw "Invalid time value". *)
Theorem calculateTargetUptime_invalid_date s tid hoursBack :
  db_available s = true -> (MAX_DATE_MS < Z.abs (hours_ago (clock s) hoursBack))%Z ->
  calculateTargetUptime tid hoursBack s = (Throw "Invalid time value", set_handle s true).
Proof.
  intros Ha Hd. unfold calculateTargetUptime, js_date. run_db.
  destruct (Z.abs _ <=? MAX_DATE_MS)%Z eqn:E; [lia|]. done.
Qed.

Lemma round_frac_zero b : round_frac 0 b = D 0 0.
Proof. reflexivity. Qed.

Lemma sum_response_zero cs :
  Forall (fun c => MonitoringCheck.responseTime c = None) cs -> sum_response cs = D 0 0.
Proof.
  unfold sum_response. change (of_Z 0) with (D 0 0).
  induction cs as [|c cs IH]; intros Hall; [done|].
  apply Forall_cons in Hall as [Hc Hall]. simpl. rewrite Hc. exact (IH Hall).
Qed.

(** C25: when no check of the window carries a response
    time (all probes failed before a response), the reported
    [averageResponseTime] is 0, not undefined: the code divides the sum
    of [responseTime || 0] by the number of all checks. *)
Theorem average_without_response_times s tid hoursBack :
  db_available s = true -> (Z.abs (hours_ago (clock s) hoursBack) <= MAX_DATE_MS)%Z ->
  let cs := checks_since tid (hours_ago (clock s) hoursBack) (checks (db s)) in
  cs <> [] -> Forall (fun c => MonitoringCheck.responseTime c = None) cs ->
  exists u, answer (calculateTargetUptime tid hoursBack) s = Ok (Some u)
  /\ averageResponseTime u = 0%Z.
Proof.
  intros Ha Hd cs Hne Hall. unfold answer. rewrite uptime_query by done. fold cs. cbn zeta.
  destruct (length cs =? 0)%nat eqn:E.
  { apply Nat.eqb_eq, length_zero_iff_nil in E. done. }
  eexists. split; [reflexivity|]. simpl. rewrite sum_response_zero by done.
  unfold fdiv. simpl. rewrite Z.mul_0_r, round_frac_zero. reflexivity.
Qed.

(** On the example of the specification (probes at t0
    success in 120 ms, t1 timeout, t2 success in 95 ms), the code
    reports 3 checks, 2 successful, an uptime printing as 66.67, and an
    average response time of 72 ms, where the specification expects 107
    (the mean over the probes that carried a response time). *)
Theorem spec_example_uptime :
  exists u, answer (calculateTargetUptime 1 24) demo_server = Ok (Some u)
  /\ totalChecks u = 3%Z /\ successfulChecks u = 2%Z
  /\ toFixed2 (uptimePercentage u) = 6667%Z /\ averageResponseTime u = 72%Z.
Proof. eexists. split; [vm_compute; reflexivity|]. vm_compute. split_and!; reflexivity. Qed.

(** ** Witnesses *)

Lemma getTargetStatus_spec_witness :
  exists o, getTargetStatus 1 demo_server = (Ok o, set_handle demo_server true) /\ o <> None.
Proof.
  destruct (getTargetStatus_spec demo_server 1 eq_refl) as (o & Ho & Hnone & _).
  exists o. split; [exact Ho|]. intros Hn. apply Hnone in Hn. discriminate.
Defined.

Lemma calculateTargetUptime_spec_witness :
  exists o, calculateTargetUptime 1 24 demo_server = (Ok o, set_handle demo_server true)
  /\ o <> None.
Proof.
  destruct (calculateTargetUptime_spec demo_server 1 24 eq_refl ltac:(vm_compute; discriminate))
    as (o & Ho & Hnone & _).
  exists o. split; [exact Ho|]. intros Hn. apply Hnone in Hn. discriminate.
Defined.

Lemma calculateTargetUptime_invalid_date_witness :
  calculateTargetUptime 1 3000000000 demo_server
  = (Throw "Invalid time value", set_handle demo_server true).
Proof. apply calculateTargetUptime_invalid_date; [reflexivity | vm_compute; reflexivity]. Defined.

Lemma average_without_response_times_witness :
  exists u, answer (calculateTargetUptime 1 24) timeout_server = Ok (Some u)
  /\ averageResponseTime u = 0%Z.
Proof.
  apply (average_without_response_times timeout_server 1 24 eq_refl).
  - vm_compute. discriminate.
  - vm_compute. discriminate.
  - vm_compute. repeat constructor.
Defined.
