(* ===== verification/Router.v ===== *)
(** * Router: the tRPC API of [src/server/routers.ts]

    Each procedure validates its input as its zod schema says (a failed
    validation is a [BAD_REQUEST] error), fills in the schema's
    defaults, and calls db.ts.  Inputs are modelled after JSON decoding:
    a number is an integer ([Z]), a [z.date()] a valid date in
    milliseconds, an optional field an [option].  Whether a string is a
    URL ([z.string().url()], which runs the WHATWG URL parser) is the
    Section variable [is_url]. *)

From S2P Require Import Prelude Schema Store Binary64 Status.

(** [z.enum(["daily", "hourly"])]. *)
Inductive Period := daily | hourly.

Definition period_str (p : Period) : string :=
  match p with daily => "daily" | hourly => "hourly" end.

(** The inputs of the procedures that take an object with fields. *)
Record CreateTargetInput := mkCreateTarget {
  ct_name : string;
  ct_url : string;
  ct_description : option string;
  ct_method : option string;
  ct_checkInterval : option Z;
  ct_timeout : option Z;
  ct_expectedStatusCode : option Z
}.

Record UpdateTargetInput := mkUpdateTarget {
  ut_id : Z;
  ut_name : option string;
  ut_url : option string;
  ut_description : option string;
  ut_checkInterval : option Z;
  ut_timeout : option Z;
  ut_expectedStatusCode : option Z;
  ut_isActive : option Z
}.

Record CreateCheckInput := mkCreateCheck {
  cc_targetId : Z;
  cc_statusCode : option Z;
  cc_responseTime : option Z;
  cc_isSuccess : Z;
  cc_errorMessage : option string
}.

Record CreateHistoryInput := mkCreateHistory {
  ch_targetId : Z;
  ch_period : Period;
  ch_timestamp : Z;
  ch_totalChecks : Z;
  ch_successfulChecks : Z;
  ch_uptimePercentage : string;
  ch_averageResponseTime : option Z
}.

Record CreateIncidentInput := mkCreateIncident {
  ci_targetId : Z;
  ci_startTime : Z;
  ci_reason : option string
}.

Definition bad_request {A} : Op Server A := op_throw "BAD_REQUEST".

Section Procedures.
(** [z.string().url()] accepts exactly the strings [new URL] parses. *)
Context (is_url : string -> bool).

(** ** targets (routers.ts lines 7-64) *)

Definition targets_list : Op Server (list MonitoringTarget.t) := getAllTargets.

Definition targets_getById (id : Z) : Op Server (option MonitoringTarget.t) := getTargetById id.

(** [name: z.string().min(1)], [url: z.string().url()], and the
    defaults [method "GET"], [checkInterval 300], [timeout 10],
    [expectedStatusCode 200]. *)
Definition create_target_insert (input : CreateTargetInput) : MonitoringTarget.insert :=
  MonitoringTarget.mkInsert (ct_name input) (ct_url input)
    (ct_description input) (Some (default "GET" (ct_method input)))
    (Some (default 300%Z (ct_checkInterval input)))
    (Some (default 10%Z (ct_timeout input)))
    (Some (default 200%Z (ct_expectedStatusCode input))) None.

Definition targets_create (input : CreateTargetInput) : Op Server ResultSetHeader :=
  if negb (1 <=? String.length (ct_name input))%nat || negb (is_url (ct_url input))
  then bad_request
  else createTarget (create_target_insert input).

(** [const { id, ...updates } = input; db.updateTarget(id, updates)]. *)
Definition targets_update (input : UpdateTargetInput) : Op Server ResultSetHeader :=
  if negb (opt_ok is_url (ut_url input)) then bad_request
  else updateTarget (ut_id input)
         (MonitoringTarget.mkPatch (ut_name input) (ut_url input) (ut_description input) None
            (ut_checkInterval input) (ut_timeout input) (ut_expectedStatusCode input)
            (ut_isActive input)).

Definition targets_delete (id : Z) : Op Server ResultSetHeader := deleteTarget id.

(** ** checks (routers.ts lines 65-106) *)

Definition checks_getByTargetId (targetId : Z) (limit : option Z) : Op Server (list MonitoringCheck.t) :=
  getChecksByTargetId targetId (default 100%Z limit).

Definition checks_getRecent (targetId : Z) (hoursBack : option Z) : Op Server (list MonitoringCheck.t) :=
  getRecentChecksByTargetId targetId (default 24%Z hoursBack).

Definition checks_create (input : CreateCheckInput) : Op Server ResultSetHeader :=
  createCheck (MonitoringCheck.mkInsert (cc_targetId input) (cc_statusCode input)
                 (cc_responseTime input) (cc_isSuccess input) (cc_errorMessage input)).

(** ** history (routers.ts lines 107-143) *)

Definition history_getByTargetId (targetId : Z) (period : option Period) (daysBack : option Z)
  : Op Server (list UptimeHistory.t) :=
  getUptimeHistoryByTargetId targetId (period_str (default daily period)) (default 30%Z daysBack).

(** [uptimePercentage: z.string()] goes to the database as a string. *)
Definition history_create (input : CreateHistoryInput) : Op Server ResultSetHeader :=
  createUptimeRecord (UptimeHistory.mkInsert (ch_targetId input) (period_str (ch_period input))
                        (ch_timestamp input) (Some (ch_totalChecks input))
                        (Some (ch_successfulChecks input)) (Some (ch_uptimePercentage input))
                        (ch_averageResponseTime input)).

(** ** stats (routers.ts lines 144-174) *)

Definition stats_getUptime (targetId : Z) (hoursBack : option Z) : Op Server (option UptimeStats) :=
  calculateTargetUptime targetId (default 24%Z hoursBack).

Definition stats_getStatus (targetId : Z) : Op Server (option TargetStatus) :=
  getTargetStatus targetId.

(** [Promise.all(targets.map(t => db.getTargetStatus(t.id)))], then the
    [null] answers are dropped. *)
Definition stats_getAllStatus : Op Server (list TargetStatus) :=
  targets <- getAllTargets ;;
  statuses <- op_mapM (fun t => getTargetStatus (MonitoringTarget.id t)) targets ;;
  op_ret (omap id statuses).

(** ** incidents (routers.ts lines 175-221) *)

Definition incidents_getByTargetId (targetId : Z) (limit : option Z) : Op Server (list Incident.t) :=
  getIncidentsByTargetId targetId (default 50%Z limit).

Definition incidents_create (input : CreateIncidentInput) : Op Server ResultSetHeader :=
  createIncident (Incident.mkInsert (ci_targetId input) (ci_startTime input) (ci_reason input)
                    (Some ongoing)).

(** [updateIncident(input.id, { status: "resolved", endTime: new Date() })]. *)
Definition incidents_resolve (id : Z) : Op Server ResultSetHeader :=
  t <- now ;;
  updateIncident id (Incident.mkPatch (Some resolved) (Some t)).

End Procedures.

(** ** Queries used by the properties *)

(** The ongoing incidents of a target. *)
Definition ongoing_of (tid : Z) (rows : list Incident.t) : list Incident.t :=
  filter (fun r => (Incident.targetId r =? tid)%Z && bool_decide (Incident.status r = ongoing)) rows.

(** The history rows of one bucket: one target, period and timestamp. *)
Definition bucket_rows (tid : Z) (period : string) (ts : Z) (rows : list UptimeHistory.t)
  : list UptimeHistory.t :=
  filter (fun h => (UptimeHistory.targetId h =? tid)%Z && String.eqb (UptimeHistory.period h) period
                   && (UptimeHistory.timestamp h =? ts)%Z) rows.

(** The answer of [stats.getAllStatus], as a function of the tables. *)
Definition latest_status (cs : list MonitoringCheck.t) (t : MonitoringTarget.t) : option TargetStatus :=
  match order_desc MonitoringCheck.checkedAt (checks_of (MonitoringTarget.id t) cs) with
  | [] => None
  | c :: _ => Some (status_of (MonitoringTarget.id t) c)
  end.

(** ** Concrete states, for the witnesses *)

(** The demo database with one incident of target 1, ongoing since the
    timeout, and one incident resolved at the next success. *)
Definition incident_db : Db :=
  (mkDb (targets demo_db) (checks demo_db) []
       [Incident.mk 1 1 (T0 + 300000) None ongoing (Some "timeout") (T0 + 300000) (T0 + 300000);
        Incident.mk 2 1 T0 (Some (T0 + 60000)) resolved None T0 (T0 + 60000)]
       2 4 1 3)%Z.

Definition incident_server : Server := set_db demo_server incident_db.

Definition demo_history_input : CreateHistoryInput :=
  mkCreateHistory 1 daily T0 3 2 "66.67" (Some 107%Z).

(** A target with a zero interval and a negative timeout. *)
Definition zero_interval_input : CreateTargetInput :=
  mkCreateTarget "edge" "https://example.net" None None (Some 0%Z) (Some (-5)%Z) None.

(** ** Lemmas *)

Lemma set_handle_idem s : set_handle (set_handle s true) true = set_handle s true.
Proof. reflexivity. Qed.

Lemma db_available_set_handle s : db_available (set_handle s true) = true.
Proof. reflexivity. Qed.

(** [Promise.all] of [getTargetStatus] over the targets, with a handle. *)
Lemma mapM_status s targets :
  db_available s = true ->
  op_mapM (fun t => getTargetStatus (MonitoringTarget.id t)) targets (set_handle s true)
  = (Ok (map (latest_status (checks (db s))) targets), set_handle s true).
Proof.
  intros Ha. induction targets as [|t ts IH]; [done|]. simpl.
  unfold op_bind at 1. rewrite status_query by apply db_available_set_handle.
  rewrite set_handle_idem. unfold op_bind. rewrite IH. done.
Qed.

(** A write of db.ts that answers [Ok] went through its insert. *)
Lemma createUptimeRecord_ok s i h :
  answer (createUptimeRecord i) s = Ok h ->
  exists pct, uptime (db (final (createUptimeRecord i) s))
              = uptime (db s) ++ [UptimeHistory.of_insert (next_uptime_id (db s)) (clock s) pct i].
Proof.
  unfold createUptimeRecord. run_db. destruct (db_available s); [|done]. run_db.
  destruct (match UptimeHistory.ins_uptimePercentage i with Some str => decimal_5_2 str | None => Ok 10000%Z end)
    as [pct|m]; simpl; [|done].
  unfold insert_row. repeat case_match; simplify_eq; simpl; try done. intros _. by exists pct.
Qed.

Lemma latest_status_none cs t : latest_status cs t = None <-> checks_of (MonitoringTarget.id t) cs = [].
Proof.
  unfold latest_status. destruct (order_desc _ _) as [|c rest] eqn:E; split; try done.
  - intros _. apply length_zero_iff_nil. by rewrite <- (length_order_desc MonitoringCheck.checkedAt), E.
  - intros Hnil. by rewrite Hnil in E.
Qed.

Lemma latest_status_id cs t st :
  latest_status cs t = Some st -> st_targetId st = MonitoringTarget.id t.
Proof. unfold latest_status. destruct (order_desc _ _); [done|]. by intros [= <-]. Qed.

(** The statuses [stats.getAllStatus] answers, as members. *)
Lemma all_status_elem_of cs ts st :
  st ∈ omap id (map (latest_status cs) (filter (fun t => MonitoringTarget.isActive t =? 1)%Z ts))
  <-> exists t, t ∈ ts /\ MonitoringTarget.isActive t = 1%Z /\ latest_status cs t = Some st.
Proof.
  rewrite list_elem_of_omap. setoid_rewrite list_elem_of_fmap. split.
  - intros (o & (t & -> & Ht) & Ho). apply elem_of_filter_bool in Ht as [Ha' Ht].
    exists t. split_and!; [done|by apply Z.eqb_eq|done].
  - intros (t & Ht & Hact & Hst). exists (Some st). split; [|done].
    exists t. split; [done|]. apply elem_of_filter_bool. split; [by apply Z.eqb_eq|done].
Qed.

(** A target without checks has no status among them. *)
Lemma all_status_missing cs ts t :
  checks_of (MonitoringTarget.id t) cs = [] ->
  ~ exists st, st ∈ omap id (map (latest_status cs) (filter (fun t => MonitoringTarget.isActive t =? 1)%Z ts))
               /\ st_targetId st = MonitoringTarget.id t.
Proof.
  intros Hnil (st & Hst & Hid). apply all_status_elem_of in Hst as (t' & _ & _ & Hl).
  assert (Hnone : latest_status cs t' = None).
  { apply latest_status_none. rewrite <- (latest_status_id _ _ _ Hl), Hid. done. }
  congruence.
Qed.

Lemma getAllStatus_query s :
  db_available s = true ->
  stats_getAllStatus s
  = (Ok (omap id (map (latest_status (checks (db s)))
                     (filter (fun t => MonitoringTarget.isActive t =? 1)%Z (targets (db s))))),
     set_handle s true).
Proof.
  intros Ha. unfold stats_getAllStatus. unfold op_bind at 1.
  unfold getAllTargets. rewrite with_db_spec, Ha. unfold read_db, op_bind, op_ret. simpl.
  rewrite mapM_status by done. done.
Qed.

(** C1: with a handle, [stats.getAllStatus] reports only
    active targets, and an active target appears in it exactly when it
    has at least one check: a target with no check is dropped, not
    reported with an unknown status. *)
Theorem getAllStatus_spec s :
  db_available s = true ->
  exists l, stats_getAllStatus s = (Ok l, set_handle s true)
  /\ (forall st, st ∈ l -> exists t, t ∈ targets (db s) /\ MonitoringTarget.isActive t = 1%Z
                              /\ st_targetId st = MonitoringTarget.id t)
  /\ (forall t, t ∈ targets (db s) -> MonitoringTarget.isActive t = 1%Z ->
        (checks_of (MonitoringTarget.id t) (checks (db s)) = []
         <-> ~ exists st, st ∈ l /\ st_targetId st = MonitoringTarget.id t)).
Proof.
  intros Ha. rewrite getAllStatus_query by done. eexists. split; [reflexivity|].
  split.
  - intros st Hst. apply all_status_elem_of in Hst as (t & Ht & Hact & Hl). exists t.
    split_and!; [done|done|]. by eapply latest_status_id.
  - intros t Ht Hact. split; [apply all_status_missing|].
    intros Hno. apply latest_status_none.
    destruct (latest_status (checks (db s)) t) as [st|] eqn:E; [|done].
    exfalso. apply Hno. exists st. split; [|by eapply latest_status_id].
    apply all_status_elem_of. by exists t.
Qed.

Lemma ongoing_of_app tid l1 l2 : ongoing_of tid (l1 ++ l2) = ongoing_of tid l1 ++ ongoing_of tid l2.
Proof. apply filter_app. Qed.

(** C4: [incidents.create] does not look at the
    incidents already there: when it succeeds for a target, the target
    has one more ongoing incident than before, so a target with an
    ongoing incident ends up with two. *)
Theorem incidents_create_second_ongoing s input :
  db_available s = true -> (next_incident_id (db s) <= INT_MAX)%Z ->
  (Z.abs (ci_startTime input) <= MAX_DATE_MS)%Z ->
  Incident.valid (Incident.of_insert (next_incident_id (db s)) (clock s)
                    (Incident.mkInsert (ci_targetId input) (ci_startTime input) (ci_reason input)
                       (Some ongoing))) = true ->
  ongoing_of (ci_targetId input) (incidents (db s)) <> [] ->
  length (ongoing_of (ci_targetId input) (incidents (db (final (incidents_create input) s))))
    = S (length (ongoing_of (ci_targetId input) (incidents (db s))))
  /\ 2 <= length (ongoing_of (ci_targetId input) (incidents (db (final (incidents_create input) s)))).
Proof.
  intros Ha Hmax Hd Hv Hne. unfold incidents_create, createIncident, js_date, insert_row. run_db.
  rewrite (proj2 (Z.leb_le _ _) Hd), (proj2 (Z.leb_le _ _) Hmax), Hv. simpl.
  rewrite ongoing_of_app, length_app.
  assert (Hrow : ongoing_of (ci_targetId input)
                   [Incident.of_insert (next_incident_id (db s)) (clock s)
                      (Incident.mkInsert (ci_targetId input) (ci_startTime input) (ci_reason input)
                         (Some ongoing))] = [Incident.of_insert (next_incident_id (db s)) (clock s)
                      (Incident.mkInsert (ci_targetId input) (ci_startTime input) (ci_reason input)
                         (Some ongoing))]).
  { unfold ongoing_of. rewrite filter_cons_True; [done|]. simpl. rewrite Z.eqb_refl. done. }
  rewrite Hrow. simpl. destruct (ongoing_of _ _) eqn:E; [done|]. simpl. lia.
Qed.

(** C22: recording a probe result through
    [checks.create] never changes the incident table, whatever the
    result: no incident is opened on a failure or resolved on a
    success. *)
Theorem checks_create_no_transition s input :
  incidents (db (final (checks_create input) s)) = incidents (db s).
Proof.
  unfold checks_create, createCheck. run_db. destruct (db_available s); [|done].
  run_db. unfold insert_row. repeat case_match; simplify_eq; done.
Qed.

(** [targets.update] with nothing but an id throws
    "No values to set" (drizzle refuses an empty SET) instead of being a
    no-op. *)
Theorem targets_update_empty is_url s tid :
  db_available s = true ->
  targets_update is_url (mkUpdateTarget tid None None None None None None None) s
  = (Throw "No values to set", set_handle s true).
Proof. intros Ha. unfold targets_update, updateTarget. simpl. run_db. done. Qed.

Lemma bucket_rows_app tid p ts l1 l2 :
  bucket_rows tid p ts (l1 ++ l2) = bucket_rows tid p ts l1 ++ bucket_rows tid p ts l2.
Proof. apply filter_app. Qed.

Lemma bucket_rows_of_insert input n t pct :
  let i := UptimeHistory.mkInsert (ch_targetId input) (period_str (ch_period input))
             (ch_timestamp input) (Some (ch_totalChecks input)) (Some (ch_successfulChecks input))
             (Some (ch_uptimePercentage input)) (ch_averageResponseTime input) in
  length (bucket_rows (ch_targetId input) (period_str (ch_period input)) (ts_round (ch_timestamp input))
            [UptimeHistory.of_insert n t pct i]) = 1.
Proof.
  simpl. unfold bucket_rows. rewrite filter_cons_True; [done|]. simpl.
  by rewrite Z.eqb_refl, String.eqb_refl, Z.eqb_refl.
Qed.

(** C23: [history.create] inserts and never replaces: two
    successful calls with the same input leave two more rows with the
    same target, period and timestamp, so a bucket recomputed twice is
    stored twice. *)
Theorem history_create_twice s input h1 h2 :
  let key := bucket_rows (ch_targetId input) (period_str (ch_period input))
                         (ts_round (ch_timestamp input)) in
  let s1 := final (history_create input) s in
  answer (history_create input) s = Ok h1 -> answer (history_create input) s1 = Ok h2 ->
  length (key (uptime (db (final (history_create input) s1)))) = length (key (uptime (db s))) + 2.
Proof.
  intros key s1 H1 H2. unfold history_create in *.
  apply createUptimeRecord_ok in H1 as [pct1 E1], H2 as [pct2 E2].
  subst s1. rewrite E2, E1. unfold key. rewrite !bucket_rows_app, !length_app.
  rewrite !bucket_rows_of_insert. lia.
Qed.

(** Deleting a target, whether it succeeds or
    throws, leaves every target's incident list as it was. *)
Theorem targets_delete_keeps_incidents s tid target limit :
  answer (incidents_getByTargetId target limit) (final (targets_delete tid) s)
  = answer (incidents_getByTargetId target limit) s.
Proof.
  unfold targets_delete, incidents_getByTargetId, getIncidentsByTargetId, deleteTarget.
  unfold answer, final. rewrite (with_db_spec not_available).
  destruct (db_available s) eqn:Ha; [|done].
  rewrite !with_db_spec, Ha. simpl. done.
Qed.

Lemma touch_incident_apply t p r :
  Incident.status (touch_incident t p r) = Incident.status (Incident.apply_patch p r)
  /\ Incident.endTime (touch_incident t p r) = Incident.endTime (Incident.apply_patch p r)
  /\ Incident.targetId (touch_incident t p r) = Incident.targetId r
  /\ Incident.startTime (touch_incident t p r) = Incident.startTime r
  /\ Incident.reason (touch_incident t p r) = Incident.reason r.
Proof. unfold touch_incident. case_decide as Heq; [rewrite Heq|]; done. Qed.

Lemma touch_incident_valid t e r :
  Incident.valid r = true -> in_timestamp (ts_round e) = true ->
  Incident.valid (touch_incident t (Incident.mkPatch (Some resolved) (Some e)) r) = true.
Proof.
  intros Hv He. destruct (touch_incident_apply t (Incident.mkPatch (Some resolved) (Some e)) r)
    as (_ & Hend & Htid & Hst & Hrs).
  unfold Incident.valid in *. rewrite Hend, Htid, Hst, Hrs. simpl.
  apply andb_true_iff in Hv as [Hv Hr]. apply andb_true_iff in Hv as [Hv _]. rewrite Hv, He, Hr. done.
Qed.

(** C30: in a well-formed database with a handle, resolving an
    incident by its id updates exactly that row and sets its status to
    resolved and its end time to the current second, whatever its state
    was: an incident that is already resolved gets a new end time. *)
Theorem incidents_resolve_spec s r :
  db_available s = true -> Db_wf (db s) -> r ∈ incidents (db s) ->
  in_timestamp (ts_round (clock s)) = true ->
  answer (incidents_resolve (Incident.id r)) s = Ok (mkHeader 1 0)
  /\ exists r', r' ∈ incidents (db (final (incidents_resolve (Incident.id r)) s))
     /\ Incident.id r' = Incident.id r /\ Incident.status r' = resolved
     /\ Incident.endTime r' = Some (ts_round (clock s)).
Proof.
  intros Ha Hwf Hr Hts. destruct Hwf as (_ & _ & _ & Hwf).
  assert (Hd : (Z.abs (clock s) <= MAX_DATE_MS)%Z).
  { unfold in_timestamp, ts_round, TIMESTAMP_MAX_S, MAX_DATE_MS in *.
    apply andb_true_iff in Hts as [H1 H2]. apply Z.leb_le in H1, H2.
    rewrite Z.div_mul in H1, H2 by lia.
    pose proof (Z.div_mod (clock s + 500) 1000 ltac:(lia)).
    pose proof (Z.mod_pos_bound (clock s + 500) 1000 ltac:(lia)). lia. }
  unfold answer, final.
  destruct (incidents_resolve (Incident.id r) s) as [res s'] eqn:E.
  unfold incidents_resolve, updateIncident, update_rows, js_date, op_bind at 1, now in E.
  simpl in E. run_db.
  rewrite (proj2 (Z.leb_le _ _) Hd) in E. simpl in E.
  rewrite (proj2 (forallb_forall _ _)) in E.
  2: { intros x Hx. apply list_elem_of_In in Hx.
       destruct (Incident.id x =? Incident.id r)%Z eqn:Ex; [|done]. simpl.
       apply Z.eqb_eq in Ex. assert (x = r) as ->.
       { eapply table_wf_unique; [exact Hwf|exact Hx|exact Hr|exact Ex]. }
       apply touch_incident_valid; [|done].
       destruct Hwf as (_ & Hall & _). rewrite Forall_forall in Hall. by apply Hall. }
  simpl in E. injection E as <- <-. simpl.
  rewrite (table_wf_select_id _ _ _ _ _ Hwf Hr). split; [done|].
  exists (touch_incident (clock s) (Incident.mkPatch (Some resolved) (Some (clock s))) r).
  destruct (touch_incident_apply (clock s) (Incident.mkPatch (Some resolved) (Some (clock s))) r)
    as (Hst & Hend & _).
  split_and!; [| apply touch_incident_id | done | done].
  apply list_elem_of_In, in_map_iff. exists r. rewrite Z.eqb_refl. split; [done|].
  by apply list_elem_of_In.
Qed.

(** A [targets.create] whose checks pass appends its row. *)
Lemma targets_create_run is_url s input :
  db_available s = true -> is_url (ct_url input) = true -> (1 <= String.length (ct_name input))%nat ->
  (next_target_id (db s) <= INT_MAX)%Z ->
  MonitoringTarget.valid (MonitoringTarget.of_insert (next_target_id (db s)) (clock s)
                            (create_target_insert input)) = true ->
  answer (targets_create is_url input) s = Ok (mkHeader 1 (next_target_id (db s)))
  /\ targets (db (final (targets_create is_url input) s))
     = targets (db s) ++ [MonitoringTarget.of_insert (next_target_id (db s)) (clock s) (create_target_insert input)].
Proof.
  intros Ha Hurl Hname Hmax Hv. unfold targets_create.
  rewrite Hurl, (proj2 (Nat.leb_le _ _) Hname). simpl.
  unfold createTarget, insert_row. run_db.
  rewrite (proj2 (Z.leb_le _ _) Hmax), Hv. simpl. done.
Qed.

(** C35: [targets.create] with a non-empty name and a URL
    stores the row with the interval and timeout it was given, with no
    lower bound: 0 or a negative interval is accepted as long as it fits
    the [int] column. *)
Theorem targets_create_spec is_url s input :
  db_available s = true -> is_url (ct_url input) = true -> (1 <= String.length (ct_name input))%nat ->
  (next_target_id (db s) <= INT_MAX)%Z ->
  let row := MonitoringTarget.of_insert (next_target_id (db s)) (clock s) (create_target_insert input) in
  MonitoringTarget.valid row = true ->
  answer (targets_create is_url input) s = Ok (mkHeader 1 (next_target_id (db s)))
  /\ targets (db (final (targets_create is_url input) s)) = targets (db s) ++ [row]
  /\ MonitoringTarget.checkInterval row = default 300%Z (ct_checkInterval input)
  /\ MonitoringTarget.timeout row = default 10%Z (ct_timeout input).
Proof.
  intros Ha Hurl Hname Hmax row Hv.
  destruct (targets_create_run is_url s input Ha Hurl Hname Hmax Hv) as [H1 H2].
  split_and!; [done|done|reflexivity|reflexivity].
Qed.


(** ** Witnesses *)

Lemma incident_db_wf : Db_wf incident_db.
Proof.
  unfold Db_wf, table_wf; simpl.
  split_and!; apply (bool_decide_unpack _); vm_compute; exact I.
Qed.

Lemma getAllStatus_spec_witness :
  exists l, stats_getAllStatus demo_server = (Ok l, set_handle demo_server true) /\ l <> [].
Proof.
  destruct (getAllStatus_spec demo_server eq_refl) as (l & Hl & _ & Hcov).
  exists l. split; [exact Hl|]. intros ->.
  assert (Hne : checks_of 1 (checks (db demo_server)) <> []) by discriminate.
  apply Hne. apply (Hcov (MonitoringTarget.mk 1 "api" "https://example.com" None "GET" 300 10 200 1 T0 T0));
    [left | reflexivity |]. intros (st & Hst & _). by apply not_elem_of_nil in Hst.
Defined.

Lemma incidents_create_second_ongoing_witness :
  2 <= length (ongoing_of 1 (incidents (db (final (incidents_create (mkCreateIncident 1 (T0 + 900000)%Z None))
                                               incident_server)))).
Proof.
  apply (incidents_create_second_ongoing incident_server (mkCreateIncident 1 (T0 + 900000)%Z None));
    [reflexivity | vm_compute; discriminate | vm_compute; discriminate | reflexivity | vm_compute; discriminate].
Defined.

Lemma targets_update_empty_witness :
  targets_update (fun _ => true) (mkUpdateTarget 1 None None None None None None None) demo_server
  = (Throw "No values to set", set_handle demo_server true).
Proof. apply targets_update_empty. reflexivity. Defined.

Lemma history_create_twice_witness :
  let key := bucket_rows 1 "daily" (ts_round T0) in
  length (key (uptime (db (final (history_create demo_history_input)
                              (final (history_create demo_history_input) demo_server)))))
  = length (key (uptime (db demo_server))) + 2.
Proof.
  apply (history_create_twice demo_server demo_history_input (mkHeader 1 1) (mkHeader 1 2));
    vm_compute; reflexivity.
Defined.

Lemma incidents_resolve_spec_witness :
  answer (incidents_resolve 2) incident_server = Ok (mkHeader 1 0).
Proof.
  apply (incidents_resolve_spec incident_server
           (Incident.mk 2 1 T0 (Some (T0 + 60000)%Z) resolved None T0 (T0 + 60000)%Z));
    [reflexivity | exact incident_db_wf | right; left | reflexivity].
Defined.

Lemma targets_create_spec_witness :
  MonitoringTarget.checkInterval (MonitoringTarget.of_insert 2 (T0 + 900000)%Z
                                    (create_target_insert zero_interval_input)) = 0%Z.
Proof.
  destruct (targets_create_spec (fun _ => true) demo_server zero_interval_input eq_refl eq_refl
              ltac:(simpl; lia) ltac:(vm_compute; discriminate) ltac:(vm_compute; reflexivity))
    as (_ & _ & Hint & _).
  exact Hint.
Defined.
