(* ===== verification/Layout.v ===== *)
(** * Layout: the resizable sidebar of DashboardLayout.tsx

    [src/client/src/components/DashboardLayout.tsx] keeps the sidebar
    width in React state, initialised from [localStorage] with
    [parseInt(saved, 10)], and resizes it by mouse drags: [mousedown]
    registers a [mousemove] and a [mouseup] listener on the document,
    [mousemove] clamps [startWidth + delta] to [[MIN_WIDTH, MAX_WIDTH]]
    with [Math.max]/[Math.min] and writes it back to [localStorage] with
    [toString], [mouseup] removes both listeners.

    A JavaScript number is [NaN] or an integer ([JsNum]): every number
    this component handles is the result of [parseInt] or integer
    arithmetic on pixel coordinates, and [-0] behaves as [0] here.
    [JsNum] integers are exact: a double holds every integer up to
    2^53, and the theorems about saved widths are stated in that
    range.  The
    listeners are a list of [(startX, startWidth)] pairs in registration
    order, so a second [mousedown] before a [mouseup] is modelled as the
    DOM does it: two [mousemove] listeners, the last one's write wins. *)

From S2P Require Import Prelude Schema.
From Stdlib Require Import Ascii.

Inductive JsNum := NaN | Num (z : Z).

#[export] Instance JsNum_eq_dec : EqDecision JsNum.
Proof. solve_decision. Defined.

(** ** parseInt and Number.prototype.toString *)

(** The ASCII characters of ECMAScript's StrWhiteSpaceChar (tab, line
    feed, vertical tab, form feed, carriage return, space). *)
Definition is_js_space (c : ascii) : bool :=
  let n := nat_of_ascii c in ((9 <=? n) && (n <=? 13)) || (n =? 32).

Fixpoint trim_start (l : list ascii) : list ascii :=
  match l with
  | c :: r => if is_js_space c then trim_start r else l
  | [] => []
  end.

Definition hex_digit (c : ascii) : option Z :=
  let n := nat_of_ascii c in
  if (48 <=? n) && (n <=? 57) then Some (Z.of_nat n - 48)%Z
  else if (97 <=? n) && (n <=? 102) then Some (Z.of_nat n - 87)%Z
  else if (65 <=? n) && (n <=? 70) then Some (Z.of_nat n - 55)%Z
  else None.

Fixpoint take_hex (l : list ascii) : list Z :=
  match l with
  | c :: r => match hex_digit c with Some d => d :: take_hex r | None => [] end
  | [] => []
  end.

Definition hex_value (ds : list Z) : Z := fold_left (fun acc d => acc * 16 + d)%Z ds 0%Z.

(** [parseInt(s, 10)]: leading white space, a sign, the longest prefix
    of decimal digits; [NaN] when there is no digit. *)
Definition parseInt10 (s : string) : JsNum :=
  let '(sg, l1) := take_sign (trim_start (String.list_ascii_of_string s)) in
  match fst (take_digits l1) with
  | [] => NaN
  | ds => Num (sg * digits_value ds)%Z
  end.

(** [parseInt(s)] without a radix: as above, except that a [0x] or [0X]
    prefix after the sign selects radix 16. *)
Definition parseInt (s : string) : JsNum :=
  let '(sg, l1) := take_sign (trim_start (String.list_ascii_of_string s)) in
  match l1 with
  | "0"%char :: x :: r =>
      if Ascii.eqb x "x" || Ascii.eqb x "X" then
        match take_hex r with [] => NaN | ds => Num (sg * hex_value ds)%Z end
      else parseInt10 s
  | _ => parseInt10 s
  end.

Definition digit_char (d : Z) : ascii := ascii_of_nat (48 + Z.to_nat d).

(** The decimal digits of [n >= 0], most significant first; [fuel]
    bounds the number of digits. *)
Fixpoint digits_of (fuel : nat) (n : Z) : list ascii :=
  match fuel with
  | O => []
  | S f => if (n <? 10)%Z then [digit_char n] else digits_of f (n / 10) ++ [digit_char (n mod 10)]
  end.

(** [log2 n + 1] binary digits bound the decimal ones. *)
Definition digit_fuel (n : Z) : nat := S (Z.to_nat (Z.log2 n)).

Definition show_Z (z : Z) : string :=
  String.string_of_list_ascii
    (if (z <? 0)%Z then "-"%char :: digits_of (digit_fuel (- z)) (- z) else digits_of (digit_fuel z) z).

(** [Number.prototype.toString()] *)
Definition toString (n : JsNum) : string :=
  match n with NaN => "NaN" | Num z => show_Z z end.

(** ** Math.max, Math.min and + on numbers: NaN is contagious *)

Definition js_add (a b : JsNum) : JsNum :=
  match a, b with Num x, Num y => Num (x + y)%Z | _, _ => NaN end.
Definition math_min (a b : JsNum) : JsNum :=
  match a, b with Num x, Num y => Num (Z.min x y) | _, _ => NaN end.
Definition math_max (a b : JsNum) : JsNum :=
  match a, b with Num x, Num y => Num (Z.max x y) | _, _ => NaN end.

(** ** The component (lines 18-61) *)

Definition SIDEBAR_WIDTH_KEY : string := "sidebar-width".
Definition DEFAULT_WIDTH : Z := 280.
Definition MIN_WIDTH : Z := 200.
Definition MAX_WIDTH : Z := 480.

Record MenuItem := mkMenuItem { label : string; path : string }.

Definition menuItems : list MenuItem :=
  [mkMenuItem "Dashboard" "/"; mkMenuItem "Targets" "/targets";
   mkMenuItem "Incidents" "/incidents"; mkMenuItem "Settings" "/settings"].

(** [isActive={location === item.path}] *)
Definition active_items (location : string) : list MenuItem :=
  filter (fun it => String.eqb location (path it)) menuItems.

Record Layout := mkLayout {
  sidebarWidth : JsNum;
  storage : option string;       (** localStorage[SIDEBAR_WIDTH_KEY] *)
  drags : list (Z * JsNum);      (** registered listeners: (startX, startWidth) *)
  location : string
}.

(** The [useState] initialiser: [saved ? parseInt(saved, 10) : DEFAULT_WIDTH];
    the empty string is falsy. *)
Definition initial_width (saved : option string) : JsNum :=
  match saved with
  | Some s => if String.eqb s "" then Num DEFAULT_WIDTH else parseInt10 s
  | None => Num DEFAULT_WIDTH
  end.

Definition mount (saved : option string) (loc : string) : Layout :=
  mkLayout (initial_width saved) saved [] loc.

(** [handleMouseMove] of the drag started at [(startX, startWidth)]. *)
Definition newWidth (startX : Z) (startWidth : JsNum) (clientX : Z) : JsNum :=
  math_max (Num MIN_WIDTH) (math_min (Num MAX_WIDTH) (js_add startWidth (Num (clientX - startX)))).

Definition handleMouseMove (clientX : Z) (l : Layout) (d : Z * JsNum) : Layout :=
  let w := newWidth d.1 d.2 clientX in
  mkLayout w (Some (toString w)) (drags l) (location l).

Inductive Event := MouseDown (clientX : Z) | MouseMove (clientX : Z) | MouseUp | Navigate (p : string).

Definition step (l : Layout) (e : Event) : Layout :=
  match e with
  | MouseDown x => mkLayout (sidebarWidth l) (storage l) (drags l ++ [(x, sidebarWidth l)]) (location l)
  | MouseMove x => fold_left (handleMouseMove x) (drags l) l
  | MouseUp => mkLayout (sidebarWidth l) (storage l) [] (location l)
  | Navigate p => mkLayout (sidebarWidth l) (storage l) (drags l) p
  end.

Definition run (l : Layout) (es : list Event) : Layout := fold_left step es l.

(** ** Lemmas: printing and parsing decimal integers *)

Lemma digit_char_value (d : Z) :
  (0 <= d < 10)%Z ->
  is_digit (digit_char d) = true /\ Z.of_nat (nat_of_ascii (digit_char d) - 48) = d.
Proof.
  intros Hd. unfold digit_char, is_digit.
  rewrite Ascii.nat_ascii_embedding by lia.
  split; [apply andb_true_intro; split; apply Nat.leb_le|]; lia.
Qed.

Lemma digits_value_snoc (ds : list ascii) (c : ascii) :
  digits_value (ds ++ [c]) = (digits_value ds * 10 + Z.of_nat (nat_of_ascii c - 48))%Z.
Proof. unfold digits_value. rewrite fold_left_app. reflexivity. Qed.

Lemma digits_of_digits (f : nat) (n : Z) :
  (0 <= n)%Z -> Forall (fun c => is_digit c = true) (digits_of f n).
Proof.
  revert n. induction f as [|f IH]; intros n Hn; simpl; [constructor|].
  destruct (Z.ltb_spec n 10).
  - constructor; [apply digit_char_value; lia | constructor].
  - apply Forall_app; split.
    + apply IH. apply Z.div_pos; lia.
    + constructor; [apply digit_char_value, Z.mod_pos_bound; lia | constructor].
Qed.

Lemma digits_of_value (f : nat) (n : Z) :
  (0 <= n < 10 ^ Z.of_nat f)%Z -> digits_value (digits_of f n) = n.
Proof.
  revert n. induction f as [|f IH]; intros n Hn; cbn [digits_of].
  - assert (n = 0%Z) as -> by (cbn in Hn; lia). reflexivity.
  - destruct (Z.ltb_spec n 10).
    + rewrite <- (app_nil_l [digit_char n]), digits_value_snoc.
      destruct (digit_char_value n) as [_ ->]; [lia|]. reflexivity.
    + rewrite digits_value_snoc, IH.
      * destruct (digit_char_value (n mod 10)) as [_ ->]; [apply Z.mod_pos_bound; lia|].
        pose proof (Z.div_mod n 10). lia.
      * rewrite Nat2Z.inj_succ, Z.pow_succ_r in Hn by lia.
        split; [apply Z.div_pos; lia | apply Z.div_lt_upper_bound; lia].
Qed.

Lemma digit_fuel_enough (n : Z) : (0 <= n)%Z -> (n < 10 ^ Z.of_nat (digit_fuel n))%Z.
Proof.
  intros Hn. unfold digit_fuel.
  pose proof (Z.log2_nonneg n).
  rewrite Nat2Z.inj_succ, Z2Nat.id by lia.
  destruct (Z.eq_dec n 0) as [->|Hn0]; [simpl; lia|].
  destruct (Z.log2_spec n) as [_ Hlt]; [lia|].
  eapply Z.lt_le_trans; [exact Hlt|]. apply Z.pow_le_mono_l; lia.
Qed.

Lemma digits_of_cons (f : nat) (n : Z) :
  (0 <= n)%Z -> exists c r, digits_of (S f) n = c :: r.
Proof.
  revert n. induction f as [|f IH]; intros n Hn; simpl.
  - destruct (n <? 10)%Z; eauto.
  - destruct (n <? 10)%Z; [eauto|].
    destruct (IH (n / 10)%Z) as (c & r & E); [apply Z.div_pos; lia|].
    simpl in E. rewrite E. eauto.
Qed.

Lemma take_digits_all (ds : list ascii) :
  Forall (fun c => is_digit c = true) ds -> take_digits ds = (ds, []).
Proof. induction 1 as [|c ds Hc _ IH]; simpl; [done|]. by rewrite Hc, IH. Qed.

Lemma digit_not_sign (c : ascii) (r : list ascii) :
  is_digit c = true -> trim_start (c :: r) = c :: r /\ take_sign (c :: r) = (1%Z, c :: r).
Proof. destruct c as [[] [] [] [] [] [] [] []]; vm_compute; intros H; try discriminate H; auto. Qed.

Lemma parse_digits_of (n : Z) (sg : Z) (pre : list ascii) :
  (0 <= n)%Z ->
  (forall c r, is_digit c = true -> take_sign (trim_start (pre ++ c :: r)) = (sg, c :: r)) ->
  parseInt10 (String.string_of_list_ascii (pre ++ digits_of (digit_fuel n) n)) = Num (sg * n)%Z.
Proof.
  intros Hn Hpre.
  pose proof (digits_of_value (digit_fuel n) n (conj Hn (digit_fuel_enough n Hn))) as Hv.
  pose proof (digits_of_digits (digit_fuel n) n Hn) as Hd.
  destruct (digits_of_cons (Z.to_nat (Z.log2 n)) n Hn) as (c & r & E).
  change (digits_of (digit_fuel n) n = c :: r) in E.
  rewrite E in Hv, Hd |- *. pose proof (Forall_inv Hd) as Hc.
  unfold parseInt10.
  rewrite String.list_ascii_of_string_of_list_ascii, Hpre, take_digits_all by done.
  cbn [fst]. by rewrite Hv.
Qed.

Lemma show_Z_nonempty (z : Z) : String.eqb (show_Z z) "" = false.
Proof.
  unfold show_Z. destruct (Z.ltb_spec z 0) as [_|Hz]; [reflexivity|].
  destruct (digits_of_cons (Z.to_nat (Z.log2 z)) z Hz) as (c & r & E).
  unfold digit_fuel. rewrite E. reflexivity.
Qed.

(** [toString] of an integer parses back to it. *)
Lemma parseInt10_show_Z (z : Z) : parseInt10 (show_Z z) = Num z.
Proof.
  unfold show_Z. destruct (Z.ltb_spec z 0).
  - etransitivity; [exact (parse_digits_of (- z) (-1) ["-"%char] ltac:(lia) (fun c r _ => eq_refl))|].
    f_equal. lia.
  - etransitivity; [apply (parse_digits_of z 1 []); [lia|]|f_equal; lia].
    intros c r Hc. rewrite app_nil_l. destruct (digit_not_sign c r Hc) as [-> ->]. reflexivity.
Qed.

(** ** Lemmas: the event loop *)

Lemma run_ind (Q : Layout -> Prop) (l : Layout) (es : list Event) :
  Q l -> (forall l e, Q l -> Q (step l e)) -> Q (run l es).
Proof. unfold run. revert l. induction es; simpl; auto. Qed.

Lemma fold_moves_ind (Q : Layout -> Prop) (x : Z) (ds : list (Z * JsNum)) (l : Layout) :
  Q l -> (forall l' d, d ∈ ds -> Q l' -> Q (handleMouseMove x l' d)) ->
  Q (fold_left (handleMouseMove x) ds l).
Proof.
  revert l. induction ds as [|d ds IH]; intros l Hl Hstep; simpl; [done|].
  apply IH; [apply Hstep; [left|]; done|].
  intros l' d' Hd'. apply Hstep. by right.
Qed.


(** Reloading the page after [localStorage.setItem(key, w.toString())]
    gives back [w], [NaN] included. *)
Lemma initial_width_toString (w : JsNum) : initial_width (Some (toString w)) = w.
Proof.
  destruct w as [|z]; [reflexivity|]. cbn [initial_width toString].
  by rewrite show_Z_nonempty, parseInt10_show_Z.
Qed.

(** A property of widths kept by every drag: the width, the start width
    of every registered drag and the width a reload would restore keep it. *)
Section WidthInvariant.
Context (P : JsNum -> Prop).
Hypothesis newWidth_P : forall sx sw x, P sw -> P (newWidth sx sw x).

Definition width_inv (l : Layout) : Prop :=
  P (sidebarWidth l) /\ Forall (fun d => P d.2) (drags l) /\ initial_width (storage l) = sidebarWidth l.

Lemma step_width_inv (l : Layout) (e : Event) : width_inv l -> width_inv (step l e).
Proof.
  intros (Hw & Hd & Hs). destruct e as [x|x| |p]; cbn [step].
  - split_and!; cbn; [done| |done]. apply Forall_app; split; [done|]. by constructor.
  - apply (fold_moves_ind (fun l' => width_inv l' /\ drags l' = drags l)); [done|].
    intros l' d Hin [_ Hdr]. unfold width_inv, handleMouseMove; cbn [sidebarWidth storage drags].
    split_and!; [apply newWidth_P; by eapply Forall_forall in Hd|by rewrite Hdr|
                 apply initial_width_toString|done].
  - split_and!; cbn; done.
  - split_and!; cbn; done.
Qed.

Lemma run_width_inv (saved : option string) (loc : string) (es : list Event) :
  P (initial_width saved) -> width_inv (run (mount saved loc) es).
Proof.
  intros H0. apply run_ind; [|apply step_width_inv]. split_and!; cbn; done.
Qed.
End WidthInvariant.

Definition in_bounds (w : JsNum) : Prop :=
  match w with Num z => (MIN_WIDTH <= z <= MAX_WIDTH)%Z | NaN => False end.

Lemma newWidth_in_bounds (sx : Z) (sw : JsNum) (x : Z) : in_bounds sw -> in_bounds (newWidth sx sw x).
Proof. destruct sw as [|w]; [done|]. cbn. unfold MIN_WIDTH, MAX_WIDTH. lia. Qed.

Lemma newWidth_NaN (sx : Z) (sw : JsNum) (x : Z) : sw = NaN -> newWidth sx sw x = NaN.
Proof. by intros ->. Qed.

(** ** Theorems *)

(** C13: when the width restored at mount lies in
    [[MIN_WIDTH, MAX_WIDTH]] (for instance when nothing is saved), it
    stays there whatever sequence of mouse and navigation events
    follows, and so does every width written to localStorage. *)
Theorem sidebar_width_bounded (saved : option string) (loc : string) (es : list Event) :
  in_bounds (initial_width saved) ->
  in_bounds (sidebarWidth (run (mount saved loc) es)) /\
  in_bounds (initial_width (storage (run (mount saved loc) es))).
Proof.
  intros H0. destruct (run_width_inv in_bounds newWidth_in_bounds saved loc es H0) as (Hw & _ & Hs).
  by rewrite Hs.
Qed.

Lemma sidebar_width_bounded_witness :
  in_bounds (initial_width None) /\
  in_bounds (sidebarWidth (run (mount None "/") [MouseDown 0; MouseMove 1000; MouseUp])) /\
  in_bounds (initial_width (storage (run (mount None "/") [MouseDown 0; MouseMove 1000; MouseUp]))).
Proof.
  split; [cbn; unfold MIN_WIDTH, MAX_WIDTH, DEFAULT_WIDTH; lia|].
  apply sidebar_width_bounded. cbn; unfold MIN_WIDTH, MAX_WIDTH, DEFAULT_WIDTH; lia.
Defined.

(** C20: a saved width that is not empty and does not start
    with digits makes the width NaN at mount, and it stays NaN after
    every event sequence: [startWidth + delta] is NaN, [Math.min] and
    [Math.max] propagate it, and the "NaN" written back to localStorage
    parses to NaN again on the next load, so dragging never repairs it. *)
Theorem sidebar_nan_sticky (s : string) (loc : string) (es : list Event) :
  parseInt10 s = NaN -> String.eqb s "" = false ->
  sidebarWidth (run (mount (Some s) loc) es) = NaN /\
  initial_width (storage (run (mount (Some s) loc) es)) = NaN.
Proof.
  intros Hp He.
  assert (H0 : initial_width (Some s) = NaN) by (cbn; by rewrite He).
  destruct (run_width_inv (fun w => w = NaN) newWidth_NaN
              (Some s) loc es H0) as (Hw & _ & Hs).
  by rewrite Hs.
Qed.

Lemma sidebar_nan_sticky_witness :
  parseInt10 "wide" = NaN /\ String.eqb "wide" "" = false /\
  sidebarWidth (run (mount (Some "wide") "/") [MouseDown 10; MouseMove 40; MouseUp]) = NaN /\
  initial_width (storage (run (mount (Some "wide") "/") [MouseDown 10; MouseMove 40; MouseUp])) = NaN.
Proof.
  split; [reflexivity|]. split; [reflexivity|].
  apply sidebar_nan_sticky; reflexivity.
Defined.

(** C28: after any sequence of events, loading the page
    again restores the width the sidebar had: [parseInt(w.toString(), 10)]
    gives back [w]. *)
Theorem reload_restores_width (saved : option string) (loc : string) (es : list Event) :
  initial_width (storage (run (mount saved loc) es)) = sidebarWidth (run (mount saved loc) es).
Proof.
  by destruct (run_width_inv (fun _ => True) (fun _ _ _ _ => I) saved loc es I) as (_ & _ & Hs).
Qed.

(** C33: the width read from localStorage at mount is not
    clamped: the decimal text of any integer of magnitude at most
    [2^53] (where [parseInt] is exact on doubles), below [MIN_WIDTH] or
    above [MAX_WIDTH] included, becomes the sidebar width as it is. *)
Theorem mount_unclamped (z : Z) (loc : string) :
  (Z.abs z <= 2 ^ 53)%Z ->
  sidebarWidth (mount (Some (show_Z z)) loc) = Num z.
Proof. intros _. cbn [mount sidebarWidth initial_width]. by rewrite show_Z_nonempty, parseInt10_show_Z. Qed.

Lemma mount_unclamped_witness :
  (Z.abs 1000 <= 2 ^ 53)%Z /\ sidebarWidth (mount (Some (show_Z 1000)) "/") = Num 1000.
Proof. split; [lia|apply mount_unclamped; lia]. Defined.
