(* ===== verification/Views.v ===== *)
(** * Views: what the dashboard pages derive from the API

    [src/client/src/pages/Home.tsx], [Targets.tsx] and [Incidents.tsx]
    render the answers of tRPC queries and send mutations.  Each page is
    modelled as a function from the state of its queries to what it
    shows (cards, badges, counts, texts) and, for the Targets page, as a
    state (dialog and form) with the handlers that change it and the
    procedure each one calls.  The styling is left out; every branch of
    the JSX that decides what is shown is kept, including JavaScript's
    truthiness tests ([x && ...] renders the number 0 as the text "0"). *)

From S2P Require Import Prelude Schema Store Status Router Layout.

(** The state of a [useQuery]: loading, failed ([data] undefined), or
    answered. *)
Inductive Query (A : Type) := Pending | Failed | Done (a : A).
Arguments Pending {A}. Arguments Failed {A}. Arguments Done {A} a.

Definition isLoading {A} (q : Query A) : bool := match q with Pending => true | _ => false end.
Definition data {A} (q : Query A) : option A := match q with Done a => Some a | _ => None end.

(** The query once the procedure has answered. *)
Definition query_of {A} (r : Result A) : Query A :=
  match r with Ok a => Done a | Throw _ => Failed end.

(** [{n && <jsx>}] for a number [n]: nothing when [n] is null,
    the text "0" when it is 0, the element otherwise. *)
Inductive NumSlot := SlotEmpty | SlotZeroText | SlotShown (n : Z).

Definition num_and (o : option Z) : NumSlot :=
  match o with None => SlotEmpty | Some 0%Z => SlotZeroText | Some n => SlotShown n end.

Inductive Badge := BadgeOnline | BadgeOffline.

#[export] Instance Badge_eq_dec : EqDecision Badge.
Proof. solve_decision. Defined.

(** [status?.isOnline ? "Online" : "Offline"]: an absent status is
    falsy, so it reads "Offline". *)
Definition badge (st : option TargetStatus) : Badge :=
  match st with Some s => if isOnline s then BadgeOnline else BadgeOffline | None => BadgeOffline end.

(** ** Home.tsx (lines 8-140) *)

(** [status?.statusCode ? `Status: ${statusCode}` : "No recent checks"]. *)
Inductive CodeLine := StatusLine (code : Z) | NoRecentChecks.

Definition code_line (st : TargetStatus) : CodeLine :=
  match statusCode st with Some c => if (c =? 0)%Z then NoRecentChecks else StatusLine c | None => NoRecentChecks end.

Record StatusCard := mkCard {
  card_target : Z;
  card_badge : Badge;
  card_line : CodeLine;
  card_response : NumSlot;
  card_lastChecked : Z
}.

Definition status_card (st : TargetStatus) : StatusCard :=
  mkCard (st_targetId st) (badge (Some st)) (code_line st) (num_and (responseTime st)) (lastCheckTime st).

Inductive HomeView :=
| HomeSkeleton
| HomeDashboard (total online offline : Z) (cards : list StatusCard)
| HomeEmpty (total online offline : Z).  (** "No services configured yet" *)

(** The counts: [statuses?.filter(s => s?.isOnline).length || 0] and
    [(statuses?.length || 0) - onlineCount]. *)
Definition Home (statuses : Query (list TargetStatus)) : HomeView :=
  if isLoading statuses then HomeSkeleton else
  let l := default [] (data statuses) in
  let onlineCount := Z.of_nat (length (filter isOnline l)) in
  let total := Z.of_nat (length l) in
  let offlineCount := (total - onlineCount)%Z in
  match l with
  | [] => HomeEmpty total onlineCount offlineCount
  | _ => HomeDashboard total onlineCount offlineCount (map status_card l)
  end.

(** ** Targets.tsx (lines 20-277) *)

Record TargetRow := mkRow {
  row_target : Z;
  row_name : string;
  row_badge : Badge;
  row_interval : Z;
  row_timeout : Z;
  row_response : NumSlot
}.

(** [statuses?.find((s) => s?.targetId === targetId)]. *)
Definition getStatusForTarget (statuses : Query (list TargetStatus)) (tid : Z) : option TargetStatus :=
  match data statuses with
  | Some l => List.find (fun s => (st_targetId s =? tid)%Z) l
  | None => None
  end.

Definition target_row (statuses : Query (list TargetStatus)) (t : MonitoringTarget.t) : TargetRow :=
  let status := getStatusForTarget statuses (MonitoringTarget.id t) in
  mkRow (MonitoringTarget.id t) (MonitoringTarget.name t) (badge status)
    (MonitoringTarget.checkInterval t) (MonitoringTarget.timeout t)
    (match status with Some s => num_and (responseTime s) | None => SlotEmpty end).

Inductive TargetsView := TargetsSkeleton | TargetsList (rows : list TargetRow) | TargetsEmpty.

Definition Targets (targets : Query (list MonitoringTarget.t)) (statuses : Query (list TargetStatus))
  : TargetsView :=
  if isLoading targets then TargetsSkeleton else
  match data targets with
  | Some ((_ :: _) as l) => TargetsList (map (target_row statuses) l)
  | _ => TargetsEmpty
  end.

(** The form state; the numeric fields hold [parseInt(e.target.value)]. *)
Record FormData := mkForm {
  f_name : string;
  f_url : string;
  f_description : string;
  f_checkInterval : JsNum;
  f_timeout : JsNum;
  f_expectedStatusCode : JsNum
}.

Definition initial_form : FormData := mkForm "" "" "" (Num 300) (Num 10) (Num 200).

Inductive FormInput :=
| SetName (v : string) | SetUrl (v : string) | SetDescription (v : string)
| SetInterval (v : string) | SetTimeout (v : string) | SetStatusCode (v : string).

(** The [onChange] handlers: [setFormData({ ...formData, field: ... })]. *)
Definition on_change (f : FormData) (i : FormInput) : FormData :=
  match i with
  | SetName v => mkForm v (f_url f) (f_description f) (f_checkInterval f) (f_timeout f) (f_expectedStatusCode f)
  | SetUrl v => mkForm (f_name f) v (f_description f) (f_checkInterval f) (f_timeout f) (f_expectedStatusCode f)
  | SetDescription v => mkForm (f_name f) (f_url f) v (f_checkInterval f) (f_timeout f) (f_expectedStatusCode f)
  | SetInterval v => mkForm (f_name f) (f_url f) (f_description f) (parseInt v) (f_timeout f) (f_expectedStatusCode f)
  | SetTimeout v => mkForm (f_name f) (f_url f) (f_description f) (f_checkInterval f) (parseInt v) (f_expectedStatusCode f)
  | SetStatusCode v => mkForm (f_name f) (f_url f) (f_description f) (f_checkInterval f) (f_timeout f) (parseInt v)
  end.

Record TargetsPage := mkTargetsPage { isOpen : bool; formData : FormData }.

(** The [required] name and URL inputs and [type="url"]: the browser
    fires [onSubmit] only when they are filled in and the URL parses. *)
Definition form_submittable (is_url : string -> bool) (f : FormData) : bool :=
  negb (String.eqb (f_name f) "") && is_url (f_url f).

(** [createMutation.mutateAsync(formData)]: the form object as the
    input of [targets.create]; zod's [z.number()] rejects [NaN]. *)
Definition to_input (f : FormData) : option CreateTargetInput :=
  match f_checkInterval f, f_timeout f, f_expectedStatusCode f with
  | Num ci, Num t, Num sc =>
      Some (mkCreateTarget (f_name f) (f_url f) (Some (f_description f)) None (Some ci) (Some t) (Some sc))
  | _, _, _ => None
  end.

(** [handleSubmit]: on success the form is reset and the dialog closed;
    on an error (BAD_REQUEST or a database error) the error is logged and
    the page stays as it is. *)
Definition handleSubmit (is_url : string -> bool) (p : TargetsPage) : Op Server TargetsPage :=
  fun s =>
    if negb (form_submittable is_url (formData p)) then (Ok p, s) else
    match to_input (formData p) with
    | None => (Ok p, s)
    | Some inp =>
        let '(r, s') := targets_create is_url inp s in
        match r with
        | Ok _ => (Ok (mkTargetsPage false initial_form), s')
        | Throw _ => (Ok p, s')
        end
    end.

Inductive TargetsEvent :=
| OpenChange (b : bool)       (** [onOpenChange], "Create First Target" *)
| Input (i : FormInput)
| Submit
| DeleteClick (id : Z)        (** [deleteMutation.mutate({ id: target.id })] *)
| EditClick (id : Z).         (** [// Edit functionality]: nothing *)

Definition targets_step (is_url : string -> bool) (p : TargetsPage) (e : TargetsEvent) : Op Server TargetsPage :=
  match e with
  | OpenChange b => op_ret (mkTargetsPage b (formData p))
  | Input i => op_ret (mkTargetsPage (isOpen p) (on_change (formData p) i))
  | Submit => handleSubmit is_url p
  | DeleteClick id => fun s => let '(_, s') := targets_delete id s in (Ok p, s')
  | EditClick _ => op_ret p
  end.

(** ** Incidents.tsx (lines 8-148) *)

Definition INCIDENTS_LIMIT : Z := 10%Z.

Inductive IncidentBadge := BadgeOngoing | BadgeResolved.

Record IncidentItem := mkItem {
  item_badge : IncidentBadge;
  item_start : Z;
  item_reason : option string;
  item_end : option Z;
  (** the Resolve button, shown for an ongoing incident, and the
      procedure its [onClick] calls ([None]: the handler is empty) *)
  item_resolve : option (option Z)
}.

Definition incident_item (i : Incident.t) : IncidentItem :=
  let ongoing_ := bool_decide (Incident.status i = ongoing) in
  mkItem (if ongoing_ then BadgeOngoing else BadgeResolved) (Incident.startTime i)
    (match Incident.reason i with Some "" => None | r => r end) (Incident.endTime i)
    (if ongoing_ then Some None else None).

Inductive TargetIncidentsView :=
| IncidentsSkeleton
| NoIncidents (name : string)  (** "No incidents recorded" *)
| IncidentList (name : string) (count : Z) (items : list IncidentItem).

(** [TargetIncidents]: the answer of [incidents.getByTargetId] with
    [limit: 10]. *)
Definition TargetIncidents (name : string) (incidents : Query (list Incident.t)) : TargetIncidentsView :=
  if isLoading incidents then IncidentsSkeleton else
  match data incidents with
  | Some ((_ :: _) as l) => IncidentList name (Z.of_nat (length l)) (map incident_item l)
  | _ => NoIncidents name
  end.

Inductive IncidentsView :=
| IncidentsPageSkeleton
| IncidentsPage (sections : list (Z * string))  (** one [TargetIncidents] per target *)
| IncidentsPageEmpty.

Definition Incidents (targets : Query (list MonitoringTarget.t)) : IncidentsView :=
  if isLoading targets then IncidentsPageSkeleton else
  match data targets with
  | Some ((_ :: _) as l) => IncidentsPage (map (fun t => (MonitoringTarget.id t, MonitoringTarget.name t)) l)
  | _ => IncidentsPageEmpty
  end.

(** A section of the page, once its query has answered on [s]. *)
Definition incidents_section (s : Server) (sec : Z * string) : TargetIncidentsView :=
  TargetIncidents sec.2 (query_of (answer (incidents_getByTargetId sec.1 (Some INCIDENTS_LIMIT)) s)).

(** ** Data for the examples *)

(** The demo data before any probe has run. *)
Definition unprobed_db : Db :=
  mkDb (targets demo_db) [] [] [] (next_target_id demo_db) 1 1 1.

Definition unprobed_server : Server := set_db demo_server unprobed_db.

Definition demo_target : MonitoringTarget.t :=
  MonitoringTarget.mk 1 "api" "https://example.com" None "GET" 300 10 200 1 T0 T0.

(** The form after typing an interval in exponent notation, which a
    [type="number"] input accepts. *)
Definition exponent_form_page : TargetsPage :=
  mkTargetsPage true
    (on_change (on_change (on_change initial_form (SetName "web")) (SetUrl "https://example.org"))
       (SetInterval "1e3")).

(** ** Lemmas *)

Lemma targets_list_query s :
  db_available s = true ->
  answer targets_list s = Ok (filter (fun t => MonitoringTarget.isActive t =? 1)%Z (targets (db s))).
Proof. intros Ha. unfold targets_list, getAllTargets. run_db. done. Qed.

Lemma getAllStatus_answer s :
  db_available s = true ->
  answer stats_getAllStatus s
  = Ok (omap id (map (latest_status (checks (db s)))
                   (filter (fun t => MonitoringTarget.isActive t =? 1)%Z (targets (db s))))).
Proof. intros Ha. unfold answer. by rewrite getAllStatus_query. Qed.

Lemma find_status_none (l : list TargetStatus) (tid : Z) :
  ~ (exists st, st ∈ l /\ st_targetId st = tid) ->
  List.find (fun s => (st_targetId s =? tid)%Z) l = None.
Proof.
  intros Hno. destruct (List.find _ l) as [st|] eqn:E; [|done].
  apply find_some in E as [Hin Heq]. exfalso. apply Hno. exists st.
  split; [by apply list_elem_of_In | by apply Z.eqb_eq].
Qed.

Lemma online_cards (l : list TargetStatus) :
  length (filter (fun c => card_badge c = BadgeOnline) (map status_card l)) = length (filter isOnline l).
Proof.
  induction l as [|st l IH]; [done|]. cbn [map]. rewrite !filter_cons.
  unfold status_card, badge. cbn [card_badge].
  destruct (isOnline st); repeat case_decide; cbn in *; try congruence; by f_equal.
Qed.

Lemma name_nonempty (n : string) : String.eqb n "" = false -> (1 <= String.length n)%nat.
Proof. destruct n; cbn; [done|lia]. Qed.

(** ** Theorems *)

(** C11: on the Targets page, an active target that has
    never been probed is listed with the badge "Offline" and no response
    time: [stats.getAllStatus] leaves it out and [getStatusForTarget]
    finds nothing, which the badge renders as offline. *)
Theorem targets_page_unprobed_offline s t :
  db_available s = true -> t ∈ targets (db s) -> MonitoringTarget.isActive t = 1%Z ->
  checks_of (MonitoringTarget.id t) (checks (db s)) = [] ->
  exists rows,
    Targets (query_of (answer targets_list s)) (query_of (answer stats_getAllStatus s)) = TargetsList rows
    /\ exists r, r ∈ rows /\ row_target r = MonitoringTarget.id t
                 /\ row_badge r = BadgeOffline /\ row_response r = SlotEmpty.
Proof.
  intros Ha Ht Hact Hnil. rewrite targets_list_query, getAllStatus_answer by done.
  assert (Hf : t ∈ filter (fun t => MonitoringTarget.isActive t =? 1)%Z (targets (db s)))
    by (apply elem_of_filter_bool; split; [by apply Z.eqb_eq|done]).
  destruct (filter _ (targets (db s))) as [|t0 ts] eqn:E; [by apply not_elem_of_nil in Hf|].
  eexists. split; [reflexivity|]. exists (target_row (Done (omap id (map (latest_status (checks (db s))) (t0 :: ts)))) t).
  split; [apply list_elem_of_fmap; by exists t|].
  unfold target_row, getStatusForTarget. cbn [data].
  rewrite find_status_none; [done|]. rewrite <- E. by apply all_status_missing.
Qed.

Lemma targets_page_unprobed_offline_witness :
  db_available unprobed_server = true /\ demo_target ∈ targets (db unprobed_server) /\
  exists rows,
    Targets (query_of (answer targets_list unprobed_server))
            (query_of (answer stats_getAllStatus unprobed_server)) = TargetsList rows
    /\ exists r, r ∈ rows /\ row_target r = 1%Z /\ row_badge r = BadgeOffline /\ row_response r = SlotEmpty.
Proof.
  split; [reflexivity|]. split; [by left|].
  apply (targets_page_unprobed_offline unprobed_server demo_target); [reflexivity|by left|reflexivity|reflexivity].
Defined.

(** C19: the Home page's summary agrees with its cards: the
    online and offline counts add up to the total, the total is the
    number of cards, and the online count is the number of cards with the
    "Online" badge. *)
Theorem home_counts q total online offline cards :
  Home q = HomeDashboard total online offline cards ->
  (online + offline = total)%Z /\ Z.of_nat (length cards) = total /\ (0 <= online <= total)%Z
  /\ online = Z.of_nat (length (filter (fun c => card_badge c = BadgeOnline) cards)).
Proof.
  unfold Home. destruct (isLoading q); [done|].
  destruct (default [] (data q)) as [|st l] eqn:E; [done|]. intros [= <- <- <- <-].
  change (status_card st :: map status_card l) with (map status_card (st :: l)).
  rewrite length_map, online_cards.
  pose proof (length_filter isOnline (st :: l)). cbn [length] in *. split_and!; lia.
Qed.

Lemma home_counts_witness :
  Home (query_of (answer stats_getAllStatus demo_server))
  = HomeDashboard 1 1 0 (map status_card (default [] (data (query_of (answer stats_getAllStatus demo_server)))))
  /\ (1 + 0 = 1)%Z /\ Z.of_nat (length (map status_card (default [] (data (query_of (answer stats_getAllStatus demo_server)))))) = 1%Z
  /\ (0 <= 1 <= 1)%Z
  /\ 1%Z = Z.of_nat (length (filter (fun c => card_badge c = BadgeOnline)
             (map status_card (default [] (data (query_of (answer stats_getAllStatus demo_server))))))).
Proof.
  assert (H : Home (query_of (answer stats_getAllStatus demo_server))
  = HomeDashboard 1 1 0 (map status_card (default [] (data (query_of (answer stats_getAllStatus demo_server))))))
    by (vm_compute; reflexivity).
  split; [exact H|]. exact (home_counts _ _ _ _ _ H).
Defined.

(** C21: when no active target has been probed yet, the Home
    page shows "No services configured yet" with all counts 0, however
    many targets are configured. *)
Theorem home_empty_without_checks s :
  db_available s = true ->
  (forall t, t ∈ targets (db s) -> MonitoringTarget.isActive t = 1%Z ->
             checks_of (MonitoringTarget.id t) (checks (db s)) = []) ->
  Home (query_of (answer stats_getAllStatus s)) = HomeEmpty 0 0 0.
Proof.
  intros Ha Hnone. rewrite getAllStatus_answer by done.
  assert (E : omap id (map (latest_status (checks (db s)))
                (filter (fun t => MonitoringTarget.isActive t =? 1)%Z (targets (db s)))) = []).
  { apply elem_of_nil_inv. intros st Hst. apply all_status_elem_of in Hst as (t & Ht & Hact & Hl).
    pose proof (proj2 (latest_status_none _ _) (Hnone t Ht Hact)). congruence. }
  by rewrite E.
Qed.

Lemma home_empty_without_checks_witness :
  db_available unprobed_server = true /\ targets (db unprobed_server) <> [] /\
  Home (query_of (answer stats_getAllStatus unprobed_server)) = HomeEmpty 0 0 0.
Proof.
  split; [reflexivity|]. split; [discriminate|].
  apply home_empty_without_checks; [reflexivity|]. intros t _ _. reflexivity.
Defined.

(** C24: submitting the "Add Target" form with a name, a URL
    the browser accepts and numeric fields creates the target with the
    numbers [parseInt] read from the inputs, closes the dialog and resets
    the form. *)
Theorem handleSubmit_creates is_url s p ci tm sc :
  db_available s = true -> form_submittable is_url (formData p) = true ->
  f_checkInterval (formData p) = Num ci -> f_timeout (formData p) = Num tm ->
  f_expectedStatusCode (formData p) = Num sc ->
  (next_target_id (db s) <= INT_MAX)%Z ->
  let input := mkCreateTarget (f_name (formData p)) (f_url (formData p))
                 (Some (f_description (formData p))) None (Some ci) (Some tm) (Some sc) in
  let row := MonitoringTarget.of_insert (next_target_id (db s)) (clock s) (create_target_insert input) in
  MonitoringTarget.valid row = true ->
  answer (handleSubmit is_url p) s = Ok (mkTargetsPage false initial_form)
  /\ targets (db (final (handleSubmit is_url p) s)) = targets (db s) ++ [row]
  /\ MonitoringTarget.checkInterval row = ci /\ MonitoringTarget.timeout row = tm
  /\ MonitoringTarget.expectedStatusCode row = sc.
Proof.
  intros Ha Hsub Hci Htm Hsc Hmax input row Hv.
  unfold answer, final, handleSubmit. rewrite Hsub. cbn [negb].
  apply andb_prop in Hsub as [Hname Hurl]. apply negb_true_iff, name_nonempty in Hname.
  destruct (targets_create_run is_url s input Ha Hurl Hname Hmax Hv) as [H1 H2].
  unfold answer, final in H1, H2.
  unfold to_input. rewrite Hci, Htm, Hsc. fold input.
  destruct (targets_create is_url input s) as [r s']. cbn in H1, H2 |- *. subst r.
  split_and!; done.
Qed.

Lemma handleSubmit_creates_witness :
  f_checkInterval (formData exponent_form_page) = Num 1 /\
  answer (handleSubmit (fun _ => true) exponent_form_page) demo_server = Ok (mkTargetsPage false initial_form)
  /\ targets (db (final (handleSubmit (fun _ => true) exponent_form_page) demo_server))
     = targets (db demo_server)
       ++ [MonitoringTarget.of_insert 2 (clock demo_server)
             (create_target_insert (mkCreateTarget "web" "https://example.org" (Some "") None
                                      (Some 1%Z) (Some 10%Z) (Some 200%Z)))]
  /\ MonitoringTarget.checkInterval (MonitoringTarget.of_insert 2 (clock demo_server)
             (create_target_insert (mkCreateTarget "web" "https://example.org" (Some "") None
                                      (Some 1%Z) (Some 10%Z) (Some 200%Z)))) = 1%Z
  /\ MonitoringTarget.timeout (MonitoringTarget.of_insert 2 (clock demo_server)
             (create_target_insert (mkCreateTarget "web" "https://example.org" (Some "") None
                                      (Some 1%Z) (Some 10%Z) (Some 200%Z)))) = 10%Z
  /\ MonitoringTarget.expectedStatusCode (MonitoringTarget.of_insert 2 (clock demo_server)
             (create_target_insert (mkCreateTarget "web" "https://example.org" (Some "") None
                                      (Some 1%Z) (Some 10%Z) (Some 200%Z)))) = 200%Z.
Proof.
  split; [reflexivity|].
  apply (handleSubmit_creates (fun _ => true) demo_server exponent_form_page 1 10 200);
    vm_compute; try reflexivity; discriminate.
Defined.

(** A target's section of the Incidents page shows
    "No incidents recorded" exactly when the target has no incident (or
    the database is unavailable); otherwise it lists the ten latest
    incidents, newest first, and its "incident(s) recorded" count is
    capped at ten. *)
Theorem incidents_section_spec s tid name :
  incidents_section s (tid, name)
  = if db_available s then
      match incidents_of tid (incidents (db s)) with
      | [] => NoIncidents name
      | l => IncidentList name (Z.of_nat (Nat.min 10 (length l)))
               (map incident_item (take 10 (order_desc Incident.startTime l)))
      end
    else NoIncidents name.
Proof.
  unfold incidents_section, incidents_getByTargetId, getIncidentsByTargetId, answer, INCIDENTS_LIMIT.
  rewrite with_db_spec. destruct (db_available s); [|reflexivity].
  unfold read_db, lift, op_bind, limit_rows. cbn -[order_desc incidents_of take].
  destruct (incidents_of tid (incidents (db s))) as [|i l] eqn:E; [reflexivity|].
  pose proof (length_order_desc Incident.startTime (i :: l)) as Hl.
  destruct (take 10 (order_desc Incident.startTime (i :: l))) as [|j r] eqn:Et.
  - apply (f_equal length) in Et. rewrite length_take, Hl in Et. cbn in Et. lia.
  - assert (Hlen : length (j :: r) = Nat.min 10 (length (i :: l))) by (rewrite <- Et, length_take, Hl; done).
    change (Z.to_nat 10) with 10%nat. rewrite Et, Hlen. reflexivity.
Qed.
