(* ===== verification/Lifecycle.v ===== *)
(** * Lifecycle: the incident state machine of spec 4.2

    The repository has no code that reacts to a recorded probe: the
    incident state machine of spec 4.2 exists only in the specification.
    This file models it from the specification, on top of the incident
    table that the code does have:

    - [AInc] is the spec's Incident (target, start, end, status,
      reason), and [spec_transition] is the transition table of spec
      4.2 applied to the list of incidents a store holds, each with the
      id the store gave it;
    - [IncidentStore] is the interface the state machine needs from
      persistence (spec 6: "get/create/update incident by id or by
      (target, status=ongoing)"): a view of the incident table, an
      [open] and a [resolve] operation, and the laws they obey;
    - [record_probe] is the transition written against that interface,
      as one atomic read-then-write (spec 5), and [decide_probe] what
      its read decides;
    - [rows_of] and [reconstruct] are spec 4.2's failure semantics:
      after a restart a target is unhealthy iff its most recent
      incident row is ongoing;
    - [code_store] is the instance given by the code's [createIncident]
      and [updateIncident] (db.ts), so every theorem proved against the
      interface holds of the code's incident table. *)

From S2P Require Import Prelude Schema Store.

(** ** The specification's incidents and transition *)

Record AInc := mkAInc {
  a_target : Z;
  a_start : Z;
  a_end : option Z;
  a_status : IncidentStatus;
  a_reason : option string
}.

#[export] Instance AInc_eq_dec : EqDecision AInc.
Proof. solve_decision. Defined.

(** A newly recorded probe result (spec 3, ProbeResult), as far as the
    transition reads it. *)
Record Probe := mkProbe {
  pr_target : Z;
  pr_success : bool;
  pr_time : Z;
  pr_reason : option string
}.

Definition is_ongoing_of (tid : Z) (a : AInc) : bool :=
  (a_target a =? tid)%Z && bool_decide (a_status a = ongoing).

(** The ids of the ongoing incidents of a target. *)
Definition ongoing_ids (tid : Z) (v : list (Z * AInc)) : list Z :=
  map fst (filter (fun ja => is_ongoing_of tid ja.2) v).

(** Spec 3: at most one incident with status ongoing per target. *)
Definition at_most_one (v : list (Z * AInc)) : Prop :=
  forall tid, length (ongoing_ids tid v) <= 1.

Definition resolved_at (e : Z) (a : AInc) : AInc :=
  mkAInc (a_target a) (a_start a) (Some e) resolved (a_reason a).

(** Unhealthy -> Healthy: the ongoing incident of the target ends. *)
Definition resolve_ongoing (tid e : Z) (ja : Z * AInc) : Z * AInc :=
  if is_ongoing_of tid ja.2 then (ja.1, resolved_at e ja.2) else ja.

(** Spec 4.2, one probe: open on a failure while healthy, resolve on a
    success while unhealthy, nothing otherwise.  [fresh] is the id the
    store assigns to a new incident; [t] the probe time as stored. *)
Definition spec_transition (v : list (Z * AInc)) (p : Probe) (t fresh : Z) : list (Z * AInc) :=
  match pr_success p, ongoing_ids (pr_target p) v with
  | false, [] => v ++ [(fresh, mkAInc (pr_target p) t None ongoing (pr_reason p))]
  | true, _ :: _ => map (resolve_ongoing (pr_target p) t) v
  | _, _ => v
  end.

Inductive Health := Healthy | Unhealthy.

Definition health (tid : Z) (v : list (Z * AInc)) : Health :=
  match ongoing_ids tid v with [] => Healthy | _ => Unhealthy end.

(** The table of spec 4.2. *)
Definition spec_health_step (h : Health) (success : bool) : Health :=
  match h, success with
  | Healthy, false => Unhealthy
  | Unhealthy, true => Healthy
  | h, _ => h
  end.

(** ** The persistence interface *)

(** [resolve j e]: the row with id [j] gets end time [e] and status
    resolved. *)
Definition resolve_id (j e : Z) (ja : Z * AInc) : Z * AInc :=
  if (ja.1 =? j)%Z then (ja.1, resolved_at e ja.2) else ja.

Class IncidentStore (St : Type) := {
  inc_view : St -> list (Z * AInc);
  inc_wf : St -> Prop;
  inc_time : Z -> Z;  (** how the store keeps a time *)
  inc_open : Z -> Z -> option string -> Op St Z;
  inc_resolve : Z -> Z -> Op St unit;
  inc_wf_nodup s : inc_wf s -> NoDup (map fst (inc_view s));
  inc_open_ok tid t r s j s' :
    inc_wf s -> inc_open tid t r s = (Ok j, s') ->
    inc_wf s' /\ (j ∉ map fst (inc_view s))
    /\ inc_view s' = inc_view s ++ [(j, mkAInc tid (inc_time t) None ongoing r)];
  inc_open_err tid t r s e s' :
    inc_wf s -> inc_open tid t r s = (Throw e, s') -> inc_wf s' /\ inc_view s' = inc_view s;
  inc_resolve_ok j t s s' :
    inc_wf s -> inc_resolve j t s = (Ok tt, s') ->
    inc_wf s' /\ inc_view s' = map (resolve_id j (inc_time t)) (inc_view s);
  inc_resolve_err j t s e s' :
    inc_wf s -> inc_resolve j t s = (Throw e, s') -> inc_wf s' /\ inc_view s' = inc_view s
}.

(** ** The state machine against the interface *)

Section Machine.
Context `{IncidentStore St}.

(** The transition, read and write in one step. *)
Definition record_probe (p : Probe) : Op St unit :=
  s <- op_get ;;
  match pr_success p, ongoing_ids (pr_target p) (inc_view s) with
  | false, [] => _ <- inc_open (pr_target p) (pr_time p) (pr_reason p) ;; op_ret tt
  | true, j :: _ => inc_resolve j (pr_time p)
  | _, _ => op_ret tt
  end.

(** What the read of the transition decides from the current incidents:
    open for the probe, resolve an id, or nothing. *)
Inductive Decision := OpenFor (p : Probe) | ResolveId (j t : Z) | NoChange.

Definition decide_probe (p : Probe) (s : St) : Decision :=
  match pr_success p, ongoing_ids (pr_target p) (inc_view s) with
  | false, [] => OpenFor p
  | true, j :: _ => ResolveId j (pr_time p)
  | _, _ => NoChange
  end.

(** The steps of the system: a probe evaluated atomically, or an
    operator's manual resolution (spec 4.2, manual override). *)
Inductive lc_step : St -> St -> Prop :=
| lc_probe p s s' r : record_probe p s = (r, s') -> lc_step s s'
| lc_manual j t s s' r : inc_resolve j t s = (r, s') -> lc_step s s'.

Definition run_probes (ps : list Probe) : Op St unit :=
  fold_right (fun p k => record_probe p ;;; k) (op_ret tt) ps.
End Machine.
Arguments Decision : clear implicits.

(** The specification run over a sequence of probes, [tm] being how the
    store keeps a time and [fs] the ids the store hands out. *)
Fixpoint spec_run (tm : Z -> Z) (v : list (Z * AInc)) (ps : list Probe) (fs : list Z) : list (Z * AInc) :=
  match ps, fs with
  | p :: ps', f :: fs' => spec_run tm (spec_transition v p (tm (pr_time p)) f) ps' fs'
  | _, _ => v
  end.

(** Spec 4.2, failure semantics: after a restart, a target is taken to
    be unhealthy iff its most recent incident row is ongoing.  The rows
    of a target, oldest first, and the health read off the last one. *)
Definition rows_of (tid : Z) (v : list (Z * AInc)) : list AInc :=
  map snd (filter (fun ja => (a_target ja.2 =? tid)%Z) v).

Definition reconstruct (tid : Z) (v : list (Z * AInc)) : Health :=
  match last (rows_of tid v) with
  | Some a => if bool_decide (a_status a = ongoing) then Unhealthy else Healthy
  | None => Healthy
  end.

(** Only the most recent incident of a target may be ongoing. *)
Definition only_last_ongoing (v : list (Z * AInc)) : Prop :=
  forall tid, Forall (fun a => a_status a <> ongoing) (removelast (rows_of tid v)).

(** ** Lemmas on the views *)

Lemma ongoing_ids_cons tid k a v :
  ongoing_ids tid ((k, a) :: v) = if is_ongoing_of tid a then k :: ongoing_ids tid v else ongoing_ids tid v.
Proof. unfold ongoing_ids. rewrite filter_cons. cbn. by destruct (is_ongoing_of tid a). Qed.

Lemma ongoing_ids_app tid v1 v2 : ongoing_ids tid (v1 ++ v2) = ongoing_ids tid v1 ++ ongoing_ids tid v2.
Proof. unfold ongoing_ids. by rewrite filter_app, map_app. Qed.

Lemma is_ongoing_of_resolved tid e a : is_ongoing_of tid (resolved_at e a) = false.
Proof. unfold is_ongoing_of. cbn. by rewrite andb_false_r. Qed.

Lemma is_ongoing_of_new tid tid' t r :
  is_ongoing_of tid (mkAInc tid' t None ongoing r) = (tid' =? tid)%Z.
Proof. unfold is_ongoing_of. cbn. by rewrite andb_true_r. Qed.

Lemma elem_of_ongoing_ids tid k v : k ∈ ongoing_ids tid v <-> exists a, (k, a) ∈ v /\ is_ongoing_of tid a = true.
Proof.
  unfold ongoing_ids. rewrite list_elem_of_fmap. split.
  - intros ([k' a] & -> & Hin). apply elem_of_filter_bool in Hin as [Ho Hin]. by exists a.
  - intros (a & Hin & Ho). exists (k, a). split; [done|]. by apply elem_of_filter_bool.
Qed.

Lemma nodup_fst_unique (v : list (Z * AInc)) k a b :
  NoDup (map fst v) -> (k, a) ∈ v -> (k, b) ∈ v -> a = b.
Proof.
  induction v as [|[k' c] v IH]; intros Hnd Ha Hb; [by apply not_elem_of_nil in Ha|].
  cbn in Hnd. apply NoDup_cons in Hnd as [Hk Hnd]. apply elem_of_cons in Ha, Hb.
  assert (Hmem : forall d, (k, d) ∈ v -> k ∈ map fst v)
    by (intros d Hd; apply list_elem_of_fmap; by exists (k, d)).
  destruct Ha as [Ha|Ha], Hb as [Hb|Hb]; simplify_eq; auto; exfalso; eauto.
Qed.

Lemma ongoing_ids_resolve_id tid j e v :
  ongoing_ids tid (map (resolve_id j e) v) = filter (fun k => k <> j) (ongoing_ids tid v).
Proof.
  induction v as [|[k a] v IH]; [done|]. cbn [map]. unfold resolve_id at 1. cbn [fst snd].
  rewrite (ongoing_ids_cons tid k a).
  destruct (Z.eqb_spec k j) as [->|Hne].
  - rewrite ongoing_ids_cons, is_ongoing_of_resolved, IH.
    destruct (is_ongoing_of tid a); [|done]. rewrite filter_cons_False; [done|]. by intros [].
  - rewrite ongoing_ids_cons, IH. destruct (is_ongoing_of tid a); [|done].
    by rewrite filter_cons_True.
Qed.

Lemma ongoing_ids_resolve_ongoing tid tid' e v :
  ongoing_ids tid' (map (resolve_ongoing tid e) v) = if (tid' =? tid)%Z then [] else ongoing_ids tid' v.
Proof.
  induction v as [|[k a] v IH]; [by destruct (tid' =? tid)%Z|]. cbn [map].
  unfold resolve_ongoing at 1. cbn [fst snd].
  destruct (is_ongoing_of tid a) eqn:Ha; rewrite !ongoing_ids_cons, ?is_ongoing_of_resolved, IH;
    destruct (Z.eqb_spec tid' tid) as [->|Hne]; rewrite ?Ha; try done.
  unfold is_ongoing_of in *. apply andb_true_iff in Ha as [Ht Hs].
  destruct (Z.eqb_spec (a_target a) tid'); [apply Z.eqb_eq in Ht; lia|done].
Qed.

Lemma resolve_ongoing_healthy tid e v :
  ongoing_ids tid v = [] -> map (resolve_ongoing tid e) v = v.
Proof.
  induction v as [|[k a] v IH]; [done|]. rewrite ongoing_ids_cons. cbn [map].
  unfold resolve_ongoing at 1. cbn [fst snd]. destruct (is_ongoing_of tid a); [done|].
  intros H. by rewrite IH.
Qed.

(** With distinct ids, resolving the only ongoing incident of a target by
    its id is the spec's resolution of that target. *)
Lemma resolve_id_ongoing tid j e v :
  NoDup (map fst v) -> ongoing_ids tid v = [j] ->
  map (resolve_id j e) v = map (resolve_ongoing tid e) v.
Proof.
  intros Hnd Ho. apply map_ext_in. intros [k a] Hin%list_elem_of_In.
  unfold resolve_id, resolve_ongoing. cbn [fst snd].
  destruct (Z.eqb_spec k j) as [->|Hne].
  - assert (Hj : j ∈ ongoing_ids tid v) by (rewrite Ho; by left).
    apply elem_of_ongoing_ids in Hj as (a' & Hin' & Ho').
    rewrite (nodup_fst_unique v j a a' Hnd Hin Hin'), Ho'. done.
  - destruct (is_ongoing_of tid a) eqn:Ha; [|done]. exfalso.
    assert (Hk : k ∈ ongoing_ids tid v) by (apply elem_of_ongoing_ids; by exists a).
    rewrite Ho in Hk. by apply list_elem_of_singleton in Hk.
Qed.

Lemma spec_transition_at_most_one v p t f :
  at_most_one v -> at_most_one (spec_transition v p t f).
Proof.
  intros Hone tid. unfold spec_transition.
  destruct (pr_success p), (ongoing_ids (pr_target p) v) as [|j rest] eqn:Ho; try apply Hone.
  - rewrite ongoing_ids_resolve_ongoing. destruct (tid =? pr_target p)%Z; [cbn; lia|apply Hone].
  - rewrite ongoing_ids_app, ongoing_ids_cons, is_ongoing_of_new, length_app. cbn.
    destruct (Z.eqb_spec (pr_target p) tid) as [E|E]; [subst tid; rewrite Ho; cbn; lia|].
    specialize (Hone tid). cbn. lia.
Qed.

Lemma health_spec_transition tid v p t f :
  health tid (spec_transition v p t f)
  = if (tid =? pr_target p)%Z then spec_health_step (health (pr_target p) v) (pr_success p) else health tid v.
Proof.
  unfold health, spec_transition.
  destruct (Z.eqb_spec tid (pr_target p)) as [->|Hne];
    destruct (pr_success p), (ongoing_ids (pr_target p) v) as [|j rest] eqn:Ho; rewrite ?Ho; try done.
  - by rewrite ongoing_ids_resolve_ongoing, Z.eqb_refl.
  - rewrite ongoing_ids_app, Ho, ongoing_ids_cons, is_ongoing_of_new, Z.eqb_refl. done.
  - rewrite ongoing_ids_resolve_ongoing. by destruct (Z.eqb_spec tid (pr_target p)).
  - rewrite ongoing_ids_app, ongoing_ids_cons, is_ongoing_of_new.
    destruct (Z.eqb_spec (pr_target p) tid); [lia|].
    change (ongoing_ids tid []) with (@nil Z). by rewrite app_nil_r.
Qed.

(** ** Reconstruction of the health from the last incident *)

Lemma rows_of_cons tid k a v :
  rows_of tid ((k, a) :: v) = if (a_target a =? tid)%Z then a :: rows_of tid v else rows_of tid v.
Proof. unfold rows_of. rewrite filter_cons. cbn. by destruct (a_target a =? tid)%Z. Qed.

Lemma rows_of_app tid v1 v2 : rows_of tid (v1 ++ v2) = rows_of tid v1 ++ rows_of tid v2.
Proof. unfold rows_of. by rewrite filter_app, map_app. Qed.

(** No ongoing incident id for a target: none of its rows is ongoing. *)
Lemma ongoing_ids_nil_rows tid v :
  ongoing_ids tid v = [] <-> Forall (fun a => a_status a <> ongoing) (rows_of tid v).
Proof.
  induction v as [|[k a] v IH]; [split; [constructor|done]|].
  rewrite ongoing_ids_cons, rows_of_cons. unfold is_ongoing_of.
  destruct (a_target a =? tid)%Z; cbn [andb]; [|exact IH].
  rewrite Forall_cons, <- IH. case_bool_decide; split; [done|tauto|intros ->; done|tauto].
Qed.

Lemma removelast_map {A B} (f : A -> B) l : removelast (map f l) = map f (removelast l).
Proof. induction l as [|x [|y l] IH]; [done|done|]. cbn in *. by rewrite IH. Qed.

(** A rewrite of rows that keeps their targets and only ever resolves
    keeps the ongoing rows at the end. *)
Lemma only_last_ongoing_map (g : Z * AInc -> Z * AInc) v :
  (forall ja, a_target (g ja).2 = a_target ja.2) ->
  (forall ja, a_status (g ja).2 = a_status ja.2 \/ a_status (g ja).2 = resolved) ->
  only_last_ongoing v -> only_last_ongoing (map g v).
Proof.
  intros Ht Hs Hv tid.
  assert (Hr : rows_of tid (map g v) = map (fun ja => (g ja).2) (filter (fun ja => (a_target ja.2 =? tid)%Z) v)).
  { clear Hv. unfold rows_of. induction v as [|ja v IH]; [done|]. cbn [map]. rewrite !filter_cons, Ht.
    case_decide; cbn [map]; [f_equal|]; exact IH. }
  specialize (Hv tid). unfold rows_of in Hv.
  rewrite Hr, removelast_map, Forall_map. rewrite removelast_map, Forall_map in Hv.
  eapply Forall_impl; [exact Hv|]. intros ja Hne. by destruct (Hs ja) as [->| ->].
Qed.

Lemma only_last_ongoing_snoc v tid' f a :
  only_last_ongoing v -> a_target a = tid' -> ongoing_ids tid' v = [] ->
  only_last_ongoing (v ++ [(f, a)]).
Proof.
  intros Hv Ha Ho tid. rewrite rows_of_app, rows_of_cons. cbn [rows_of filter map].
  change (rows_of tid []) with (@nil AInc).
  destruct (Z.eqb_spec (a_target a) tid) as [<-|_]; [|rewrite app_nil_r; apply Hv].
  rewrite removelast_last. subst tid'. by apply ongoing_ids_nil_rows.
Qed.

Lemma only_last_ongoing_spec_transition v p t f :
  only_last_ongoing v -> only_last_ongoing (spec_transition v p t f).
Proof.
  intros Hv. unfold spec_transition.
  destruct (pr_success p), (ongoing_ids (pr_target p) v) as [|j rest] eqn:Ho; try exact Hv.
  - apply only_last_ongoing_map; [|intros [k a]; unfold resolve_ongoing; cbn; destruct (is_ongoing_of _ _); auto|done].
    intros [k a]. unfold resolve_ongoing. cbn. by destruct (is_ongoing_of _ _).
  - by apply only_last_ongoing_snoc with (tid' := pr_target p).
Qed.

Lemma only_last_ongoing_resolve_id v j e :
  only_last_ongoing v -> only_last_ongoing (map (resolve_id j e) v).
Proof.
  apply only_last_ongoing_map; intros [k a]; unfold resolve_id; cbn; destruct (k =? j)%Z; auto.
Qed.

(** Where only the last row can be ongoing, the health is the one read
    off the last row. *)
Lemma health_reconstruct tid v : only_last_ongoing v -> health tid v = reconstruct tid v.
Proof.
  intros Hv. specialize (Hv tid). unfold health, reconstruct.
  destruct (rows_of tid v) as [|a r] eqn:Er using rev_ind.
  - by rewrite (proj2 (ongoing_ids_nil_rows tid v)) by (rewrite Er; constructor).
  - clear IHr. rewrite last_snoc. rewrite removelast_last in Hv.
    pose proof (ongoing_ids_nil_rows tid v) as Hn. rewrite Er, Forall_app, Forall_singleton in Hn.
    case_bool_decide as Ha.
    + destruct (ongoing_ids tid v) eqn:Eo; [|done]. exfalso. by apply (proj2 (proj1 Hn eq_refl)).
    + by rewrite (proj2 Hn (conj Hv Ha)).
Qed.

(** ** The state machine's theorems, against the interface *)

Section MachineTheory.
Context `{IncidentStore St}.

(** One atomic probe: the store stays well formed, and its incidents
    move as the specification's transition says, or stay as they were
    when the write fails. *)
Lemma record_probe_step p s r s' :
  inc_wf s -> at_most_one (inc_view s) -> record_probe p s = (r, s') ->
  inc_wf s' /\
  match r with
  | Ok _ => exists fresh, inc_view s' = spec_transition (inc_view s) p (inc_time (pr_time p)) fresh
  | Throw _ => inc_view s' = inc_view s
  end.
Proof.
  intros Hwf Hone. unfold record_probe, op_bind, op_get, spec_transition. cbn.
  destruct (pr_success p), (ongoing_ids (pr_target p) (inc_view s)) as [|j rest] eqn:Ho.
  - intros [= <- <-]. split; [done|]. by exists 0%Z.
  - destruct (inc_resolve j (pr_time p) s) as [[[]|e] s1] eqn:E; intros [= <- <-].
    + destruct (inc_resolve_ok _ _ _ _ Hwf E) as [Hwf' ->]. split; [done|]. exists 0%Z.
      apply resolve_id_ongoing; [by apply inc_wf_nodup|].
      specialize (Hone (pr_target p)). rewrite Ho in Hone. destruct rest; [done|cbn in Hone; lia].
    + by apply (inc_resolve_err _ _ _ _ _ Hwf E).
  - destruct (inc_open (pr_target p) (pr_time p) (pr_reason p) s) as [[j|e] s1] eqn:E;
      cbn; intros [= <- <-].
    + destruct (inc_open_ok _ _ _ _ _ _ Hwf E) as (Hwf' & _ & ->). split; [done|]. by exists j.
    + by apply (inc_open_err _ _ _ _ _ _ Hwf E).
  - intros [= <- <-]. split; [done|]. by exists 0%Z.
Qed.

Lemma lc_step_inv s s' :
  lc_step s s' -> inc_wf s /\ at_most_one (inc_view s) -> inc_wf s' /\ at_most_one (inc_view s').
Proof.
  intros [p s0 s1 r E|j t s0 s1 r E] [Hwf Hone].
  - destruct (record_probe_step p s0 r s1 Hwf Hone E) as [Hwf' Hv]. split; [done|].
    destruct r; [destruct Hv as [f ->]; by apply spec_transition_at_most_one|by rewrite Hv].
  - destruct r as [[]|e].
    + destruct (inc_resolve_ok _ _ _ _ Hwf E) as [Hwf' ->]. split; [done|].
      intros tid. rewrite ongoing_ids_resolve_id. etransitivity; [apply length_filter|apply Hone].
    + destruct (inc_resolve_err _ _ _ _ _ Hwf E) as [Hwf' ->]. done.
Qed.

Lemma lc_step_last s s' :
  lc_step s s' -> inc_wf s -> at_most_one (inc_view s) -> only_last_ongoing (inc_view s) ->
  only_last_ongoing (inc_view s').
Proof.
  intros [p s0 s1 r E|j t s0 s1 r E] Hwf Hone Hv.
  - destruct (record_probe_step p s0 r s1 Hwf Hone E) as [_ Hv'].
    destruct r; [destruct Hv' as [f ->]; by apply only_last_ongoing_spec_transition|by rewrite Hv'].
  - destruct r as [[]|e].
    + destruct (inc_resolve_ok _ _ _ _ Hwf E) as [_ ->]. by apply only_last_ongoing_resolve_id.
    + by destruct (inc_resolve_err _ _ _ _ _ Hwf E) as [_ ->].
Qed.

(** C2: spec 3's invariant, for every sequence of atomic
    probe evaluations and manual resolutions: a well-formed store with
    at most one ongoing incident per target keeps at most one ongoing
    incident per target, whatever succeeds or fails on the way. *)
Theorem lifecycle_at_most_one s s' :
  inc_wf s -> at_most_one (inc_view s) -> rtc lc_step s s' ->
  inc_wf s' /\ at_most_one (inc_view s').
Proof.
  intros Hwf Hone Hrtc. revert Hwf Hone.
  induction Hrtc as [s|s1 s2 s3 Hst _ IH]; intros Hwf Hone; [done|].
  destruct (lc_step_inv s1 s2 Hst (conj Hwf Hone)). by apply IH.
Qed.

(** C3: refinement of the specification by the atomic
    implementation: a run of probes that succeeds leaves the incident
    table exactly where the specification's transitions take it, with
    the ids the store handed out. *)
Theorem run_probes_refines ps s s' :
  inc_wf s -> at_most_one (inc_view s) -> run_probes ps s = (Ok tt, s') ->
  exists fs, length fs = length ps /\ inc_view s' = spec_run inc_time (inc_view s) ps fs.
Proof.
  revert s. induction ps as [|p ps IH]; intros s Hwf Hone.
  - cbn. intros [= <-]. by exists [].
  - cbn. unfold op_bind at 1. destruct (record_probe p s) as [[u|e] s1] eqn:E; [|done].
    intros Hrun. destruct (record_probe_step p s (Ok u) s1 Hwf Hone E) as [Hwf1 [f Hv]].
    assert (Hone1 : at_most_one (inc_view s1)) by (rewrite Hv; by apply spec_transition_at_most_one).
    destruct (IH s1 Hwf1 Hone1 Hrun) as (fs & Hlen & Hfs).
    exists (f :: fs). split; [cbn; lia|]. by rewrite Hfs, Hv.
Qed.

(** C16: after a probe is recorded, the probed target's health
    follows the table of spec 4.2 (healthy and failing: unhealthy;
    unhealthy and succeeding: healthy; otherwise unchanged) and every
    other target keeps its health. *)
Theorem record_probe_health p s s' u tid :
  inc_wf s -> at_most_one (inc_view s) -> record_probe p s = (Ok u, s') ->
  health tid (inc_view s')
  = if (tid =? pr_target p)%Z then spec_health_step (health (pr_target p) (inc_view s)) (pr_success p)
    else health tid (inc_view s).
Proof.
  intros Hwf Hone E. destruct (record_probe_step p s (Ok u) s' Hwf Hone E) as [_ [f ->]].
  apply health_spec_transition.
Qed.

(** C17: a manual resolution always clears the ongoing slot:
    after the operator resolves the ongoing incident of a target, the
    next failing probe of that target is decided as opening a new
    incident. *)
Theorem manual_resolve_reopens s s' j t p :
  inc_wf s -> ongoing_ids (pr_target p) (inc_view s) = [j] ->
  inc_resolve j t s = (Ok tt, s') -> pr_success p = false ->
  ongoing_ids (pr_target p) (inc_view s') = [] /\ decide_probe p s' = OpenFor p.
Proof.
  intros Hwf Ho E Hf. destruct (inc_resolve_ok _ _ _ _ Hwf E) as [_ Hv].
  assert (Hempty : ongoing_ids (pr_target p) (inc_view s') = []).
  { rewrite Hv, ongoing_ids_resolve_id, Ho. rewrite filter_cons_False; [done|]. by intros []. }
  split; [done|]. unfold decide_probe. by rewrite Hf, Hempty.
Qed.

(** C18: spec 8's scenario: on a healthy target, a failing
    probe followed by a succeeding one leaves exactly one new incident,
    resolved, starting at the failing probe's time and ending at the
    succeeding probe's time (as the store keeps times). *)
Theorem fail_then_success s s' tid t1 t2 r1 r2 :
  inc_wf s -> at_most_one (inc_view s) -> ongoing_ids tid (inc_view s) = [] ->
  run_probes [mkProbe tid false t1 r1; mkProbe tid true t2 r2] s = (Ok tt, s') ->
  exists j, inc_view s' = inc_view s ++ [(j, mkAInc tid (inc_time t1) (Some (inc_time t2)) resolved r1)].
Proof.
  intros Hwf Hone Ho E. destruct (run_probes_refines _ s s' Hwf Hone E) as ([|f1 [|f2 fs]] & Hlen & ->);
    [done|done|]. exists f1. cbn [spec_run].
  assert (E1 : spec_transition (inc_view s) (mkProbe tid false t1 r1) (inc_time t1) f1
               = inc_view s ++ [(f1, mkAInc tid (inc_time t1) None ongoing r1)])
    by (unfold spec_transition; cbn [pr_success pr_target pr_reason]; by rewrite Ho).
  cbn [pr_time]. rewrite E1. unfold spec_transition. cbn [pr_success pr_target].
  rewrite ongoing_ids_app, Ho, ongoing_ids_cons, is_ongoing_of_new, Z.eqb_refl. cbn [app].
  rewrite map_app, resolve_ongoing_healthy by done. cbn [map].
  unfold resolve_ongoing. cbn [fst snd]. rewrite is_ongoing_of_new, Z.eqb_refl. reflexivity.
Qed.
(** C10: spec 4.2's failure semantics.  From a well-formed
    store with at most one ongoing incident per target, in which only
    the most recent incident of a target can be ongoing, every sequence
    of atomic probe evaluations and manual resolutions keeps that
    property, so the health the machine tracks is, for every target,
    the one reconstructed after a restart: unhealthy iff the target's
    most recent incident row is ongoing. *)
Theorem lifecycle_restart s s' :
  inc_wf s -> at_most_one (inc_view s) -> only_last_ongoing (inc_view s) -> rtc lc_step s s' ->
  only_last_ongoing (inc_view s') /\ forall tid, health tid (inc_view s') = reconstruct tid (inc_view s').
Proof.
  intros Hwf Hone Hv Hrtc. revert Hwf Hone Hv.
  induction Hrtc as [s|s1 s2 s3 Hst _ IH]; intros Hwf Hone Hv.
  - split; [done|]. intros tid. by apply health_reconstruct.
  - pose proof (lc_step_last s1 s2 Hst Hwf Hone Hv) as Hv2.
    destruct (lc_step_inv s1 s2 Hst (conj Hwf Hone)) as [Hwf2 Hone2]. by apply IH.
Qed.

End MachineTheory.

(** ** The code's incident table as an [IncidentStore] *)

(** A row of the incidents table as the specification's Incident. *)
Definition inc_abs (r : Incident.t) : AInc :=
  mkAInc (Incident.targetId r) (Incident.startTime r) (Incident.endTime r) (Incident.status r)
    (Incident.reason r).

Definition code_view (s : Server) : list (Z * AInc) :=
  map (fun r => (Incident.id r, inc_abs r)) (incidents (db s)).

(** Opening: [createIncident({ targetId, startTime, reason, status: "ongoing" })],
    answering the [insertId]. *)
Definition code_open (tid t : Z) (r : option string) : Op Server Z :=
  h <- createIncident (Incident.mkInsert tid t r (Some ongoing)) ;; op_ret (insertId h).

(** Resolving: [updateIncident(id, { status: "resolved", endTime })]. *)
Definition code_resolve (j t : Z) : Op Server unit :=
  _ <- updateIncident j (Incident.mkPatch (Some resolved) (Some t)) ;; op_ret tt.

Lemma code_view_ids s : map fst (code_view s) = map Incident.id (incidents (db s)).
Proof. unfold code_view. by rewrite map_map. Qed.

Lemma inc_abs_touch_resolved c t r :
  inc_abs (touch_incident c (Incident.mkPatch (Some resolved) (Some t)) r) = resolved_at (ts_round t) (inc_abs r).
Proof.
  unfold touch_incident. case_decide as E; [|reflexivity].
  rewrite <- E at 1. reflexivity.
Qed.

Lemma code_wf_nodup s : Db_wf (db s) -> NoDup (map fst (code_view s)).
Proof. intros (_ & _ & _ & Hnd & _). by rewrite code_view_ids. Qed.

Lemma code_open_ok tid t r s j s' :
  Db_wf (db s) -> code_open tid t r s = (Ok j, s') ->
  Db_wf (db s') /\ (j ∉ map fst (code_view s))
  /\ code_view s' = code_view s ++ [(j, mkAInc tid (ts_round t) None ongoing r)].
Proof.
  intros Hwf E. unfold code_open, op_bind in E.
  destruct (createIncident _ s) as [[h|e] s1] eqn:C; [|done]. injection E as <- <-.
  destruct (createIncident_ok _ _ _ _ C) as [Hi Hid].
  pose proof (run_call_wf (CreateIncident (Incident.mkInsert tid t r (Some ongoing))) s Hwf) as W.
  unfold final in W. cbn in W. rewrite C in W. split_and!; [done| |].
  - rewrite Hid, code_view_ids. destruct Hwf as (_ & _ & _ & _ & Hall & _).
    intros (r0 & Heq & Hr0)%list_elem_of_fmap. rewrite Forall_forall in Hall.
    specialize (Hall r0 Hr0). lia.
  - unfold code_view. rewrite Hi, map_app, Hid. reflexivity.
Qed.

Lemma code_open_err tid t r s e s' :
  Db_wf (db s) -> code_open tid t r s = (Throw e, s') -> Db_wf (db s') /\ code_view s' = code_view s.
Proof.
  intros Hwf E. unfold code_open, op_bind in E.
  destruct (createIncident _ s) as [[h|e'] s1] eqn:C; [done|]. injection E as <- <-.
  pose proof (run_call_throw_db (CreateIncident (Incident.mkInsert tid t r (Some ongoing))) s e' s1 C) as D.
  unfold code_view. by rewrite D.
Qed.

Lemma code_resolve_ok j t s s' :
  Db_wf (db s) -> code_resolve j t s = (Ok tt, s') ->
  Db_wf (db s') /\ code_view s' = map (resolve_id j (ts_round t)) (code_view s).
Proof.
  intros Hwf E. unfold code_resolve, op_bind in E.
  destruct (updateIncident _ _ s) as [[h|e] s1] eqn:C; [|done]. injection E as <-.
  pose proof (run_call_wf (UpdateIncident j (Incident.mkPatch (Some resolved) (Some t))) s Hwf) as W.
  unfold final in W. cbn in W. rewrite C in W. split; [done|].
  unfold code_view. rewrite (updateIncident_ok _ _ _ _ _ C), !map_map. apply map_ext. intros r0.
  unfold resolve_id. cbn [fst snd]. destruct (Incident.id r0 =? j)%Z eqn:Ej; [|reflexivity].
  by rewrite touch_incident_id, inc_abs_touch_resolved.
Qed.

Lemma code_resolve_err j t s e s' :
  Db_wf (db s) -> code_resolve j t s = (Throw e, s') -> Db_wf (db s') /\ code_view s' = code_view s.
Proof.
  intros Hwf E. unfold code_resolve, op_bind in E.
  destruct (updateIncident _ _ s) as [[h|e'] s1] eqn:C; [done|]. injection E as <- <-.
  pose proof (run_call_throw_db (UpdateIncident j (Incident.mkPatch (Some resolved) (Some t))) s e' s1 C) as D.
  unfold code_view. by rewrite D.
Qed.

(** The code's [createIncident] and [updateIncident] implement the
    interface, the store keeping times rounded to the second. *)
#[export] Instance code_store : IncidentStore Server := {|
  inc_view := code_view;
  inc_wf s := Db_wf (db s);
  inc_time := ts_round;
  inc_open := code_open;
  inc_resolve := code_resolve;
  inc_wf_nodup := code_wf_nodup;
  inc_open_ok := code_open_ok;
  inc_open_err := code_open_err;
  inc_resolve_ok := code_resolve_ok;
  inc_resolve_err := code_resolve_err
|}.

(** ** Probes for the examples: spec 8's target with a timeout at t1
    and a success at t2, and a second failure one second after t1. *)

Definition probe_t1 : Probe := mkProbe 1 false (T0 + 300000) (Some "timeout").
Definition probe_t2 : Probe := mkProbe 1 true (T0 + 600000) None.
Definition probe_t1' : Probe := mkProbe 1 false (T0 + 301000) None.

Definition after_t1 : Server := snd (record_probe probe_t1 demo_server).
Definition after_t2 : Server := snd (record_probe probe_t2 after_t1).

Lemma demo_server_inc_wf : inc_wf demo_server /\ at_most_one (inc_view demo_server).
Proof. split; [exact demo_db_wf|]. intros tid. cbn. lia. Qed.

Lemma after_t1_inc_wf : inc_wf after_t1 /\ at_most_one (inc_view after_t1).
Proof.
  apply (lc_step_inv demo_server); [|exact demo_server_inc_wf].
  apply (lc_probe probe_t1 demo_server _ (fst (record_probe probe_t1 demo_server))).
  apply surjective_pairing.
Qed.

(** The demo run: a failing probe, then a succeeding one. *)
Lemma demo_run : rtc lc_step demo_server after_t2.
Proof.
  eapply rtc_l; [apply (lc_probe probe_t1 demo_server _ (fst (record_probe probe_t1 demo_server)));
                 apply surjective_pairing|].
  eapply rtc_l; [apply (lc_probe probe_t2 after_t1 _ (fst (record_probe probe_t2 after_t1)));
                 apply surjective_pairing|].
  apply rtc_refl.
Qed.

Lemma lifecycle_at_most_one_witness :
  rtc lc_step demo_server after_t2 /\ inc_wf after_t2 /\ at_most_one (inc_view after_t2).
Proof.
  pose proof demo_run as Hr.
  split; [exact Hr|].
  exact (lifecycle_at_most_one demo_server after_t2 (proj1 demo_server_inc_wf) (proj2 demo_server_inc_wf) Hr).
Defined.

Lemma run_probes_refines_witness :
  run_probes [probe_t1; probe_t2] demo_server = (Ok tt, snd (run_probes [probe_t1; probe_t2] demo_server))
  /\ exists fs, length fs = 2
     /\ inc_view (snd (run_probes [probe_t1; probe_t2] demo_server))
        = spec_run inc_time (inc_view demo_server) [probe_t1; probe_t2] fs.
Proof.
  assert (E : run_probes [probe_t1; probe_t2] demo_server
              = (Ok tt, snd (run_probes [probe_t1; probe_t2] demo_server))) by (vm_compute; reflexivity).
  split; [exact E|].
  exact (run_probes_refines [probe_t1; probe_t2] demo_server _
           (proj1 demo_server_inc_wf) (proj2 demo_server_inc_wf) E).
Defined.

Lemma record_probe_health_witness :
  record_probe probe_t1 demo_server = (Ok tt, after_t1)
  /\ health 1 (inc_view after_t1)
     = if (1 =? pr_target probe_t1)%Z
       then spec_health_step (health (pr_target probe_t1) (inc_view demo_server)) (pr_success probe_t1)
       else health 1 (inc_view demo_server).
Proof.
  assert (E : record_probe probe_t1 demo_server = (Ok tt, after_t1)) by (vm_compute; reflexivity).
  split; [exact E|].
  exact (record_probe_health probe_t1 demo_server after_t1 tt 1
           (proj1 demo_server_inc_wf) (proj2 demo_server_inc_wf) E).
Defined.

Lemma manual_resolve_reopens_witness :
  ongoing_ids 1 (inc_view after_t1) = [1%Z]
  /\ inc_resolve 1 (T0 + 400000) after_t1 = (Ok tt, snd (inc_resolve 1 (T0 + 400000) after_t1))
  /\ ongoing_ids (pr_target probe_t1') (inc_view (snd (inc_resolve 1 (T0 + 400000) after_t1))) = []
  /\ decide_probe probe_t1' (snd (inc_resolve 1 (T0 + 400000) after_t1)) = OpenFor probe_t1'.
Proof.
  assert (Ho : ongoing_ids 1 (inc_view after_t1) = [1%Z]) by (vm_compute; reflexivity).
  assert (E : inc_resolve 1 (T0 + 400000) after_t1 = (Ok tt, snd (inc_resolve 1 (T0 + 400000) after_t1)))
    by (vm_compute; reflexivity).
  split; [exact Ho|]. split; [exact E|].
  exact (manual_resolve_reopens after_t1 _ 1 (T0 + 400000) probe_t1' (proj1 after_t1_inc_wf) Ho E eq_refl).
Defined.

Lemma fail_then_success_witness :
  run_probes [probe_t1; probe_t2] demo_server = (Ok tt, snd (run_probes [probe_t1; probe_t2] demo_server))
  /\ exists j, inc_view (snd (run_probes [probe_t1; probe_t2] demo_server))
               = inc_view demo_server
                 ++ [(j, mkAInc 1 (inc_time (T0 + 300000)) (Some (inc_time (T0 + 600000))) resolved
                           (Some "timeout"))].
Proof.
  assert (E : run_probes [probe_t1; probe_t2] demo_server
              = (Ok tt, snd (run_probes [probe_t1; probe_t2] demo_server))) by (vm_compute; reflexivity).
  split; [exact E|].
  exact (fail_then_success demo_server _ 1 (T0 + 300000) (T0 + 600000) (Some "timeout") None
           (proj1 demo_server_inc_wf) (proj2 demo_server_inc_wf) eq_refl E).
Defined.

Lemma lifecycle_restart_witness :
  inc_wf demo_server /\ at_most_one (inc_view demo_server) /\ only_last_ongoing (inc_view demo_server)
  /\ rtc lc_step demo_server after_t2
  /\ (only_last_ongoing (inc_view after_t2) /\ forall tid, health tid (inc_view after_t2) = reconstruct tid (inc_view after_t2)).
Proof.
  assert (Hv : only_last_ongoing (inc_view demo_server)) by (intros tid; constructor).
  refine (conj (proj1 demo_server_inc_wf) (conj (proj2 demo_server_inc_wf) (conj Hv (conj demo_run _)))).
  exact (lifecycle_restart demo_server after_t2 (proj1 demo_server_inc_wf) (proj2 demo_server_inc_wf) Hv demo_run).
Defined.
