(* ===== verification/Aggregator.v ===== *)
(** * Aggregator: the uptime rollup of spec 4.3

    The repository writes uptime-history buckets only through
    [history.create] ([createUptimeRecord], db.ts), which inserts
    whatever the caller sends.  The rollup of spec 4.3 is not in the
    code; this file models it from the specification, on top of the
    code's check and uptime tables:

    - [bucket_start] aligns a time on the calendar hour or day (UTC,
      that is on multiples of the period since the epoch);
    - [bucket_of] computes a bucket's totals as spec 3 and 4.1 say:
      the percentage rounded half up to hundredths, 100.00 for an empty
      bucket, the average over the checks that carry a response time
      (truncated, as spec 8's example 107 for 107.5 shows);
    - [rollup] reads the checks of the bucket and upserts the row keyed
      by (target, period, bucket start): an UPDATE of the rows with that
      key, or an INSERT when there is none, both with the code's column
      checks ([update_rows], [insert_row] of Store).

    The file also compares the spec's rounding with the code's:
    [uptime_stats] (db.ts [calculateTargetUptime]) computes the
    percentage with doubles, [toFixed(2)] and [parseFloat]; by the
    rounding-error lemmas of [Binary64] the two agree except where the
    exact percentage is a midpoint ([is_midpoint]). *)

From S2P Require Import Prelude Schema Store Binary64 Status Router.

Definition period_ms (p : Period) : Z :=
  match p with hourly => 3600000 | daily => 86400000 end.

(** Calendar alignment in UTC: the start of the hour or day holding [t]. *)
Definition bucket_start (p : Period) (t : Z) : Z := (t - t mod period_ms p)%Z.

(** The checks of a target in [[start, start + period)). *)
Definition window_checks (tid start len : Z) (cs : list MonitoringCheck.t) : list MonitoringCheck.t :=
  filter (fun c => (MonitoringCheck.targetId c =? tid)%Z && (start <=? MonitoringCheck.checkedAt c)%Z
                   && (MonitoringCheck.checkedAt c <? start + len)%Z) cs.

(** [round(100 * s / n, 2)] in hundredths, half up; 100.00 when [n = 0]. *)
Definition pct_hundredths (s n : Z) : Z :=
  if (n =? 0)%Z then 10000%Z else ((20000 * s + n) / (2 * n))%Z.

(** The mean over the checks that carry a response time. *)
Definition avg_response (cs : list MonitoringCheck.t) : option Z :=
  match omap MonitoringCheck.responseTime cs with
  | [] => None
  | rts => Some (foldr Z.add 0%Z rts / Z.of_nat (length rts))%Z
  end.

Record Bucket := mkBucket {
  b_total : Z;
  b_successful : Z;
  b_pct : Z;
  b_avg : option Z
}.

Definition bucket_of (cs : list MonitoringCheck.t) : Bucket :=
  let n := Z.of_nat (length cs) in
  let s := Z.of_nat (length (filter is_successful cs)) in
  mkBucket n s (pct_hundredths s n) (avg_response cs).

(** The key of a bucket row: (target, period, bucket timestamp). *)
Definition key_match (tid : Z) (per : string) (ts : Z) (r : UptimeHistory.t) : bool :=
  (UptimeHistory.targetId r =? tid)%Z && String.eqb (UptimeHistory.period r) per
  && (UptimeHistory.timestamp r =? ts)%Z.

(** The totals of a row replaced by those of a bucket. *)
Definition set_bucket (b : Bucket) (r : UptimeHistory.t) : UptimeHistory.t :=
  UptimeHistory.mk (UptimeHistory.id r) (UptimeHistory.targetId r) (UptimeHistory.period r)
    (UptimeHistory.timestamp r) (b_total b) (b_successful b) (b_pct b) (b_avg b)
    (UptimeHistory.createdAt r).

Definition bucket_row (newId : Z) (tid : Z) (per : string) (ts now : Z) (b : Bucket) : UptimeHistory.t :=
  UptimeHistory.mk newId tid per ts (b_total b) (b_successful b) (b_pct b) (b_avg b) (ts_now now).

(** The database with its uptime table and counter replaced. *)
Definition with_uptime (d : Db) (rows : list UptimeHistory.t) (next : Z) : Db :=
  mkDb (targets d) (checks d) rows (incidents d) (next_target_id d) (next_check_id d) next (next_incident_id d).

(** [rollup(targetId, periodKind, bucketStart, bucketEnd)] for the
    bucket holding [t]: read the checks, then replace or insert. *)
Definition rollup (tid : Z) (p : Period) (t : Z) : Op Server unit :=
  with_db not_available
    (d <- read_db ;; now_ <- now ;;
     let start := bucket_start p t in
     let b := bucket_of (window_checks tid start (period_ms p) (checks d)) in
     let per := period_str p in
     match filter (key_match tid per start) (uptime d) with
     | [] =>
         ins <- lift (insert_row UptimeHistory.valid (next_uptime_id d) (uptime d)
                        (bucket_row (next_uptime_id d) tid per start now_ b)) ;;
         let '(rows, next) := ins in
         write_db (with_uptime d rows next)
     | _ =>
         upd <- lift (update_rows UptimeHistory.valid (key_match tid per start) (set_bucket b) (uptime d)) ;;
         let '(rows, _) := upd in
         write_db (with_uptime d rows (next_uptime_id d))
     end).

(** Spec 3: one bucket row per (target, period, timestamp). *)
Definition keys_unique (rows : list UptimeHistory.t) : Prop :=
  forall tid per ts, length (filter (key_match tid per ts) rows) <= 1.

(** A window of 160 checks of target 1, 23 of them successful. *)
Definition window_23_of_160 : list MonitoringCheck.t :=
  map (fun k => demo_check k 1 true (Some 100%Z) (T0 + k)) (seqZ 1 23)
  ++ map (fun k => demo_check k 1 false None (T0 + k)) (seqZ 24 137).

(** The code's percentage, in hundredths, before [parseFloat]. *)
Definition code_pct (s n : Z) : Z := toFixed2 (fmul (fdiv (of_Z s) (of_Z n)) (of_Z 100)).

(** The exact percentage [100 * s / n] lies half-way between two
    hundredths: a tie for the rounding. *)
Definition is_midpoint (b : Bucket) : bool :=
  ((20000 * b_successful b + b_total b) mod (2 * b_total b) =? 0)%Z.

(** The key and the bucket [rollup tid p t] works on. *)
Definition rollup_key (tid : Z) (p : Period) (t : Z) : UptimeHistory.t -> bool :=
  key_match tid (period_str p) (bucket_start p t).
Definition rollup_bucket (tid : Z) (p : Period) (t : Z) (d : Db) : Bucket :=
  bucket_of (window_checks tid (bucket_start p t) (period_ms p) (checks d)).

(** Rows that an UPDATE leaves as they are. *)
Definition settled {R} (valid sel : R -> bool) (f : R -> R) (rows : list R) : Prop :=
  Forall (fun r => sel r = true -> f r = r /\ valid r = true) rows.

(** ** Lemmas *)

Lemma set_bucket_idem b r : set_bucket b (set_bucket b r) = set_bucket b r.
Proof. reflexivity. Qed.

Lemma key_match_set_bucket tid per ts b r : key_match tid per ts (set_bucket b r) = key_match tid per ts r.
Proof. reflexivity. Qed.

Lemma length_filter_map_same {A} (P : A -> bool) (g : A -> A) (rows : list A) :
  (forall r, P (g r) = P r) -> length (filter P (map g rows)) = length (filter P rows).
Proof.
  intros Hg. induction rows as [|r rows IH]; [done|]. cbn [map]. rewrite !filter_cons, Hg.
  case_decide; cbn [length]; [f_equal|]; exact IH.
Qed.

(** An UPDATE whose new values are a fixpoint of the change, and which
    keeps the selection, is idempotent. *)
Lemma update_rows_idem {R} (valid : R -> bool) sel f rows rows' n :
  (forall r, sel (f r) = sel r) -> (forall r, f (f r) = f r) ->
  update_rows valid sel f rows = Ok (rows', n) -> update_rows valid sel f rows' = Ok (rows', n).
Proof.
  intros Hsel Hf. set (h := fun r => if sel r then f r else r).
  assert (Hsh : forall r, sel (h r) = sel r) by (intros r; unfold h; destruct (sel r) eqn:E; [by rewrite Hsel|done]).
  assert (Hhh : forall r, h (h r) = h r) by (intros r; unfold h; destruct (sel r) eqn:E; [by rewrite Hsel, E, Hf|by rewrite E]).
  unfold update_rows. fold h. destruct (forallb _ rows) eqn:Hok; [|done]. intros [= <- <-].
  assert (Hok' : forallb (fun r => negb (sel r) || valid (f r)) (map h rows) = true).
  { apply forallb_forall. intros r' (r & <- & Hr)%in_map_iff. rewrite forallb_forall in Hok.
    specialize (Hok r Hr). unfold h. destruct (sel r) eqn:E; [by rewrite Hsel, E, Hf|by rewrite E]. }
  rewrite Hok', map_map, (map_ext _ h Hhh), length_filter_map_same by exact Hsh. reflexivity.
Qed.

Lemma db_available_set_db_handle s d : db_available (set_db (set_handle s true) d) = true.
Proof. reflexivity. Qed.

Lemma pct_hundredths_bounds s n : (0 <= s <= n)%Z -> (0 <= pct_hundredths s n <= 10000)%Z.
Proof.
  intros Hs. unfold pct_hundredths. destruct (Z.eqb_spec n 0); [lia|].
  split; [apply Z.div_pos; lia|].
  enough (((20000 * s + n) / (2 * n)) < 10001)%Z by lia. apply Z.div_lt_upper_bound; lia.
Qed.

(** Away from midpoints the code's double rounding is the spec's. *)
Lemma code_pct_eq s n :
  (1 <= n < 2 ^ 31)%Z -> (0 <= s <= n)%Z -> ((20000 * s + n) mod (2 * n))%Z <> 0%Z ->
  code_pct s n = pct_hundredths s n.
Proof.
  intros Hn Hs Ht. unfold code_pct, pct_hundredths. rewrite (proj2 (Z.eqb_neq n 0)) by lia.
  by apply toFixed2_percentage.
Qed.

Lemma key_match_spec tid per ts r :
  key_match tid per ts r = true <->
  UptimeHistory.targetId r = tid /\ UptimeHistory.period r = per /\ UptimeHistory.timestamp r = ts.
Proof. unfold key_match. rewrite !andb_true_iff, !Z.eqb_eq, String.eqb_eq. tauto. Qed.

Lemma key_match_bucket_row i tid per ts now_ b : key_match tid per ts (bucket_row i tid per ts now_ b) = true.
Proof. by apply key_match_spec. Qed.

Lemma update_rows_settled {R} (valid sel : R -> bool) f rows :
  settled valid sel f rows -> update_rows valid sel f rows = Ok (rows, Z.of_nat (length (filter sel rows))).
Proof.
  intros H. unfold update_rows.
  replace (forallb _ rows) with true.
  2: { symmetry. apply forallb_forall. intros r Hr. eapply Forall_forall in H; [|by apply list_elem_of_In].
       destruct (sel r); [destruct (H eq_refl) as [-> ->]|]; done. }
  replace (map _ rows) with rows; [done|].
  induction H as [|r rows Hr _ IH]; [done|]. cbn [map]. rewrite <- IH.
  destruct (sel r); [by rewrite (proj1 (Hr eq_refl))|done].
Qed.

Lemma settled_update {R} (valid sel : R -> bool) f rows rows' n :
  (forall r, sel (f r) = sel r) -> (forall r, f (f r) = f r) ->
  update_rows valid sel f rows = Ok (rows', n) -> settled valid sel f rows'.
Proof.
  intros Hsel Hf. unfold update_rows. destruct (forallb _ rows) eqn:Hok; [|done]. intros [= <- _].
  apply Forall_forall. intros r' (r & <- & Hr)%list_elem_of_In%in_map_iff.
  rewrite forallb_forall in Hok. specialize (Hok r Hr).
  destruct (sel r) eqn:E; [rewrite Hsel, E, Hf|rewrite E]; [|done]. intros _. split; [done|exact Hok].
Qed.

Lemma settled_insert {R} (valid sel : R -> bool) f next rows row rows' next' :
  filter sel rows = [] -> f row = row ->
  insert_row valid next rows row = Ok (rows', next') -> settled valid sel f rows'.
Proof.
  intros Hnil Hf. unfold insert_row. destruct (next <=? INT_MAX)%Z; simpl; [|done].
  destruct (valid row) eqn:Hv; [|done]. intros [= <- _].
  apply Forall_app. split; [|constructor; [by intros _; split|constructor]].
  apply Forall_forall. intros r Hr Hs. exfalso. refine (filter_nil_not_elem_of _ _ r Hnil _ Hr). by rewrite Hs.
Qed.

Lemma key_match_update tid per ts sel b r :
  key_match tid per ts (if sel r : bool then set_bucket b r else r) = key_match tid per ts r.
Proof. by destruct (sel r). Qed.

(** Every outcome of [rollup]: a throw that leaves the tables alone, the
    INSERT of a new bucket row, or the UPDATE of the rows with its key. *)
Lemma rollup_cases tid p t s r s' :
  rollup tid p t s = (r, s') ->
  (exists e, r = Throw e /\ db s' = db s)
  \/ (r = Ok tt /\ db_available s = true /\ exists rows next,
       s' = set_db (set_handle s true) (with_uptime (db s) rows next)
       /\ (filter (rollup_key tid p t) (uptime (db s)) = []
           /\ insert_row UptimeHistory.valid (next_uptime_id (db s)) (uptime (db s))
                (bucket_row (next_uptime_id (db s)) tid (period_str p) (bucket_start p t) (clock s)
                   (rollup_bucket tid p t (db s))) = Ok (rows, next)
          \/ filter (rollup_key tid p t) (uptime (db s)) <> [] /\ next = next_uptime_id (db s)
           /\ exists n, update_rows UptimeHistory.valid (rollup_key tid p t)
                          (set_bucket (rollup_bucket tid p t (db s))) (uptime (db s)) = Ok (rows, n))).
Proof.
  unfold rollup, rollup_key, rollup_bucket. rewrite with_db_spec.
  destruct (db_available s) eqn:Ha.
  2: { unfold not_available, op_throw. intros [= <- <-]. left. by eexists. }
  run_db. destruct (filter _ (uptime (db s))) as [|r0 rs] eqn:Hf.
  - destruct (insert_row _ _ _ _) as [[rows next]|e] eqn:Hi; intros [= <- <-].
    + right. split_and!; [done|done|]. exists rows, next. split; [done|]. by left.
    + left. eexists. split; [done|apply set_handle_db].
  - destruct (update_rows _ _ _ _) as [[rows n]|e] eqn:Hu; intros [= <- <-].
    + right. split_and!; [done|done|]. exists rows, (next_uptime_id (db s)). split; [done|].
      right. split_and!; [done|done|by exists n].
    + left. eexists. split; [done|apply set_handle_db].
Qed.

Lemma rollup_ok tid p t s s' :
  rollup tid p t s = (Ok tt, s') ->
  exists rows next, s' = set_db (set_handle s true) (with_uptime (db s) rows next)
    /\ filter (rollup_key tid p t) rows <> []
    /\ settled UptimeHistory.valid (rollup_key tid p t) (set_bucket (rollup_bucket tid p t (db s))) rows.
Proof.
  intros [(e & [=] & _)|(_ & _ & rows & next & -> & Hcase)]%rollup_cases.
  exists rows, next. split; [done|]. destruct Hcase as [[Hf Hi]|(Hf & _ & n & Hu)].
  - split; [|eapply settled_insert; [exact Hf| |exact Hi]; reflexivity].
    unfold insert_row in Hi. repeat case_match; simplify_eq.
    rewrite filter_app, Hf, filter_cons_True, filter_nil; [done|]. unfold rollup_key. by rewrite key_match_bucket_row.
  - split; [|eapply settled_update; [intros; apply key_match_set_bucket|intros; apply set_bucket_idem|exact Hu]].
    unfold update_rows in Hu. case_match; simplify_eq. intros Hnil%(f_equal length).
    rewrite length_filter_map_same in Hnil; [|intros; apply key_match_update].
    apply Hf, nil_length_inv, Hnil.
Qed.

Lemma keys_unique_snoc rows row :
  keys_unique rows ->
  filter (key_match (UptimeHistory.targetId row) (UptimeHistory.period row) (UptimeHistory.timestamp row)) rows = [] ->
  keys_unique (rows ++ [row]).
Proof.
  intros Hu Hnil tid per ts. rewrite filter_app, length_app, filter_cons, filter_nil.
  case_decide as Hk; cbn [length]; [|specialize (Hu tid per ts); lia].
  apply Is_true_eq_true, key_match_spec in Hk as (<- & <- & <-). rewrite Hnil. done.
Qed.

Lemma keys_unique_update sel b rows :
  keys_unique rows -> keys_unique (map (fun r => if sel r : bool then set_bucket b r else r) rows).
Proof.
  intros Hu tid per ts. rewrite length_filter_map_same; [apply Hu|intros; apply key_match_update].
Qed.

(** C7: the rollup is idempotent.  When [rollup tid p t] succeeds,
    running it again on the state it leaves succeeds and changes nothing:
    the second run finds the row the first one wrote, and rewriting it
    with the same bucket is the identity. *)
Theorem rollup_idempotent tid p t s s' :
  rollup tid p t s = (Ok tt, s') -> rollup tid p t s' = (Ok tt, s').
Proof.
  intros (rows & next & -> & Hne & Hset)%rollup_ok.
  unfold rollup. rewrite with_db_spec, db_available_set_db_handle. run_db.
  unfold rollup_key in Hne. destruct (filter _ rows) eqn:Hf; [done|].
  rewrite update_rows_settled by exact Hset. by destruct s.
Qed.

(** C8: the rollup keeps the store well formed and the bucket keys
    unique.  From a state whose tables satisfy [Db_wf] and whose uptime
    rows have pairwise distinct (target, period, timestamp) keys, every
    outcome of [rollup], error or success, leaves a state with both
    properties. *)
Theorem rollup_wf tid p t s :
  Db_wf (db s) -> keys_unique (uptime (db s)) ->
  Db_wf (db (snd (rollup tid p t s))) /\ keys_unique (uptime (db (snd (rollup tid p t s)))).
Proof.
  intros Hwf Hu. destruct (rollup tid p t s) as [r s'] eqn:E. cbn [snd].
  apply rollup_cases in E as [(e & _ & ->)|(_ & _ & rows & next & -> & Hcase)]; [done|].
  destruct Hwf as (W1 & W2 & W3 & W4). unfold Db_wf.
  cbn [db set_db set_handle with_uptime targets checks uptime incidents next_target_id next_check_id next_uptime_id next_incident_id].
  destruct Hcase as [[Hf Hi]|(Hf & -> & n & Hup)].
  - split; [split_and!; [done|done|eapply insert_row_wf; [exact W3| |exact Hi]; reflexivity|done]|].
    unfold insert_row in Hi. repeat case_match; simplify_eq. by apply keys_unique_snoc.
  - split; [split_and!; [done|done|eapply update_rows_wf; [|exact W3|exact Hup]; reflexivity|done]|].
    unfold update_rows in Hup. case_match; simplify_eq. by apply keys_unique_update.
Qed.

Lemma uptime_stats_pct tid cs :
  uptimePercentage (uptime_stats tid cs)
  = parseFloat_hundredths (code_pct (Z.of_nat (length (filter is_successful cs))) (Z.of_nat (length cs))).
Proof. reflexivity. Qed.

Lemma successful_le_total cs : (0 <= Z.of_nat (length (filter is_successful cs)) <= Z.of_nat (length cs))%Z.
Proof. pose proof (length_filter is_successful cs). lia. Qed.

(** C27: a bucket's counts and percentage are in range.  The
    successful count is between 0 and the total, the percentage is
    between 0.00 and 100.00, and it is exactly 100.00 when every check of
    the bucket succeeded, the empty bucket included. *)
Theorem bucket_of_bounds cs :
  (0 <= b_successful (bucket_of cs) <= b_total (bucket_of cs))%Z
  /\ (0 <= b_pct (bucket_of cs) <= 10000)%Z
  /\ (b_successful (bucket_of cs) = b_total (bucket_of cs) -> b_pct (bucket_of cs) = 10000%Z).
Proof.
  pose proof (successful_le_total cs) as Hs. unfold bucket_of. cbn [b_successful b_total b_pct].
  split_and!; [lia|lia|apply pct_hundredths_bounds; lia|apply pct_hundredths_bounds; lia|].
  intros ->. unfold pct_hundredths. destruct (Z.eqb_spec (Z.of_nat (length cs)) 0); [done|].
  symmetry. apply (Z.div_unique_pos _ _ _ (Z.of_nat (length cs))); lia.
Qed.

(** C9: for every non-empty selection of checks that a table with 32-bit ids can
    hold, the percentage [calculateTargetUptime] computes with doubles,
    [toFixed(2)] and [parseFloat] is the spec's
    [round(100 * successful / total, 2)], the value the rollup stores,
    unless the exact percentage is a midpoint between two hundredths. *)
Theorem uptime_rounding_equiv tid cs :
  (1 <= length cs)%nat -> (Z.of_nat (length cs) < 2 ^ 31)%Z -> is_midpoint (bucket_of cs) = false ->
  uptimePercentage (uptime_stats tid cs) = parseFloat_hundredths (b_pct (bucket_of cs)).
Proof.
  intros Hn Hn' Hm. apply Z.eqb_neq in Hm. cbn [bucket_of b_successful b_total] in Hm.
  rewrite uptime_stats_pct, code_pct_eq; [reflexivity|lia|apply successful_le_total|exact Hm].
Qed.

(** At a midpoint the two roundings can part.  With 23 successes
    among 160 checks the exact percentage is 14.375: the code computes
    the double just below it and prints 14.37, where the spec's half-up
    rounding stores 14.38. *)
Theorem rounding_diverges_160 :
  length window_23_of_160 = 160%nat /\ is_midpoint (bucket_of window_23_of_160) = true
  /\ uptimePercentage (uptime_stats 1 window_23_of_160) = parseFloat_hundredths 1437
  /\ b_pct (bucket_of window_23_of_160) = 1438%Z.
Proof. vm_compute. split_and!; reflexivity. Qed.

(** Spec 8's rollup example.  Rolling up the daily bucket
    of target 1 over its three checks (120 ms, a timeout, 95 ms) inserts
    one row with 3 checks, 2 successful, 66.67 percent and an average
    response time of 107 ms. *)
Example rollup_spec_example :
  fst (rollup 1 daily T0 demo_server) = Ok tt
  /\ uptime (db (snd (rollup 1 daily T0 demo_server)))
     = [UptimeHistory.mk 1 1 "daily" 1699920000000 3 2 6667 (Some 107%Z) (T0 + 900000)].
Proof. vm_compute. split; reflexivity. Qed.

Lemma uptime_rounding_equiv_witness :
  (1 <= length (checks demo_db))%nat /\ (Z.of_nat (length (checks demo_db)) < 2 ^ 31)%Z
  /\ is_midpoint (bucket_of (checks demo_db)) = false
  /\ uptimePercentage (uptime_stats 1 (checks demo_db)) = parseFloat_hundredths (b_pct (bucket_of (checks demo_db))).
Proof.
  split_and!; [cbn; lia|cbn; lia|vm_compute; reflexivity|].
  apply uptime_rounding_equiv; [cbn; lia|cbn; lia|vm_compute; reflexivity].
Defined.

Lemma rollup_idempotent_witness :
  rollup 1 daily T0 demo_server = (Ok tt, snd (rollup 1 daily T0 demo_server))
  /\ rollup 1 daily T0 (snd (rollup 1 daily T0 demo_server)) = (Ok tt, snd (rollup 1 daily T0 demo_server)).
Proof.
  assert (E : rollup 1 daily T0 demo_server = (Ok tt, snd (rollup 1 daily T0 demo_server))) by (vm_compute; reflexivity).
  split; [exact E|exact (rollup_idempotent _ _ _ _ _ E)].
Defined.

Lemma rollup_wf_witness :
  Db_wf (db demo_server) /\ keys_unique (uptime (db demo_server))
  /\ Db_wf (db (snd (rollup 1 daily T0 demo_server)))
  /\ keys_unique (uptime (db (snd (rollup 1 daily T0 demo_server)))).
Proof.
  assert (Hk : keys_unique (uptime (db demo_server))) by (intros ???; cbn; lia).
  split_and!; [exact demo_db_wf|exact Hk|exact (proj1 (rollup_wf 1 daily T0 demo_server demo_db_wf Hk))
              |exact (proj2 (rollup_wf 1 daily T0 demo_server demo_db_wf Hk))].
Defined.

Lemma bucket_of_bounds_witness :
  (b_successful (bucket_of window_23_of_160) = b_total (bucket_of window_23_of_160)
   -> b_pct (bucket_of window_23_of_160) = 10000%Z)
  /\ (0 <= b_pct (bucket_of window_23_of_160) <= 10000)%Z.
Proof. split; [exact (proj2 (proj2 (bucket_of_bounds window_23_of_160)))|exact (proj1 (proj2 (bucket_of_bounds window_23_of_160)))]. Defined.
