(* ===== verification/App.v ===== *)
(** * App: client routing, the dashboard frame and the pages without data

    [src/client/src/App.tsx] routes the browser location with wouter's
    [<Switch>]: the first [<Route>] whose [path] matches renders, none
    renders nothing.  wouter 3 compiles a route's [path] with
    [regexparam]'s [parse] (a route without [path] uses ["*"]) and tests
    the location against the regular expression it builds:
    ["^" + pattern + "\/?$"] with the flag [i].  This file models that
    compilation ([parse_segments], [parse_seg], [compile]) and the
    expression's test ([mat], [regex_test]) as a backtracking matcher
    over the location's characters, then App's two switches ([Router],
    [DashboardWrapper]).  Literal segments and the suffix after a
    parameter's ["."] are matched as plain text: the patterns of
    App.tsx hold no other regular-expression syntax.

    The same file holds the parts of the client that keep no data: the
    frame [DashboardLayout] draws around a page ([dashboard_view],
    DashboardLayout.tsx lines 63-121), the Settings page (static tabs,
    uncontrolled inputs, buttons without handlers), the [useAuth] hook
    and the server's disabled OAuth callback. *)

From S2P Require Import Prelude Schema Layout.
From Stdlib Require Import Ascii.

(** ** The regular expressions regexparam builds *)

(** The atoms of the expressions: a literal (compared under the flag
    [i]), [([^/]+?)], [( .* )], and an optional group [(?: ... )?]. *)
Inductive Atom :=
| Lit (l : list ascii)
| Seg
| Any
| Opt (body : list Atom).

(** The flag [i] canonicalises both sides with [toUpperCase]; on ASCII
    that maps [a-z] to [A-Z] and leaves every other character. *)
Definition ascii_upper (c : ascii) : ascii :=
  let n := nat_of_ascii c in
  if (97 <=? n)%nat && (n <=? 122)%nat then ascii_of_nat (n - 32) else c.

Fixpoint prefix_ci (l s : list ascii) : bool :=
  match l, s with
  | [], _ => true
  | c :: l', d :: s' => Ascii.eqb (ascii_upper c) (ascii_upper d) && prefix_ci l' s'
  | _ :: _, [] => false
  end.

(** The longest prefix without ["/"]: what [[^/]] can consume. *)
Fixpoint nonslash_len (s : list ascii) : nat :=
  match s with
  | [] => O
  | c :: s' => if Ascii.eqb c "/" then O else S (nonslash_len s')
  end.

(** The longest prefix without a line terminator: what [.] can consume. *)
Fixpoint nonline_len (s : list ascii) : nat :=
  match s with
  | [] => O
  | c :: s' => if Ascii.eqb c "010" || Ascii.eqb c "013" then O else S (nonline_len s')
  end.

(** [mat a s k]: some way of matching [a] on a prefix of [s] lets the
    continuation [k] accept the rest.  Trying every length is the
    backtracking of the regular-expression engine; a lazy or greedy
    quantifier changes which match is found first, not whether one is. *)
Fixpoint mat (a : Atom) (s : list ascii) (k : list ascii -> bool) {struct a} : bool :=
  match a with
  | Lit l => prefix_ci l s && k (drop (length l) s)
  | Seg => existsb (fun n => k (drop n s)) (seq 1 (nonslash_len s))
  | Any => existsb (fun n => k (drop n s)) (seq 0 (S (nonline_len s)))
  | Opt body =>
      (fix go (l : list Atom) (s : list ascii) {struct l} : bool :=
         match l with
         | [] => k s
         | b :: l' => mat b s (fun s' => go l' s')
         end) body s || k s
  end.

Fixpoint mat_list (l : list Atom) (s : list ascii) (k : list ascii -> bool) : bool :=
  match l with
  | [] => k s
  | a :: l' => mat a s (fun s' => mat_list l' s' k)
  end.

Definition at_end (s : list ascii) : bool := match s with [] => true | _ => false end.

(** ** regexparam's [parse(input)] (not loose) *)

(** [input.split("/")] *)
Fixpoint split_slash (l : list ascii) : list (list ascii) :=
  match l with
  | [] => [[]]
  | c :: l' =>
      if Ascii.eqb c "/" then [] :: split_slash l'
      else match split_slash l' with
           | s :: ss => (c :: s) :: ss
           | [] => [[c]]
           end
  end.

Fixpoint take_nonempty (arr : list (list ascii)) : list (list ascii) :=
  match arr with
  | (_ :: _) as tmp :: arr' => tmp :: take_nonempty arr'
  | _ => []
  end.

(** [arr[0] || arr.shift(); while (tmp = arr.shift()) ...]: the loop
    stops at the first empty segment. *)
Definition parse_segments (input : string) : list (list ascii) :=
  let arr := split_slash (String.list_ascii_of_string input) in
  let arr := match arr with [] :: rest => rest | _ => arr end in
  take_nonempty arr.

Fixpoint index_of (c : ascii) (l : list ascii) : option nat :=
  match l with
  | [] => None
  | d :: l' => if Ascii.eqb c d then Some O else option_map S (index_of c l')
  end.

(** [tmp.indexOf(c, 1)] *)
Definition index_of_from1 (c : ascii) (tmp : list ascii) : option nat :=
  match tmp with [] => None | _ :: r => option_map S (index_of c r) end.

(** One segment of the pattern. *)
Definition parse_seg (tmp : list ascii) : list Atom :=
  match tmp with
  | "*"%char :: r =>
      match r with
      | "?"%char :: _ => [Opt [Lit ["/"%char]; Any]]      (* (?:/( .* ))? *)
      | _ => [Lit ["/"%char]; Any]                        (* /( .* ) *)
      end
  | ":"%char :: _ =>
      let o := index_of_from1 "?" tmp in
      let ext := index_of_from1 "." tmp in
      match ext with
      | None =>
          match o with
          | Some _ => [Opt [Lit ["/"%char]; Seg]]         (* (?:/([^/]+?))? *)
          | None => [Lit ["/"%char]; Seg]                 (* /([^/]+?) *)
          end
      | Some e =>
          (match o with
           | Some _ => [Lit ["/"%char]; Opt [Seg]]        (* /([^/]+?)? *)
           | None => [Lit ["/"%char]; Seg]
           end) ++ [Lit (drop e tmp)]                     (* \.ext *)
      end
  | _ => [Lit ("/"%char :: tmp)]
  end.

(** ["^" + pattern + "\/?$"] *)
Definition compile (input : string) : list Atom :=
  flat_map parse_seg (parse_segments input) ++ [Opt [Lit ["/"%char]]].

Definition regex_test (input location : string) : bool :=
  mat_list (compile input) (String.list_ascii_of_string location) at_end.

(** ** App.tsx *)

(** wouter's [matchRoute]: a route without [path] matches as ["*"]. *)
Definition matchRoute (path : option string) (location : string) : bool :=
  regex_test (default "*" path) location.

(** [<Switch>]: the component of the first route that matches. *)
Fixpoint Switch {C} (routes : list (option string * C)) (location : string) : option C :=
  match routes with
  | [] => None
  | (path, c) :: rs => if matchRoute path location then Some c else Switch rs location
  end.

Inductive Page := PageNotFound | PageHome | PageTargets | PageIncidents | PageSettings.

#[export] Instance Page_eq_dec : EqDecision Page.
Proof. solve_decision. Defined.

(** The inner switch of [DashboardWrapper] (lines 22-34). *)
Definition DashboardWrapper (location : string) : option Page :=
  Switch [(Some "/", PageHome); (Some "/targets", PageTargets); (Some "/incidents", PageIncidents);
          (Some "/settings", PageSettings); (None, PageNotFound)] location.

Inductive OuterRoute := RouteNotFound | RouteDashboard.

(** What the browser shows: nothing, a page on its own, or the
    dashboard frame around what the inner switch renders. *)
Inductive Screen := Blank | Bare (p : Page) | InDashboard (p : option Page).

#[export] Instance Screen_eq_dec : EqDecision Screen.
Proof. solve_decision. Defined.

(** [Router] (lines 13-20). *)
Definition Router (location : string) : Screen :=
  match Switch [(Some "/404", RouteNotFound); (Some "/:rest*", RouteDashboard)] location with
  | None => Blank
  | Some RouteNotFound => Bare PageNotFound
  | Some RouteDashboard => InDashboard (DashboardWrapper location)
  end.

(** The href of a status or target card: [`/targets/${id}`]. *)
Definition card_href (id : Z) : string := "/targets/" ++ toString (Num id).

(** A location made of ["/"], one non-empty segment without ["/"], and
    at most one trailing ["/"]. *)
Definition one_segment (s : list ascii) : Prop :=
  exists sg, sg <> [] /\ ("/"%char ∉ sg) /\ (s = "/"%char :: sg \/ s = "/"%char :: sg ++ ["/"%char]).

(** ** The dashboard frame (DashboardLayout.tsx lines 63-121) *)

(** A sidebar entry: [isActive={location === item.path}], a link to
    [item.path] whose click calls [navigate(item.path)]. *)
Record MenuEntry := mkEntry { entry_label : string; entry_href : string; isActive : bool }.

Record DashboardView := mkDashboardView {
  sidebar_width_css : string;   (** ["--sidebar-width": `${sidebarWidth}px`] *)
  entries : list MenuEntry;
  header_text : string;
  handle_left : string          (** the resize handle's [left: `${sidebarWidth}px`] *)
}.

Definition px (w : JsNum) : string := toString w ++ "px".

Definition dashboard_view (l : Layout) : DashboardView :=
  mkDashboardView (px (sidebarWidth l))
    (map (fun it => mkEntry (label it) (path it) (String.eqb (location l) (path it))) menuItems)
    "Public Monitoring Dashboard" (px (sidebarWidth l)).

(** The whole client at a location: [DashboardLayout] reads the same
    location as the router ([useLocation]). *)
Inductive AppView := ViewBlank | ViewBare (p : Page) | ViewFramed (frame : DashboardView) (p : option Page).

Definition App (l : Layout) : AppView :=
  match Router (location l) with
  | Blank => ViewBlank
  | Bare p => ViewBare p
  | InDashboard p => ViewFramed (dashboard_view l) p
  end.

(** ** Settings.tsx *)

(** The four tabs, by their [value]. *)
Inductive SettingsTab := general | notifications | security | data.

#[export] Instance SettingsTab_eq_dec : EqDecision SettingsTab.
Proof. solve_decision. Defined.

Definition tab_value (t : SettingsTab) : string :=
  match t with general => "general" | notifications => "notifications" | security => "security" | data => "data" end.

Definition tab_label (t : SettingsTab) : string :=
  match t with general => "General" | notifications => "Notifications" | security => "Security" | data => "Data" end.

(** An [<Input>]: uncontrolled with a [defaultValue], or read-only with
    a fixed [value]. *)
Inductive InputValue := DefaultValue (v : string) | ReadOnlyValue (v : string).

Record SettingsInput := mkInput { input_id : string; input_type : string; input_value : InputValue }.

(** A [<Button>]: its label and variant; none of them has an [onClick]. *)
Record SettingsButton := mkButton { button_label : string; button_variant : string }.

Record SettingsCard := mkSettingsCard {
  card_title : string;
  card_description : string;
  card_inputs : list SettingsInput;
  card_buttons : list SettingsButton
}.

Definition settings_card (t : SettingsTab) : SettingsCard :=
  match t with
  | general =>
      mkSettingsCard "General Settings" "Configure basic monitoring preferences"
        [mkInput "service-name" "text" (DefaultValue "Pulse Monitoring");
         mkInput "default-interval" "number" (DefaultValue "300");
         mkInput "default-timeout" "number" (DefaultValue "10")]
        [mkButton "Save Changes" "default"]
  | notifications =>
      mkSettingsCard "Notification Settings" "Configure how you receive alerts" []
        [mkButton "Configure" "outline"; mkButton "Configure" "outline"; mkButton "Configure" "outline"]
  | security =>
      mkSettingsCard "Security Settings" "Manage API keys and access control"
        [mkInput "api-key" "password" (ReadOnlyValue "••••••••••••••••")]
        [mkButton "Regenerate" "outline"; mkButton "Save Changes" "default"]
  | data =>
      mkSettingsCard "Data Management" "Manage your monitoring data" []
        [mkButton "Configure" "outline"; mkButton "Export" "outline"; mkButton "Delete" "destructive"]
  end.

(** The page's only state is the tab of [<Tabs defaultValue="general">];
    the content of the other tabs is unmounted. *)
Record SettingsPage := mkSettingsPage { activeTab : SettingsTab }.

Definition settings_mount : SettingsPage := mkSettingsPage general.

Inductive SettingsEvent := SelectTab (t : SettingsTab) | ClickButton (t : SettingsTab) (i : nat).

(** A click on a trigger selects its tab; a click on a button runs no
    handler. *)
Definition settings_step (p : SettingsPage) (e : SettingsEvent) : SettingsPage :=
  match e with
  | SelectTab t => mkSettingsPage t
  | ClickButton _ _ => p
  end.

(** What the page shows: the tab list and the card of the active tab. *)
Definition Settings (p : SettingsPage) : list (string * string) * SettingsCard :=
  (map (fun t => (tab_value t, tab_label t)) [general; notifications; security; data],
   settings_card (activeTab p)).

(** ** useAuth.ts and oauth.ts *)

Record AuthState := mkAuthState {
  user : option unit;
  loading : bool;
  auth_error : option string;
  isAuthenticated : bool
}.

(** [useAuth()]: a constant state; [refresh] and [logout] resolve at
    once and change nothing. *)
Definition useAuth : AuthState := mkAuthState None false None false.
Definition refresh {S} : Op S unit := op_ret tt.
Definition logout {S} : Op S unit := op_ret tt.

Record Response := mkResponse { status : Z; body : list (string * string) }.

(** [GET /api/oauth/callback] *)
Definition oauth_callback : Response := mkResponse 404 [("error", "OAuth not available for this application")].

(** ** Lemmas *)

Lemma ascii_upper_slash c : Ascii.eqb "/" (ascii_upper c) = true -> c = "/"%char.
Proof.
  unfold ascii_upper. intros H%Ascii.eqb_eq.
  destruct ((97 <=? nat_of_ascii c)%nat && (nat_of_ascii c <=? 122)%nat) eqn:E; [|by symmetry].
  apply andb_true_iff in E as [E1%Nat.leb_le E2%Nat.leb_le].
  apply (f_equal nat_of_ascii) in H. rewrite nat_ascii_embedding in H by lia.
  change (nat_of_ascii "/") with 47%nat in H. lia.
Qed.

Lemma prefix_slash s : prefix_ci ["/"%char] s = true -> exists r, s = "/"%char :: r.
Proof.
  destruct s as [|c r]; [done|]. cbn. rewrite andb_true_r. intros ->%ascii_upper_slash. by exists r.
Qed.

(** The tail [\/?$] of every expression. *)
Lemma end_opt_spec x : mat (Opt [Lit ["/"%char]]) x at_end = true <-> x = [] \/ x = ["/"%char].
Proof.
  cbn. split.
  - intros [(H & E)%andb_true_iff|H]%orb_true_iff; [|by destruct x; [left|]].
    apply prefix_slash in H as [r ->]. destruct r; [by right|done].
  - intros [->| ->]; reflexivity.
Qed.

Lemma nonslash_len_le r : (nonslash_len r <= length r)%nat.
Proof. induction r as [|c r IH]; cbn; [lia|]. destruct (Ascii.eqb c "/"); lia. Qed.

Lemma nonslash_take r n : (n <= nonslash_len r)%nat -> "/"%char ∉ take n r.
Proof.
  revert n. induction r as [|c r IH]; intros n Hn; [by rewrite take_nil; apply not_elem_of_nil|].
  destruct n as [|n]; [apply not_elem_of_nil|]. cbn in Hn |- *.
  destruct (Ascii.eqb_spec c "/"); [lia|]. rewrite elem_of_cons. intros [?|?]; [done|].
  eapply IH; [|done]. lia.
Qed.

Lemma nonslash_len_app sg t : "/"%char ∉ sg -> nonslash_len (sg ++ t) = (length sg + nonslash_len t)%nat.
Proof.
  induction sg as [|c sg IH]; intros Hn; [done|]. rewrite elem_of_cons in Hn. cbn.
  destruct (Ascii.eqb_spec c "/"); [naive_solver|]. rewrite IH; naive_solver.
Qed.

(** ["/:rest*"] compiles to [^\/([^\/]+?)\/?$]: one segment. *)
Lemma rest_compiled : compile "/:rest*" = [Lit ["/"%char]; Seg; Opt [Lit ["/"%char]]].
Proof. reflexivity. Qed.

Lemma seg_then_end sg t :
  sg <> [] -> "/"%char ∉ sg -> t = [] \/ t = ["/"%char] ->
  mat_list [Seg; Opt [Lit ["/"%char]]] (sg ++ t) at_end = true.
Proof.
  intros Hne Hns Ht. cbn [mat_list mat]. apply existsb_exists. exists (length sg).
  rewrite nonslash_len_app, drop_app_length by done. split.
  - apply in_seq. destruct Ht as [-> | ->], sg; cbn; [done|lia|done|lia].
  - change (mat (Opt [Lit ["/"%char]]) t at_end = true). by apply end_opt_spec.
Qed.

Lemma rest_match s : mat_list (compile "/:rest*") s at_end = true <-> one_segment s.
Proof.
  rewrite rest_compiled. split.
  - cbn [mat_list mat]. rewrite andb_true_iff, existsb_exists.
    intros [(r & ->)%prefix_slash (n & Hn%in_seq & Hend)]. cbn in Hn, Hend. rewrite drop_0 in Hn.
    change (mat (Opt [Lit ["/"%char]]) (drop n r) at_end = true) in Hend.
    apply end_opt_spec in Hend. pose proof (nonslash_len_le r).
    exists (take n r). split_and!.
    + intros Ht%(f_equal length). rewrite length_take in Ht. cbn [length] in Ht. lia.
    + apply nonslash_take. lia.
    + destruct Hend as [E|E]; [left|right]; f_equal;
        (transitivity (take n r ++ drop n r); [symmetry; apply take_drop|rewrite E]); [apply app_nil_r|done].
  - intros (sg & Hne & Hns & Hs).
    assert (Ht : exists t, (t = [] \/ t = ["/"%char]) /\ s = "/"%char :: sg ++ t).
    { destruct Hs as [-> | ->]; [exists []; rewrite app_nil_r|exists ["/"%char]]; auto. }
    destruct Ht as (t & Ht & ->). exact (seg_then_end sg t Hne Hns Ht).
Qed.

Lemma notfound_match s : mat_list (compile "/404") s at_end = true -> one_segment s.
Proof.
  change (compile "/404") with [Lit ["/"%char; "4"%char; "0"%char; "4"%char]; Opt [Lit ["/"%char]]].
  cbn [mat_list mat]. intros (Hp & Hend)%andb_true_iff.
  destruct s as [|c0 [|c1 [|c2 [|c3 t]]]]; cbn [prefix_ci] in Hp; rewrite ?andb_false_r in Hp; try discriminate.
  apply andb_true_iff in Hp as [H0 Hp]. change (ascii_upper "/") with "/"%char in H0.
  apply ascii_upper_slash in H0 as ->.
  change (mat (Opt [Lit ["/"%char]]) t at_end = true) in Hend.
  apply end_opt_spec in Hend. exists [c1; c2; c3]. split_and!; [done| |].
  - repeat rewrite elem_of_cons. rewrite elem_of_nil.
    intros [<-|[<-|[<-|[]]]]; revert Hp; by rewrite ?andb_false_r.
  - destruct Hend as [-> | ->]; [by left|by right].
Qed.

(** Away from the one-segment locations neither route matches. *)
Lemma router_blank_of loc : ~ one_segment (String.list_ascii_of_string loc) -> Router loc = Blank.
Proof.
  intros H. unfold Router. cbn [Switch].
  destruct (matchRoute (Some "/404") loc) eqn:E1; [exfalso; exact (H (notfound_match _ E1))|].
  destruct (matchRoute (Some "/:rest*") loc) eqn:E2; [exfalso; exact (H (proj1 (rest_match _) E2))|].
  reflexivity.
Qed.

Lemma list_ascii_of_string_app a b :
  String.list_ascii_of_string (String.append a b) = String.list_ascii_of_string a ++ String.list_ascii_of_string b.
Proof. induction a as [|c a IH]; [done|]. exact (f_equal (cons c) IH). Qed.

Lemma toString_num_nonempty z : String.list_ascii_of_string (toString (Num z)) <> [].
Proof.
  cbn [toString]. unfold show_Z. rewrite String.list_ascii_of_string_of_list_ascii.
  destruct (z <? 0)%Z; [done|]. unfold digit_fuel. cbn [digits_of].
  destruct (z <? 10)%Z; [done|]. intros (_ & [=])%app_eq_nil.
Qed.

(** C14: the links of the status and target cards lead nowhere.
    Home.tsx and Targets.tsx link every card to [`/targets/${id}`]; for
    every id, that location has two segments, so neither route of
    [Router] matches and the application renders nothing. *)
Theorem card_href_blank id : Router (card_href id) = Blank.
Proof.
  apply router_blank_of. unfold card_href. rewrite list_ascii_of_string_app.
  pose proof (toString_num_nonempty id) as Hd.
  set (D := String.list_ascii_of_string (toString (Num id))) in *. clearbody D.
  cbn [String.list_ascii_of_string]. intros (sg & Hne & Hns & [E|E]); injection E as E.
  - apply Hns. rewrite <- E. apply list_elem_of_In. cbn. tauto.
  - assert (Hl : (8 <= length sg)%nat).
    { assert (1 <= length D)%nat by (destruct D; [done|cbn; lia]).
      apply (f_equal length) in E. rewrite !length_app in E. cbn [length] in E. lia. }
    apply (f_equal (take 8)) in E. rewrite take_app_le in E by lia.
    apply Hns. rewrite <- (take_drop 8 sg), <- E. apply elem_of_app. left.
    apply list_elem_of_In. cbn. tauto.
Qed.

(** C15: what App's router renders nothing for.  With wouter 3's
    matching, the application renders nothing exactly at the locations
    that are not ["/"] followed by one non-empty segment without ["/"]
    (and at most one trailing ["/"]): the start page ["/"], which the
    sidebar's "Dashboard" entry links to, and every location of two or
    more segments among them; at the one-segment locations it renders
    the NotFound page or the dashboard frame. *)
Theorem router_blank_iff loc : Router loc = Blank <-> ~ one_segment (String.list_ascii_of_string loc).
Proof.
  split; [|apply router_blank_of]. intros HB H. revert HB. unfold Router. cbn [Switch].
  destruct (matchRoute (Some "/404") loc); [discriminate|].
  apply rest_match in H. change (matchRoute (Some "/:rest*") loc = true) in H. rewrite H. discriminate.
Qed.
